(* ===== verification/_CoqProject ===== *)
-Q . S2P
Prelude.v
JsString.v
JsArray.v
JsNumber.v
ParseFloatSpec.v
Catalog.v
Cards.v
Query.v
V8Sort.v
Pagination.v
Suggestions.v
Page.v
Interleaving.v
Liveness.v
Types.v
Dom.v
