(* ===== verification/Prelude.v ===== *)
(** * A verification of the PeçaAq catalog page ([src/Produtos/scripit.js])

    ** The program

    [src/Produtos/scripit.js] is the only source file.  It is a browser script
    that keeps a fixed list of ten car parts in memory and shows a filtered,
    sorted, paginated part of that list.  The user can type a search text,
    tick brand and category checkboxes, set a price range, tick
    "opportunity", pick a sort order and move between pages.  A shopping cart
    only counts the products put in it.  All of its state lives in global
    variables ([currentPage], [products], [filtered], [brandsSet],
    [categoriesSet]), in the closure of the [DOMContentLoaded] handler
    ([debounceTimer], [cart]) and in the DOM: the values of the inputs, which
    checkboxes are ticked, the [data-expanded] flag of the "Ver mais" button.

    Its parts and how they interact:
    - the catalog: [createSampleProducts] (lines 117-240) fills [products];
      [populateFilterSets] (243-250) scans it into two JS [Set]s;
      [renderFilterCheckboxes] (253-276) turns the sets into sorted arrays
      and rebuilds the brand and category checkboxes, none ticked;
    - the query pipeline: [applyFiltersAndRender] (303-337) reads the inputs,
      filters [products] with five early-return tests, sorts the result with
      one of four comparators, sets [currentPage = 1] and calls
      [renderProducts];
    - pagination: [renderProducts] (340-372) cuts the page out of [filtered]
      and fills one card per product, with the price and the installment
      amount written by [toFixed(2).replace('.', ',')];
      the "previous" and "next" handlers (85-98) move [currentPage] within
      [1, totalPages] and only re-cut the page;
    - suggestions: [renderSuggestions] (279-300) lists up to six titles;
    - the cart: [addToCart] (110-114);
    - the event handlers (41-98), among them the 220 ms debounce of the
      search box, which connect the rest to the user.

    ** The development

    A shallow embedding on the Standard Library only (lists, [Sorted],
    [Permutation], [Z], [N], [Q]); every definition computes, so the
    concrete runs below are proved by [vm_compute].  Files, in dependency
    order:
    - [Prelude] (this file): a state monad [St] with its notation in
      [st_scope], the hint databases [catalog] and [catalog_rw], the tactics
      [bool_split] and [case_ifs], and the list lemmas the others share.
    - [JsString]: JavaScript strings as lists of UTF-16 code units ([N]):
      [toLowerCase], [trim], [includes], equality, the code-unit order used
      by [Array.prototype.sort] without a comparator, and [ustr], which
      decodes the UTF-8 of a Rocq literal so the catalog reads as in the
      source.
    - [JsArray]: the contract of [Array.prototype.sort] as the class
      [JsSort] (the comparator is a computation in [St], since the
      "relevance" comparator calls [Math.random()]), the insertion-sort
      instance [isort_JsSort], and [js_sort_unique]: on a consistent
      comparator every implementation of the contract returns the
      insertion sort's result.  Also [js_slice] ([Array.prototype.slice]
      with negative and out-of-range indices) and [set_add] (a JS [Set] of
      strings, in insertion order).
    - [JsNumber]: what [parseFloat] returns ([jsnum]: finite, infinite or
      NaN), [||] on it ([num_or]), the comparisons with a price, and
      [parseFloat] itself: white space, sign, [Infinity], digits, fraction
      and exponent, the longest prefix that is a number.
    - [ParseFloatSpec]: the ECMAScript specification of [parseFloat] as
      inductive predicates over the grammar of [StrDecimalLiteral]
      ([decimal_lit] and the predicates it is built from, with the value
      [mv] of a literal) and the contract [parseFloat_spec] (longest
      literal prefix after the white space, NaN when none); the proof,
      layer by layer, that [parseFloat] is the one function meeting it.
    - [Catalog]: the [product] record, [createSampleProducts] (taking the
      values of its ten [Date.now()] calls), [populateFilterSets] and the
      checkboxes of [renderFilterCheckboxes].
    - [Cards]: the texts of a product card ([card_of]): [n_to_str] and
      [z_to_str] (an integer in decimal), [toFixed2] ([toFixed(2)]: round
      to hundredths, ties up), [replace_first] ([String.prototype.replace]
      with a one-character pattern) and [money], their composition.
    - [Query]: [applyFilters], the filter and sort of
      [applyFiltersAndRender]: [keep] is the filter callback with its five
      early returns, [sortMode_of] the [if/else if] chain on the sort
      select, [cmp_price_asc], [cmp_price_desc], [cmp_recent] and
      [cmp_relevance] the four comparators.  Prices are exact rationals;
      the query holds [parseFloat]'s results.
    - [V8Sort]: the sort the page runs in Chrome and Node: V8's TimSort,
      which on fewer than 64 elements (every array the script sorts) is
      [CountAndMakeRun] followed by [BinaryInsertionSort]; [v8_sortM]
      makes the comparator's calls in V8's order, and [v8_JsSort] proves
      it meets the contract [JsSort].
    - [Pagination]: [renderProducts] as a [view] (count, page info, the
      products of the page, their cards, the "no product" message), [totalPages], and
      the conditions [prev_page] and [next_page] of the two buttons.
    - [Suggestions]: [renderSuggestions].
    - [Page]: the [page] record of every global, closure variable and DOM
      input; [handle], one branch per listener of lines 41-114;
      [applyFiltersAndRender]; [init] (lines 35-38); [reachable], the
      pages reachable from [init] by events; [run], a sequence of events.
    - [Interleaving]: a suggestion click racing the pending debounce
      timer of the search box.
    - [Liveness]: every page of the results is reachable with the
      navigation buttons.
    - [Types]: JavaScript's string type (16-bit code units) as the
      predicates [str16], [product16], [card16], [page16].
    - [Dom]: what the script writes into the document: the checkbox
      labels' [innerHTML] and ids ([label_html], [box_id]), the
      suggestions' [<li>] markup ([suggestions_html]), the count, page
      info and cart counter texts, the empty-grid message, the alert of
      [addToCart] ([cart_alert]) and the WhatsApp URL, gathered per page
      by [dom_of]; and readers of that markup ([read_li], [read_value],
      specification devices) that follow the HTML tokenizer on it.

    The pipeline's functions take the sort implementation as an instance
    of [JsSort] and are proved for every instance; [js_sort_unique] and
    [Query.applyFilters_any_sort] show that outside "relevance" mode the
    instance does not change any result; [V8Sort.v8_JsSort] is a second
    instance, V8's own algorithm.

    ** What the theorems show

    - Filtering ([Query]): [applyFilters_In] (a product is shown exactly
      when it is in the catalog and meets the five conditions, in every
      sort mode), [keep_query_spec] (the early returns are the
      conjunction), [max_zero_is_unbounded] (a maximum of 0 is no
      bound); the checks [applyFilters_idempotent] and [spec_examples]
      (the specification's examples on the seed catalog).
    - Sorting ([Query]): [sort_dispatch] (each of the four option values
      selects its own order, any other value none: catalog order, no
      draw), [applyFilters_price_asc] and [applyFilters_recent] (sorted
      and stable), [price_desc_rev_asc] (on distinct prices the
      descending order is the ascending one reversed),
      [applyFilters_any_sort] (independence from the sort algorithm
      outside "relevance"); [applyFilters_relevance_v8] ([V8Sort]: in
      the browser the relevance order is decided by the random draws),
      [v8_sort_eq_isort] ([V8Sort]: V8's run detection and binary
      insertion compute the insertion sort's result on every consistent
      comparator) and [relevance_engine_dependent] (on the relevance
      comparator the same draws give opposite orders in V8 and in an
      insertion sort).
    - Pagination: [pages_concat] (the pages put back together are
      [filtered]), [page_sizes], [navigation_clamped], [empty_message_iff].
    - Cards: [money_roundtrip] (a price text is digits, a comma and two
      digits, and reads back as the price rounded to hundredths, within
      half a hundredth), [card_installments] (the parcels shown add up to
      the price within half a hundredth each); the checks [seed_cards]
      (the ten cards' texts) and [n_to_str_fuel_enough] (the digit
      loop's result does not depend on its fuel once the fuel covers the
      digits).
    - Price fields ([JsNumber], [Cards], [Page]): [parseFloat_decimal]
      (a typed decimal is read as written), [blank_price_fields] (an
      empty field is no bound), [parseFloat_money] (a price written as
      the cards write it is read up to its comma only) and
      [comma_max_hides_displayed] (typing a card's price as the maximum
      hides that product); [parseFloat_spec_iff] ([ParseFloatSpec]: a
      value meets the ECMAScript contract of [parseFloat] if and only if
      it is what the model returns).
    - Suggestions: [renderSuggestions_spec] (the suggestions are the
      titles of the first six results of the page's own filter when the
      search text is the only input, hidden exactly when it finds none).
    - Catalog: [filter_values_sorted] (the checkboxes: each brand and
      category once, in strictly ascending order, five brands when
      collapsed, all unticked), and the check [createSampleProducts_wf]
      on the seed (distinct ids, at least one installment, no negative
      price).
    - The page ([Page]): [reachable_inv] (by induction on [reachable]:
      catalog unchanged, [currentPage] in [1, totalPages], the rendered
      view is the one computed from [filtered] and [currentPage], only
      catalog products in [filtered] and in the cart, the cart counter is
      the cart's length), [refilter_events_reset] (every filter or sort
      event recomputes [filtered] from the current inputs and goes back to
      page 1), [navigation_only_reslices], [debounce_last_wins] (newest
      input wins), [buy_appends], the example [add_to_cart_twice],
      [show_more_keeps_filter] and [show_more_stale_filter] (after "Ver
      mais" the products shown no longer follow the inputs shown),
      [comma_max_hides_displayed].  Every event keeps the invariant
      ([handle_inv]); [reachable_inv] is its rule induction.
    - Ordering ([Interleaving]): [click_then_fire] (a pending search timer
      survives a suggestion click and, when it fires, renders and shows
      the suggestions of the text typed before the click) and
      [stale_timer_reopens] (on the seed: the list the click closed comes
      back over the filtered results).
    - Liveness ([Liveness]): [every_page_reachable] (from every reachable
      page, "previous" and "next" reach each page of [filtered]).
    - Types ([Types]): [page16_run] (every string of every page reached
      by valid input is a JavaScript string: the operations that build
      strings, [toLowerCase], [trim], [toFixed], [String(n)], keep 16-bit
      code units).
    - Markup ([Dom]): [dom_readback] (on every reachable page the [<li>]
      texts and the checkbox [value]s the script reads back are the
      suggestions and checkbox values of the model, because every string
      written as markup comes from the seed catalog, which has no [<],
      [&] or double quote; by induction on [reachable]).

    ** Bounds, fuel and modelling choices

    One definition has fuel: [digits_fuel], the digit loop of [n_to_str],
    which [n_to_str] gives [N.size n + 1] steps; [N.size n] binary digits
    are at least as many as the decimal ones, so the fuel never runs out
    ([n_to_str_spec]), and any larger fuel gives the same text
    ([n_to_str_fuel_enough]).  Two more loops have fuel: V8's binary
    search [bsearch], given the width of its range, which every step
    shrinks ([bsearch_p_spec] holds for any fuel at least the width), and
    the reader [read_li_fuel] of [Dom], given the length of the markup,
    of which every [<li>] takes at least nine code units
    ([read_li_fuel_html]).  Every other recursion is structural.  Prices are
    exact rationals: every price and bound in the program is a decimal of
    at most 15 significant digits, and rounding such decimals to the
    nearest double keeps their order and their equalities, so [<], [>] and
    the sign of [a - b] agree.  Timestamps are integers ([Z]), exact in a
    double below 2^53 ms.  [toLowerCase] is modelled on Basic Latin and
    Latin-1 Supplement (all the catalog's letters); other code units are
    kept as they are.  [Math.random()] is a stream [rand : nat -> Q]; the
    page counts how many values were drawn.  [Date.now()] is a function
    [now : nat -> Z] of the call's rank.  The initial HTML (not in the
    repository) is assumed to have empty search and price fields, the
    opportunity box unticked, one opportunity box, and a sort select whose
    initial value [init] takes as an argument.  [parseFloat] keeps the
    exact value of the literal it reads instead of the nearest double
    (and does not overflow to an infinity above 1.8e308); both keep the
    order against the catalog's prices for literals of at most fifteen
    significant digits.  [toFixed(2)]
    is applied to the exact rational, not to its nearest double: the two
    agree unless [100 x] is within a double's rounding error of a half,
    which no seed price or installment is ([seed_cards]); its exponent
    notation above [10^21] is not modelled.

    ** What is not modelled

    The DOM tree itself (cloning and appending the card nodes,
    [querySelector], [classList] beyond the suggestion list's [hidden]
    flag) and the effects of [alert] and [window.open]: [Dom] models the
    texts and markup they are given, and nothing the script reads back
    depends on the rest.  The HTML tokenizer is modelled only on the
    markup the script writes ([read_li], [read_value]), not in general:
    character references and markup inside a title are outside it
    ([markup_breaks] shows a title it does not read back).  The 220 ms
    delay itself is not modelled, only the order of events: a pending
    timer is [debounceTimer], and its firing is the event [DebounceFire].

    ** Plan for the rest of the development

    - [toLowerCase] beyond Latin-1, if a catalog with such letters is
      to be covered;
    - a general HTML tokenizer with character references, to state what
      a catalog with markup in its titles would show.
*)

From Stdlib Require Import List Bool Arith ZArith NArith Lia.
From Stdlib Require Import Sorted Permutation.
Import ListNotations.

(** ** A state monad

    The script threads state through global variables; where a computation
    reads and advances a source of its own (the stream of [Math.random()]
    values), it is written in this monad. *)

Definition St (S A : Type) : Type := S -> A * S.

Definition st_ret {S A} (a : A) : St S A := fun s => (a, s).

Definition st_bind {S A B} (c : St S A) (k : A -> St S B) : St S B :=
  fun s => let (a, s') := c s in k a s'.

Declare Scope st_scope.
Delimit Scope st_scope with st.
Notation "x <- c ;; k" := (st_bind c (fun x => k))
  (at level 100, c at next level, right associativity) : st_scope.
Notation "'ret' a" := (st_ret a) (at level 10) : st_scope.

Lemma st_bind_ret {S A B} (a : A) (k : A -> St S B) (s : S) :
  st_bind (st_ret a) k s = k a s.
Proof. reflexivity. Qed.

Lemma st_bind_eq {S A B} (c : St S A) (k : A -> St S B) (s : S) a s' :
  c s = (a, s') -> st_bind c k s = k a s'.
Proof. intros E. unfold st_bind. rewrite E. reflexivity. Qed.

(** Running a computation and keeping only its value. *)
Definition st_eval {S A} (c : St S A) (s : S) : A := fst (c s).

(** ** Automation *)

(** [if c then false else b] is [true] exactly when [c] fails and [b]
    holds: the shape of an early [return false]. *)
Lemma if_false_true (c b : bool) : (if c then false else b) = true <-> c = false /\ b = true.
Proof. destruct c; intuition discriminate. Qed.

Create HintDb catalog.
Create Rewrite HintDb catalog_rw.

(** Split every boolean conjunction or disjunction in the hypotheses. *)
Ltac bool_split :=
  repeat match goal with
  | H : (_ && _)%bool = true |- _ => apply andb_prop in H; destruct H
  | H : (_ || _)%bool = false |- _ => apply orb_false_elim in H; destruct H
  | H : negb _ = true |- _ => apply negb_true_iff in H
  | H : negb _ = false |- _ => apply negb_false_iff in H
  end.

(** Case analysis on the conditions of [if]s in the goal, with equations. *)
Ltac case_ifs :=
  repeat match goal with
  | |- context [if ?b then _ else _] =>
      lazymatch b with
      | context [if _ then _ else _] => fail
      | _ => destruct b eqn:?
      end
  end.

(** ** Generic lemmas on lists *)

Section ListFacts.
Context {A : Type}.

Lemma filter_filter_same (f : A -> bool) (l : list A) :
  filter f (filter f l) = filter f l.
Proof.
  induction l as [|x l IH]; simpl; [reflexivity|].
  destruct (f x) eqn:E; simpl; rewrite ?E, ?IH; reflexivity.
Qed.

Lemma filter_ext_in (f g : A -> bool) (l : list A) :
  (forall x, In x l -> f x = g x) -> filter f l = filter g l.
Proof.
  induction l as [|x l IH]; intros H; simpl; [reflexivity|].
  rewrite (H x (or_introl eq_refl)), IH by (intros; apply H; right; assumption).
  reflexivity.
Qed.

Lemma filter_Permutation (f : A -> bool) (l l' : list A) :
  Permutation l l' -> Permutation (filter f l) (filter f l').
Proof.
  induction 1; simpl; try constructor; auto.
  - destruct (f x); auto.
  - destruct (f x), (f y); auto using perm_swap.
  - eapply perm_trans; eassumption.
Qed.

Lemma filter_nil_forall (f : A -> bool) (l : list A) :
  (forall x, In x l -> f x = false) -> filter f l = [].
Proof.
  induction l as [|x l IH]; intros H; simpl; [reflexivity|].
  rewrite (H x (or_introl eq_refl)). apply IH. intros; apply H; right; assumption.
Qed.

(** The head of a list sorted by a transitive relation bounds all the rest. *)
Lemma Sorted_head_all (R : A -> A -> Prop) (x : A) (l : list A) :
  (forall a b c, R a b -> R b c -> R a c) ->
  Sorted R (x :: l) -> forall y, In y l -> R x y.
Proof.
  intros Htr Hs. apply Sorted_StronglySorted in Hs; [|exact Htr].
  apply StronglySorted_inv in Hs as [_ Hall].
  intros y Hy. rewrite Forall_forall in Hall. auto.
Qed.

(** Sortedness only looks at adjacent pairs. *)
Lemma Sorted_adjacent (R : A -> A -> Prop) (l : list A) :
  Sorted R l <-> (forall l1 l2 a b, l = l1 ++ a :: b :: l2 -> R a b).
Proof.
  split.
  - induction 1 as [|x l Hs IH Hd]; intros l1 l2 a b E.
    + destruct l1; discriminate.
    + destruct l1 as [|c l1]; simpl in E; injection E as -> E; subst.
      * inversion Hd; assumption.
      * apply (IH l1 l2); reflexivity.
  - induction l as [|x l IH]; intros H; constructor.
    + apply IH. intros l1 l2 a b E. apply (H (x :: l1) l2). rewrite E; reflexivity.
    + destruct l as [|y l]; constructor. apply (H [] l). reflexivity.
Qed.
Lemma StronglySorted_app_single (R : A -> A -> Prop) (l : list A) (a : A) :
  StronglySorted R l -> (forall x, In x l -> R x a) -> StronglySorted R (l ++ [a]).
Proof.
  induction 1 as [|x l Hs IH Hall]; intros Ha; simpl; repeat constructor.
  - apply IH. intros; apply Ha; right; assumption.
  - apply Forall_app; split; [exact Hall|]. constructor; [apply Ha; left; reflexivity|constructor].
Qed.

(** Reversing a sorted list sorts it by the converse relation. *)
Lemma StronglySorted_rev (R : A -> A -> Prop) (l : list A) :
  StronglySorted R l -> StronglySorted (fun a b => R b a) (rev l).
Proof.
  induction 1 as [|x l Hs IH Hall]; simpl; [constructor|].
  apply StronglySorted_app_single; [exact IH|].
  intros y Hy. apply in_rev in Hy. rewrite Forall_forall in Hall. auto.
Qed.

(** An element above everything before it and below everything after
    it can be put in between. *)
Lemma StronglySorted_insert_mid (R : A -> A -> Prop) (u v : list A) (x : A) :
  StronglySorted R (u ++ v) -> Forall (fun y => R y x) u -> Forall (R x) v ->
  StronglySorted R (u ++ x :: v).
Proof.
  induction u as [|y u IH]; cbn; intros Hs Hu Hv; [constructor; assumption|].
  inversion Hs as [|? ? Hs' Hall]; subst. inversion Hu as [|? ? Hy Hu']; subst.
  constructor; [apply IH; assumption|]. apply Forall_app in Hall as [H1 H2].
  apply Forall_app. split; [exact H1|constructor; assumption].
Qed.

(** A permutation of a list of copies of one element is that list. *)
Lemma Permutation_all_eq (l1 l2 : list A) (z : A) :
  Permutation l1 l2 -> (forall x, In x l1 -> x = z) -> l1 = l2.
Proof.
  intros Hp Hz.
  assert (Hz2 : forall x, In x l2 -> x = z) by (intros x Hx; apply Hz;
    eapply Permutation_in; [symmetry|]; eassumption).
  apply Permutation_length in Hp. revert l2 Hp Hz2.
  induction l1 as [|x l1 IH]; intros [|y l2] Hp Hz2; simpl in Hp; try discriminate; [reflexivity|].
  rewrite (Hz x (or_introl eq_refl)), (Hz2 y (or_introl eq_refl)). f_equal.
  apply IH; auto with datatypes.
Qed.

Lemma Sorted_weaken (R1 R2 : A -> A -> Prop) (l : list A) :
  (forall a b, R1 a b -> R2 a b) -> Sorted R1 l -> Sorted R2 l.
Proof.
  intros H. induction 1 as [|x l Hs IH Hd]; constructor; [exact IH|].
  destruct Hd; constructor; auto.
Qed.

Lemma In_firstn (n : nat) (l : list A) (x : A) : In x (firstn n l) -> In x l.
Proof. intros H. rewrite <- (firstn_skipn n l). apply in_or_app. left; exact H. Qed.

Lemma In_skipn (n : nat) (l : list A) (x : A) : In x (skipn n l) -> In x l.
Proof. intros H. rewrite <- (firstn_skipn n l). apply in_or_app. right; exact H. Qed.

(** Only the part of a prefix length up to the list's length matters. *)
Lemma firstn_min_length (n : nat) (l : list A) :
  firstn n l = firstn (Nat.min n (length l)) l.
Proof. rewrite <- firstn_firstn, firstn_all. reflexivity. Qed.
End ListFacts.

#[export] Hint Resolve filter_Permutation : catalog.
#[export] Hint Rewrite @filter_filter_same : catalog_rw.
