(* ===== verification/JsString.v ===== *)
(** * JavaScript strings

    A JavaScript string is a sequence of UTF-16 code units; here a [jsstr] is
    a [list N] of them.  This file holds the string operations the script
    calls: [toLowerCase] and [trim] (lines 50 and 304), [includes] (288, 323),
    equality of strings ([===], [Array.prototype.includes] at line 318), the
    template concatenation [`${a} ${b}`] (287, 322) and the order of code
    units that [Array.prototype.sort] uses when it has no comparator
    (lines 254, 268).  [ustr] decodes the UTF-8 bytes of a Rocq string
    literal, so that the catalog's titles ("Óleo", "Suspensão") are written
    as in the source. *)

From Stdlib Require Import List Bool Arith NArith Ascii String Lia.
From S2P Require Import Prelude.
Import ListNotations.
Local Open Scope N_scope.

Definition jsstr := list N.

(** ** Literals *)

(** UTF-8 decoding of one-, two- and three-byte sequences: every code point
    of the Basic Multilingual Plane, which is one UTF-16 code unit. *)
Fixpoint utf8_decode (bs : list N) : jsstr :=
  match bs with
  | [] => []
  | b1 :: rest =>
      if b1 <? 128 then b1 :: utf8_decode rest
      else match rest with
           | [] => []
           | b2 :: rest2 =>
               if b1 <? 224 then ((b1 - 192) * 64 + (b2 - 128)) :: utf8_decode rest2
               else match rest2 with
                    | [] => []
                    | b3 :: rest3 =>
                        ((b1 - 224) * 4096 + (b2 - 128) * 64 + (b3 - 128))
                          :: utf8_decode rest3
                    end
           end
  end.

Definition ustr (s : string) : jsstr :=
  utf8_decode (map N_of_ascii (list_ascii_of_string s)).
Arguments ustr s%_string.

(** ** [String.prototype.toLowerCase] *)

(** The lower-case mapping of one code unit, on Basic Latin and Latin-1
    Supplement: [A-Z] and [À-Þ] except [×] move up by 32.  Code units above
    255 are left as they are (see the header of [Prelude]). *)
Definition lower_unit (c : N) : N :=
  if ((65 <=? c) && (c <=? 90)) || ((192 <=? c) && (c <=? 222) && negb (c =? 215))
  then c + 32 else c.

Definition toLowerCase (s : jsstr) : jsstr := map lower_unit s.

(** ** [String.prototype.trim] *)

(** ECMAScript's WhiteSpace and LineTerminator code points: TAB, LF, VT,
    FF, CR, SPACE, NBSP, the Unicode [Zs] spaces, LS, PS and the BOM. *)
Definition is_ws (c : N) : bool :=
  existsb (N.eqb c) [9; 10; 11; 12; 13; 32; 160; 5760; 8232; 8233; 8239; 8287; 12288; 65279]
  || ((8192 <=? c) && (c <=? 8202)).

Fixpoint trim_start (s : jsstr) : jsstr :=
  match s with
  | [] => []
  | c :: s' => if is_ws c then trim_start s' else s
  end.

Definition trim (s : jsstr) : jsstr := rev (trim_start (rev (trim_start s))).

(** ** [String.prototype.includes] *)

Fixpoint starts_with (q s : jsstr) : bool :=
  match q, s with
  | [], _ => true
  | c :: q', d :: s' => (c =? d) && starts_with q' s'
  | _ :: _, [] => false
  end.

(** [includes s q] is [s.includes(q)]: [q] occurs in [s] at some index. *)
Fixpoint includes (s q : jsstr) : bool :=
  starts_with q s || match s with [] => false | _ :: s' => includes s' q end.

(** ** Equality and order *)

Definition jsstr_eqb (a b : jsstr) : bool :=
  if list_eq_dec N.eq_dec a b then true else false.

(** [Array.prototype.includes] on an array of strings (SameValueZero is
    code-unit equality on strings). *)
Definition arr_includes (l : list jsstr) (x : jsstr) : bool :=
  existsb (jsstr_eqb x) l.

(** The comparison of [Array.prototype.sort] without a comparator on
    strings: code units in lexicographic order, a proper prefix first. *)
Fixpoint str_compare (a b : jsstr) : comparison :=
  match a, b with
  | [], [] => Eq
  | [], _ :: _ => Lt
  | _ :: _, [] => Gt
  | x :: a', y :: b' =>
      match N.compare x y with
      | Eq => str_compare a' b'
      | c => c
      end
  end.

(** A string is "truthy" when it is not empty ([if (q)] at line 321,
    [if (!query)] at line 280). *)
Definition str_truthy (s : jsstr) : bool :=
  match s with [] => false | _ => true end.

(** ** Lemmas *)

Lemma jsstr_eqb_eq a b : jsstr_eqb a b = true <-> a = b.
Proof. unfold jsstr_eqb; destruct (list_eq_dec N.eq_dec a b); split; congruence. Qed.

Lemma arr_includes_In l x : arr_includes l x = true <-> In x l.
Proof.
  unfold arr_includes. rewrite existsb_exists. split.
  - intros [y [Hy E]]. apply jsstr_eqb_eq in E. subst. assumption.
  - intros H. exists x. split; [assumption|]. apply jsstr_eqb_eq. reflexivity.
Qed.

Lemma lower_unit_idem c : lower_unit (lower_unit c) = lower_unit c.
Proof.
  unfold lower_unit.
  destruct (((65 <=? c) && (c <=? 90)) || ((192 <=? c) && (c <=? 222) && negb (c =? 215)))
    eqn:E; [|rewrite E; reflexivity].
  bool_split.
  apply orb_true_iff in E as [E|E]; bool_split;
  rewrite ?N.leb_le, ?N.eqb_neq in *;
  repeat match goal with |- context [?a <=? ?b] => destruct (N.leb_spec a b) end;
  repeat match goal with |- context [?a =? ?b] => destruct (N.eqb_spec a b) end;
  simpl; lia.
Qed.

Lemma toLowerCase_idem s : toLowerCase (toLowerCase s) = toLowerCase s.
Proof.
  unfold toLowerCase. rewrite map_map. apply map_ext. apply lower_unit_idem.
Qed.

Lemma toLowerCase_app a b : toLowerCase (a ++ b) = toLowerCase a ++ toLowerCase b.
Proof. apply map_app. Qed.

#[export] Hint Rewrite toLowerCase_idem toLowerCase_app : catalog_rw.

Lemma starts_with_spec q s : starts_with q s = true <-> exists suf, s = q ++ suf.
Proof.
  revert s; induction q as [|c q IH]; intros [|d s]; simpl.
  - split; eauto.
  - split; eauto.
  - split; [discriminate|intros [suf E]; discriminate].
  - rewrite andb_true_iff, N.eqb_eq, IH. split.
    + intros [-> [suf ->]]. eauto.
    + intros [suf E]. injection E as -> ->. eauto.
Qed.

(** [includes] is substring search. *)
Lemma includes_spec s q : includes s q = true <-> exists pre suf, s = pre ++ q ++ suf.
Proof.
  induction s as [|c s IH]; simpl; rewrite orb_true_iff, starts_with_spec.
  - split.
    + intros [[suf E]|H]; [exists [], suf; assumption|discriminate].
    + intros [[|x pre] [suf E]]; [left; eauto|discriminate].
  - rewrite IH. split.
    + intros [[suf E]|[pre [suf E]]]; [exists [], suf | exists (c :: pre), suf];
        rewrite E; reflexivity.
    + intros [[|x pre] [suf E]]; simpl in E; [left; eauto|].
      injection E as -> E. right. eauto.
Qed.

Lemma includes_app_l s t q : includes s q = true -> includes (s ++ t) q = true.
Proof.
  rewrite !includes_spec. intros [pre [suf ->]]. exists pre, (suf ++ t).
  rewrite <- !app_assoc. reflexivity.
Qed.

Lemma includes_app_r s t q : includes t q = true -> includes (s ++ t) q = true.
Proof.
  rewrite !includes_spec. intros [pre [suf ->]]. exists (s ++ pre), suf.
  rewrite <- !app_assoc. reflexivity.
Qed.

Lemma includes_nil s : includes s [] = true.
Proof. destruct s; reflexivity. Qed.

(** [str_compare] is a total order: it is the comparison of a consistent
    comparator in the sense of [Array.prototype.sort]. *)
Lemma str_compare_eq a b : str_compare a b = Eq <-> a = b.
Proof.
  revert b; induction a as [|x a IH]; intros [|y b]; simpl;
    try (split; congruence).
  destruct (N.compare_spec x y) as [->|H|H].
  - rewrite IH. split; congruence.
  - split; [discriminate|]. intros E; injection E as -> _. lia.
  - split; [discriminate|]. intros E; injection E as -> _. lia.
Qed.

Lemma str_compare_antisym a b : str_compare b a = CompOpp (str_compare a b).
Proof.
  revert b; induction a as [|x a IH]; intros [|y b]; simpl; try reflexivity.
  rewrite (N.compare_antisym x y).
  destruct (N.compare x y); simpl; auto.
Qed.

Lemma str_compare_trans_lt a b c :
  str_compare a b = Lt -> str_compare b c = Lt -> str_compare a c = Lt.
Proof.
  revert b c; induction a as [|x a IH]; intros [|y b] [|z c]; simpl;
    try discriminate; try reflexivity.
  destruct (x ?= y) eqn:E1, (y ?= z) eqn:E2; intros H1 H2; try discriminate;
  destruct (x ?= z) eqn:E3;
  rewrite ?N.compare_eq_iff, ?N.compare_lt_iff, ?N.compare_gt_iff in *;
  subst; eauto; lia.
Qed.

(** [trim] removes white space at both ends. *)
Lemma trim_start_no_ws s : match trim_start s with c :: _ => is_ws c = false | [] => True end.
Proof.
  induction s as [|c s IH]; simpl; [exact I|].
  destruct (is_ws c) eqn:E; [exact IH|exact E].
Qed.

Lemma trim_start_idem s : trim_start (trim_start s) = trim_start s.
Proof.
  pose proof (trim_start_no_ws s) as H.
  destruct (trim_start s) as [|c t]; simpl; [reflexivity|]. rewrite H. reflexivity.
Qed.
