(* ===== verification/JsArray.v ===== *)
(** * JavaScript arrays: [sort], [slice] and [Set]

    [Array.prototype.sort] is the one library routine whose behaviour the
    script's results depend on in detail (lines 254, 268, 330-333).  Its
    contract (ECMAScript 2019 and later) is stated as the class [JsSort]:
    the comparator may be any function, even one that draws random numbers
    (line 333), so it is a computation in the state monad of [Prelude]; the
    result is always a permutation; with a pure comparator that is
    consistent (a total preorder) the result is sorted and stable.  The
    instance [isort_JsSort] is an insertion sort, and [js_sort_unique] shows
    that every implementation of the contract (V8's TimSort among them)
    returns what the insertion sort returns whenever the comparator is
    consistent, so the choice of algorithm does not matter for those calls.

    [js_slice] is [Array.prototype.slice] with its negative and
    out-of-range indices (lines 259, 289, 347); [set_add] is [Set.prototype.add]
    on a set of strings, which keeps insertion order (lines 247-248). *)

From Stdlib Require Import List Bool Arith ZArith Lia Sorted Permutation.
From S2P Require Import Prelude JsString.
Import ListNotations.
Local Open Scope st_scope.

(** ** Comparators *)

(** A comparator's result, read through its sign: [Lt] for negative,
    [Gt] for positive, [Eq] for zero (and NaN). *)
Definition cmp_le {A} (cmp : A -> A -> comparison) (a b : A) : Prop := cmp a b <> Gt.

(** The ECMAScript notion of a consistent comparator. *)
Record consistent {A} (cmp : A -> A -> comparison) : Prop := {
  cmp_antisym : forall a b, cmp b a = CompOpp (cmp a b);
  cmp_trans : forall a b c, cmp_le cmp a b -> cmp_le cmp b c -> cmp_le cmp a c
}.

(** The elements a comparator puts level with [x]. *)
Definition eq_class {A} (cmp : A -> A -> comparison) (x z : A) : bool :=
  match cmp z x with Eq => true | _ => false end.

(** The comparator seen as a computation that does not touch the state. *)
Definition pure_cmp {S A} (cmp : A -> A -> comparison) : A -> A -> St S comparison :=
  fun a b => ret (cmp a b).

(** ** The contract of [Array.prototype.sort] *)

Class JsSort := {
  sortM : forall (S A : Type), (A -> A -> St S comparison) -> list A -> St S (list A);
  sortM_perm : forall S A (c : A -> A -> St S comparison) l s,
    Permutation l (fst (sortM S A c l s));
  sortM_pure_state : forall S A (cmp : A -> A -> comparison) l s,
    snd (sortM S A (pure_cmp cmp) l s) = s;
  sortM_pure_value : forall S A (cmp : A -> A -> comparison) l s,
    fst (sortM S A (pure_cmp cmp) l s) = fst (sortM unit A (pure_cmp cmp) l tt);
  sortM_sorted : forall A (cmp : A -> A -> comparison) l, consistent cmp ->
    Sorted (cmp_le cmp) (fst (sortM unit A (pure_cmp cmp) l tt));
  sortM_stable : forall A (cmp : A -> A -> comparison) l x, consistent cmp ->
    filter (eq_class cmp x) (fst (sortM unit A (pure_cmp cmp) l tt))
    = filter (eq_class cmp x) l
}.

(** [arr.sort(cmp)] with a pure comparator. *)
Definition js_sort `{JsSort} {A} (cmp : A -> A -> comparison) (l : list A) : list A :=
  fst (sortM unit A (pure_cmp cmp) l tt).

Lemma js_sort_perm `{JsSort} {A} (cmp : A -> A -> comparison) (l : list A) :
  Permutation l (js_sort cmp l).
Proof. apply sortM_perm. Qed.

(** ** Facts about consistent comparators *)

Section Consistent.
Context {A : Type} (cmp : A -> A -> comparison) (Hc : consistent cmp).

Lemma cmp_refl a : cmp a a = Eq.
Proof.
  pose proof (cmp_antisym cmp Hc a a) as E.
  destruct (cmp a a); simpl in E; congruence.
Qed.

Lemma cmp_le_refl a : cmp_le cmp a a.
Proof. unfold cmp_le. rewrite cmp_refl. discriminate. Qed.

Lemma cmp_gt_le a b : cmp a b = Gt -> cmp_le cmp b a.
Proof. unfold cmp_le. intros E. rewrite (cmp_antisym cmp Hc a b), E. discriminate. Qed.

Lemma cmp_eq_of_le a b : cmp_le cmp a b -> cmp_le cmp b a -> cmp a b = Eq.
Proof.
  unfold cmp_le. intros H1 H2. rewrite (cmp_antisym cmp Hc a b) in H2.
  destruct (cmp a b); simpl in *; congruence.
Qed.

Lemma cmp_eq_le a b : cmp a b = Eq -> cmp_le cmp a b /\ cmp_le cmp b a.
Proof.
  unfold cmp_le. intros E. rewrite (cmp_antisym cmp Hc a b), E. split; discriminate.
Qed.

(** Being level is an equivalence: two elements level with [x] are level. *)
Lemma eq_class_trans x z w :
  eq_class cmp x z = true -> eq_class cmp x w = true -> cmp z w = Eq.
Proof.
  unfold eq_class. destruct (cmp z x) eqn:E1; try discriminate.
  destruct (cmp w x) eqn:E2; try discriminate. intros _ _.
  apply cmp_eq_le in E1 as [H1 H1'], E2 as [H2 H2'].
  apply cmp_eq_of_le; eapply (cmp_trans cmp Hc); eassumption.
Qed.

Lemma eq_class_self x : eq_class cmp x x = true.
Proof. unfold eq_class. rewrite cmp_refl. reflexivity. Qed.
End Consistent.

#[export] Hint Resolve cmp_le_refl eq_class_self : catalog.

(** The default string order is consistent. *)
Lemma str_compare_consistent : consistent str_compare.
Proof.
  split; [apply str_compare_antisym|].
  unfold cmp_le. intros a b c H1 H2.
  destruct (str_compare a b) eqn:E1; [apply str_compare_eq in E1; subst; exact H2| |congruence].
  destruct (str_compare b c) eqn:E2; [apply str_compare_eq in E2; subst; congruence| |congruence].
  rewrite (str_compare_trans_lt a b c E1 E2). discriminate.
Qed.

#[export] Hint Resolve str_compare_consistent : catalog.

Lemma consistent_ext {A} (c1 c2 : A -> A -> comparison) :
  (forall a b, c1 a b = c2 a b) -> consistent c1 -> consistent c2.
Proof.
  intros E [Ha Ht]. unfold cmp_le in *. split.
  - intros a b. rewrite <- !E. apply Ha.
  - intros a b c. unfold cmp_le. rewrite <- !E. apply Ht.
Qed.

(** Comparing by a key, and comparing the other way round. *)
Lemma key_consistent {A K} (kc : K -> K -> comparison) (f : A -> K) :
  consistent kc -> consistent (fun a b => kc (f a) (f b)).
Proof.
  intros [Ha Ht]. split; [intros; apply Ha|].
  unfold cmp_le in *. intros a b c. apply Ht.
Qed.

Lemma flip_consistent {A} (cmp : A -> A -> comparison) :
  consistent cmp -> consistent (fun a b => cmp b a).
Proof.
  intros Hc. split.
  - intros a b. apply (cmp_antisym cmp Hc).
  - unfold cmp_le. intros a b c H1 H2. eapply (cmp_trans cmp Hc); eassumption.
Qed.

Lemma Z_compare_consistent : consistent Z.compare.
Proof.
  split; [intros; apply Z.compare_antisym|].
  unfold cmp_le. intros a b c. rewrite !Z.compare_le_iff. lia.
Qed.

#[export] Hint Resolve key_consistent flip_consistent Z_compare_consistent : catalog.

(** ** Insertion sort *)

Section Isort.
Context {S A : Type} (c : A -> A -> St S comparison).

(** [x] goes before the first element it is not greater than. *)
Fixpoint insertM (x : A) (l : list A) : St S (list A) :=
  match l with
  | [] => ret [x]
  | y :: ys =>
      o <- c x y ;;
      match o with
      | Gt => r <- insertM x ys ;; ret (y :: r)
      | _ => ret (x :: y :: ys)
      end
  end.

Fixpoint isortM (l : list A) : St S (list A) :=
  match l with
  | [] => ret []
  | x :: xs => r <- isortM xs ;; insertM x r
  end.

Lemma insertM_perm x l s : Permutation (x :: l) (fst (insertM x l s)).
Proof.
  revert s; induction l as [|y ys IH]; intros s; simpl; [reflexivity|].
  unfold st_bind. destruct (c x y s) as [[] s']; simpl; try reflexivity.
  specialize (IH s'). destruct (insertM x ys s') as [r s'']. simpl in *.
  rewrite <- IH. apply perm_swap.
Qed.

Lemma isortM_perm l s : Permutation l (fst (isortM l s)).
Proof.
  revert s; induction l as [|x xs IH]; intros s; simpl; [reflexivity|].
  unfold st_bind. specialize (IH s). destruct (isortM xs s) as [r s']. simpl in *.
  rewrite <- insertM_perm. auto.
Qed.
End Isort.

(** With a comparator that always answers [Gt], insertion sort reverses
    its input; always [Lt], it leaves it as it is. *)
Section IsortConst.
Context {S A : Type} (c : A -> A -> St S comparison).

Lemma insertM_const x l s o :
  (forall a b s, fst (c a b s) = o) -> o <> Eq ->
  fst (insertM c x l s) = match o with Gt => l ++ [x] | _ => x :: l end.
Proof.
  intros Hc Ho. revert s; induction l as [|y ys IH]; intros s; simpl; [destruct o; reflexivity|].
  unfold st_bind. destruct (c x y s) as [o' s'] eqn:E.
  assert (o' = o) as -> by (rewrite <- (Hc x y s), E; reflexivity).
  destruct o; try congruence; simpl; try reflexivity.
  specialize (IH s'). destruct (insertM c x ys s'). simpl in *. rewrite IH. reflexivity.
Qed.

Lemma isortM_always_gt l s :
  (forall a b s, fst (c a b s) = Gt) -> fst (isortM c l s) = rev l.
Proof.
  intros Hc. revert s; induction l as [|x xs IH]; intros s; simpl; [reflexivity|].
  unfold st_bind. specialize (IH s). destruct (isortM c xs s) as [r s']. simpl in IH.
  rewrite (insertM_const x r s' Gt Hc) by discriminate. rewrite IH. reflexivity.
Qed.

Lemma isortM_always_lt l s :
  (forall a b s, fst (c a b s) = Lt) -> fst (isortM c l s) = l.
Proof.
  intros Hc. revert s; induction l as [|x xs IH]; intros s; simpl; [reflexivity|].
  unfold st_bind. specialize (IH s). destruct (isortM c xs s) as [r s']. simpl in IH.
  rewrite (insertM_const x r s' Lt Hc) by discriminate. rewrite IH. reflexivity.
Qed.
End IsortConst.

Section IsortPure.
Context {A : Type} (cmp : A -> A -> comparison).

Fixpoint insert (x : A) (l : list A) : list A :=
  match l with
  | [] => [x]
  | y :: ys => match cmp x y with Gt => y :: insert x ys | _ => x :: y :: ys end
  end.

Fixpoint isort (l : list A) : list A :=
  match l with
  | [] => []
  | x :: xs => insert x (isort xs)
  end.

Lemma insertM_pure {S} x l (s : S) : insertM (pure_cmp cmp) x l s = (insert x l, s).
Proof.
  induction l as [|y ys IH]; simpl; [reflexivity|].
  unfold pure_cmp at 1. rewrite st_bind_ret. destruct (cmp x y); try reflexivity.
  rewrite (st_bind_eq _ _ _ _ _ IH). reflexivity.
Qed.

Lemma isortM_pure {S} l (s : S) : isortM (pure_cmp cmp) l s = (isort l, s).
Proof.
  induction l as [|x xs IH]; simpl; [reflexivity|].
  rewrite (st_bind_eq _ _ _ _ _ IH). apply insertM_pure.
Qed.

Context (Hc : consistent cmp).

Lemma insert_sorted x l : Sorted (cmp_le cmp) l -> Sorted (cmp_le cmp) (insert x l).
Proof.
  induction 1 as [|y ys Hs IH Hd]; simpl; [repeat constructor|].
  destruct (cmp x y) eqn:E.
  - constructor; [constructor; assumption|constructor; unfold cmp_le; congruence].
  - constructor; [constructor; assumption|constructor; unfold cmp_le; congruence].
  - constructor; [assumption|].
    destruct ys as [|z zs]; simpl.
    + constructor. apply cmp_gt_le; assumption.
    + inversion Hd; subst. destruct (cmp x z); constructor;
        auto using cmp_gt_le.
Qed.

Lemma isort_sorted l : Sorted (cmp_le cmp) (isort l).
Proof. induction l; simpl; auto using insert_sorted. Qed.

(** Insertion keeps the relative order inside every class of level
    elements: [x] lands before the level elements, which came after it. *)
Lemma insert_stable x0 x l :
  filter (eq_class cmp x0) (insert x l) = filter (eq_class cmp x0) (x :: l).
Proof.
  induction l as [|y ys IH]; simpl; [reflexivity|].
  destruct (cmp x y) eqn:E; try reflexivity.
  simpl. rewrite IH. simpl.
  destruct (eq_class cmp x0 x) eqn:Ex, (eq_class cmp x0 y) eqn:Ey; try reflexivity.
  rewrite (eq_class_trans cmp Hc x0 x y Ex Ey) in E. discriminate.
Qed.

Lemma isort_stable x0 l : filter (eq_class cmp x0) (isort l) = filter (eq_class cmp x0) l.
Proof.
  induction l as [|x xs IH]; simpl; [reflexivity|].
  rewrite insert_stable. simpl. rewrite IH. reflexivity.
Qed.
End IsortPure.

#[export] Program Instance isort_JsSort : JsSort := {|
  sortM := fun S A c l => isortM c l
|}.
Next Obligation. apply isortM_perm. Qed.
Next Obligation. rewrite isortM_pure. reflexivity. Qed.
Next Obligation. rewrite !isortM_pure. reflexivity. Qed.
Next Obligation. rewrite isortM_pure. apply isort_sorted; assumption. Qed.
Next Obligation. rewrite isortM_pure. apply isort_stable; assumption. Qed.

(** ** Every stable sort computes the same result *)

Section Unique.
Context {A : Type} (cmp : A -> A -> comparison) (Hc : consistent cmp).

Lemma filter_eq_class_In x l1 l2 :
  In x l1 -> filter (eq_class cmp x) l1 = filter (eq_class cmp x) l2 -> In x l2.
Proof.
  intros Hin F. assert (H : In x (filter (eq_class cmp x) l1))
    by (apply filter_In; split; [assumption|apply eq_class_self; exact Hc]).
  rewrite F in H. apply filter_In in H. apply H.
Qed.

Lemma cmp_le_head x y r :
  Sorted (cmp_le cmp) (y :: r) -> In x (y :: r) -> cmp_le cmp y x.
Proof.
  intros Hs [<-|Hin]; [apply cmp_le_refl; exact Hc|].
  eapply Sorted_head_all; [exact (cmp_trans cmp Hc)|eassumption|assumption].
Qed.

(** Two sorted lists with the same elements in every class of level
    elements, in the same order, are equal. *)
Lemma sorted_stable_unique l1 l2 :
  Sorted (cmp_le cmp) l1 -> Sorted (cmp_le cmp) l2 ->
  (forall x, filter (eq_class cmp x) l1 = filter (eq_class cmp x) l2) -> l1 = l2.
Proof.
  revert l2; induction l1 as [|x r1 IH]; intros [|y r2] S1 S2 F; [reflexivity| | |].
  - specialize (F y). simpl in F. rewrite (eq_class_self cmp Hc) in F. discriminate.
  - specialize (F x). simpl in F. rewrite (eq_class_self cmp Hc) in F. discriminate.
  - assert (Hxy : cmp x y = Eq).
    { apply (cmp_eq_of_le cmp Hc).
      - apply (cmp_le_head y x r1 S1).
        apply (filter_eq_class_In y (y :: r2)); [left; reflexivity|symmetry; apply F].
      - apply (cmp_le_head x y r2 S2).
        apply (filter_eq_class_In x (x :: r1)); [left; reflexivity|apply F]. }
    pose proof (F x) as Fx. simpl in Fx.
    rewrite (eq_class_self cmp Hc) in Fx.
    unfold eq_class at 2 in Fx. rewrite (cmp_antisym cmp Hc x y), Hxy in Fx. simpl in Fx.
    injection Fx as <- _. f_equal.
    apply IH; [eapply Sorted_inv; eassumption|eapply Sorted_inv; eassumption|].
    intros z. specialize (F z). simpl in F.
    destruct (eq_class cmp z x); [injection F as F|]; exact F.
Qed.
End Unique.

(** [js_sort_unique]: whatever algorithm implements [Array.prototype.sort],
    on a consistent comparator it returns the insertion sort's result. *)
Theorem js_sort_unique `{JsSort} {A} (cmp : A -> A -> comparison) (l : list A) :
  consistent cmp -> js_sort cmp l = isort cmp l.
Proof.
  intros Hc. apply (sorted_stable_unique cmp Hc).
  - apply sortM_sorted; exact Hc.
  - apply isort_sorted; exact Hc.
  - intros x. unfold js_sort. rewrite sortM_stable, isort_stable by exact Hc. reflexivity.
Qed.

(** Sorting a list that is already sorted leaves it as it is. *)
Lemma js_sort_sorted_id `{JsSort} {A} (cmp : A -> A -> comparison) (l : list A) :
  consistent cmp -> Sorted (cmp_le cmp) l -> js_sort cmp l = l.
Proof.
  intros Hc Hs. apply (sorted_stable_unique cmp Hc); [apply sortM_sorted; exact Hc|exact Hs|].
  intros x. apply sortM_stable. exact Hc.
Qed.

(** ** [Array.prototype.slice] *)

(** A relative index as [slice] reads it: a negative one counts from the
    end, and both are clamped to [0, len]. *)
Definition rel_index (k len : Z) : Z :=
  if (k <? 0)%Z then Z.max (len + k) 0 else Z.min k len.

Definition js_slice {A} (l : list A) (start end_ : Z) : list A :=
  let len := Z.of_nat (length l) in
  let from := rel_index start len in
  let to := rel_index end_ len in
  firstn (Z.to_nat (to - from)) (skipn (Z.to_nat from) l).

(** From a non-negative index, [slice] is [skipn] then [firstn]. *)
Lemma js_slice_nonneg {A} (l : list A) (start k : Z) :
  (0 <= start)%Z -> (0 <= k)%Z ->
  js_slice l start (start + k) = firstn (Z.to_nat k) (skipn (Z.to_nat start) l).
Proof.
  intros H0 Hk. unfold js_slice, rel_index.
  destruct (Z.ltb_spec start 0); [lia|]. destruct (Z.ltb_spec (start + k) 0); [lia|].
  destruct (Z.le_ge_cases start (Z.of_nat (length l))) as [Hle|Hge].
  - rewrite (Z.min_l start) by lia.
    rewrite (firstn_min_length (Z.to_nat k)), (firstn_min_length (Z.to_nat (_ - _))).
    rewrite length_skipn. f_equal. lia.
  - rewrite (Z.min_r start) by lia. rewrite !skipn_all2 by lia.
    rewrite !firstn_nil. reflexivity.
Qed.

(** ** [Set] of strings *)

(** [Set.prototype.add]: a value already in the set is not added again;
    [Array.from] lists the values in insertion order. *)
Definition set_add (s : list jsstr) (x : jsstr) : list jsstr :=
  if arr_includes s x then s else s ++ [x].

Lemma set_add_In s x y : In y (set_add s x) <-> y = x \/ In y s.
Proof.
  unfold set_add. destruct (arr_includes s x) eqn:E.
  - apply arr_includes_In in E. split; [auto|intros [->|]; auto].
  - rewrite in_app_iff. simpl. intuition.
Qed.

Lemma set_add_NoDup s x : NoDup s -> NoDup (set_add s x).
Proof.
  unfold set_add. destruct (arr_includes s x) eqn:E; [auto|].
  intros Hs. apply NoDup_app; auto using NoDup_cons, NoDup_nil.
  - intros y Hy [<-|[]]. apply arr_includes_In in Hy. congruence.
Qed.

Lemma fold_set_add_NoDup vs s : NoDup s -> NoDup (fold_left set_add vs s).
Proof. revert s; induction vs; simpl; auto using set_add_NoDup. Qed.

Lemma fold_set_add_In vs s v : In v (fold_left set_add vs s) <-> In v s \/ In v vs.
Proof.
  revert s; induction vs as [|x vs IH]; intros s; simpl; [tauto|].
  rewrite IH, set_add_In. intuition.
Qed.

(** A duplicate-free list sorted by the default order is strictly
    ascending. *)
Lemma sorted_NoDup_strict l :
  Sorted (cmp_le str_compare) l -> NoDup l -> StronglySorted (fun a b => str_compare a b = Lt) l.
Proof.
  intros Hs Hn. apply Sorted_StronglySorted in Hs; [|exact (cmp_trans _ str_compare_consistent)].
  induction Hs as [|a l Hs IH Hall]; constructor.
  - apply IH. inversion Hn; assumption.
  - inversion Hn as [|? ? Hnin _]; subst. rewrite Forall_forall in *. intros b Hb.
    specialize (Hall b Hb). unfold cmp_le in Hall.
    destruct (str_compare a b) eqn:E; try congruence.
    apply str_compare_eq in E; subst; contradiction.
Qed.
