(* ===== verification/JsNumber.v ===== *)
(** * JavaScript numbers: [parseFloat] and the values it returns

    The price fields are read with [parseFloat(priceMin.value)] and
    [parseFloat(priceMax.value)] (lines 312-313).  [parseFloat] skips the
    leading white space, then reads the longest prefix that is a
    [StrDecimalLiteral] of ECMAScript (an optional sign, then [Infinity]
    or digits with an optional fraction and exponent) and returns its
    value, or NaN when there is none.  A [jsnum] is that result: a finite
    number (an exact rational), an infinity or NaN; [num_or] is [||] and
    [num_lt], [num_gt] the comparisons the filter makes with a price.

    The value of a literal is kept exact; JavaScript rounds it to the
    nearest double, and to an infinity above about [1.8e308].  The two
    agree on every comparison with a price of the catalog (decimals of a
    few digits) unless the literal has more than fifteen significant
    digits.  [-0] is read as [0]: both are falsy, so [|| 0] maps them to
    the same bound. *)

From Stdlib Require Import String.
From Stdlib Require Import List Bool Arith ZArith NArith QArith Qpower Lia.
From S2P Require Import Prelude JsString.
Import ListNotations.

(** ** JavaScript numbers as the price filter sees them *)

Inductive jsnum : Set :=
| JFin (q : Q)
| JPosInf
| JNegInf
| JNaN.

(** [0], [-0] and [NaN] are falsy. *)
Definition num_truthy (v : jsnum) : bool :=
  match v with
  | JFin q => negb (Qeq_bool q 0)
  | JNaN => false
  | _ => true
  end.

(** [v || d]. *)
Definition num_or (v d : jsnum) : jsnum := if num_truthy v then v else d.

(** [x < v] and [x > v] for a finite [x]; every comparison with NaN is
    false. *)
Definition num_lt (x : Q) (v : jsnum) : bool :=
  match v with
  | JFin q => negb (Qle_bool q x)
  | JPosInf => true
  | _ => false
  end.

Definition num_gt (x : Q) (v : jsnum) : bool :=
  match v with
  | JFin q => negb (Qle_bool x q)
  | JNegInf => true
  | _ => false
  end.

(** ** Decimal digits *)

(** The value of a string of decimal digits. *)
Definition digits_val (s : jsstr) : N := fold_left (fun acc c => acc * 10 + (c - 48))%N s 0%N.

Definition is_digit (c : N) : bool := (48 <=? c)%N && (c <=? 57)%N.

(** [span_digits s] splits off the longest prefix of decimal digits. *)
Fixpoint span_digits (s : jsstr) : jsstr * jsstr :=
  match s with
  | [] => ([], [])
  | c :: s' => if is_digit c then let '(a, b) := span_digits s' in (c :: a, b) else ([], s)
  end.

(** ** [parseFloat] *)

(** The exponent of an optional [ExponentPart] at the start of [s]: [e] or
    [E], an optional sign and at least one digit; without digits the [e]
    is not part of the literal and the exponent is [0]. *)
Definition exponent_part (s : jsstr) : Z :=
  match s with
  | c :: r =>
      if (c =? 101)%N || (c =? 69)%N then
        let '(sg, r') := match r with
                         | 43%N :: r' => (1%Z, r')
                         | 45%N :: r' => ((-1)%Z, r')
                         | _ => (1%Z, r)
                         end in
        match fst (span_digits r') with
        | [] => 0%Z
        | d => (sg * Z.of_N (digits_val d))%Z
        end
      else 0%Z
  | [] => 0%Z
  end.

(** The value of the longest [StrUnsignedDecimalLiteral] other than
    [Infinity] at the start of [s]: digits, an optional point and digits,
    an optional exponent; at least one digit before or after the point. *)
Definition unsigned_decimal (s : jsstr) : option Q :=
  let '(ip, r1) := span_digits s in
  let '(fp, r2) := match r1 with
                   | 46%N :: r => span_digits r
                   | _ => ([], r1)
                   end in
  match ip ++ fp with
  | [] => None
  | ds => Some (inject_Z (Z.of_N (digits_val ds)) * Qpower 10 (exponent_part r2 - Z.of_nat (length fp)))
  end.

(** [parseFloat(s)]. *)
Definition parseFloat (s : jsstr) : jsnum :=
  let t := trim_start s in
  let '(neg, r) := match t with
                   | 45%N :: r => (true, r)
                   | 43%N :: r => (false, r)
                   | _ => (false, t)
                   end in
  if starts_with (ustr "Infinity") r then (if neg then JNegInf else JPosInf)
  else match unsigned_decimal r with
       | Some q => JFin (if neg then - q else q)
       | None => JNaN
       end.

(** ** Lemmas on digits *)

Lemma digits_val_acc s acc :
  fold_left (fun acc c => acc * 10 + (c - 48))%N s acc = (acc * 10 ^ N.of_nat (length s) + digits_val s)%N.
Proof.
  revert acc; induction s as [|c s IH]; intros acc; [unfold digits_val; simpl; lia|].
  unfold digits_val; cbn [fold_left length]. rewrite (IH (acc * 10 + _)%N), (IH (0 * 10 + _)%N).
  rewrite Nat2N.inj_succ, N.pow_succ_r'. lia.
Qed.

Lemma digits_val_app a b :
  digits_val (a ++ b) = (digits_val a * 10 ^ N.of_nat (length b) + digits_val b)%N.
Proof. unfold digits_val at 1. rewrite fold_left_app. apply digits_val_acc. Qed.

Lemma digits_val_zeros k s : digits_val (repeat 48%N k ++ s) = digits_val s.
Proof.
  rewrite digits_val_app. replace (digits_val (repeat 48%N k)) with 0%N; [lia|].
  induction k as [|k IH]; [reflexivity|]. unfold digits_val in *. simpl repeat.
  cbn [fold_left]. rewrite digits_val_acc. unfold digits_val. rewrite <- IH. lia.
Qed.


Lemma digit_cases c :
  is_digit c = true ->
  (c = 48 \/ c = 49 \/ c = 50 \/ c = 51 \/ c = 52 \/ c = 53 \/ c = 54 \/ c = 55 \/ c = 56 \/ c = 57)%N.
Proof. unfold is_digit. intros H. apply andb_true_iff in H as [H1 H2]. apply N.leb_le in H1, H2. lia. Qed.

(** A code unit [r] may start with after a number: not a digit and not
    the [e] or [E] of an exponent. *)
Definition ends_number (r : jsstr) : bool :=
  match r with
  | [] => true
  | c :: _ => negb (is_digit c) && negb (c =? 101)%N && negb (c =? 69)%N
  end.

Lemma span_digits_app a r :
  Forall (fun c => is_digit c = true) a ->
  match r with [] => True | c :: _ => is_digit c = false end ->
  span_digits (a ++ r) = (a, r).
Proof.
  induction 1 as [|c a Hc Ha IH]; intros Hr.
  - destruct r as [|c r]; cbn [app span_digits]; [reflexivity|]. rewrite Hr. reflexivity.
  - cbn [app span_digits]. rewrite Hc, (IH Hr). reflexivity.
Qed.

Lemma ends_number_not_digit r :
  ends_number r = true -> match r with [] => True | c :: _ => is_digit c = false end.
Proof.
  destruct r as [|c r]; [trivial|]. cbn. intros H.
  destruct (is_digit c); [discriminate|reflexivity].
Qed.

Lemma exponent_part_none r : ends_number r = true -> exponent_part r = 0%Z.
Proof.
  destruct r as [|c r]; [reflexivity|]. cbn [ends_number exponent_part].
  intros H. apply andb_true_iff in H as [H H3]. apply andb_true_iff in H as [_ H2].
  destruct (c =? 101)%N, (c =? 69)%N; try discriminate. reflexivity.
Qed.

(** A text that starts with a digit has no white space to skip, no sign
    and is not [Infinity]. *)
Lemma parseFloat_digit c s :
  is_digit c = true ->
  parseFloat (c :: s) = match unsigned_decimal (c :: s) with Some q => JFin q | None => JNaN end.
Proof. intros H. apply digit_cases in H. repeat destruct H as [->|H]; subst; reflexivity. Qed.

Lemma Qpower_10_neg (n : nat) :
  Qpower 10 (0 - Z.of_nat n) == / inject_Z (10 ^ Z.of_nat n).
Proof. rewrite Z.sub_0_l, Qpower_opp, Zpower_Qpower by lia. reflexivity. Qed.

Lemma trim_start_all_ws s : Forall (fun c => is_ws c = true) s -> trim_start s = [].
Proof. induction 1 as [|c s Hc _ IH]; [reflexivity|]. cbn [trim_start]. rewrite Hc. exact IH. Qed.

Lemma digits_val_bound s :
  Forall (fun c => is_digit c = true) s -> (digits_val s < 10 ^ N.of_nat (length s))%N.
Proof.
  induction 1 as [|c s Hc _ IH]; [reflexivity|].
  rewrite <- (app_nil_l s), app_comm_cons, digits_val_app. cbn [app length].
  apply andb_true_iff in Hc as [_ Hc]. apply N.leb_le in Hc.
  assert (Hd : (digits_val [c] <= 9)%N) by (unfold digits_val; cbn [fold_left]; lia).
  rewrite Nat2N.inj_succ, N.pow_succ_r'. nia.
Qed.

(** [parseFloat] stops at a comma: "99,90" is read as 99. *)
Lemma parseFloat_comma a b :
  a <> [] -> Forall (fun c => is_digit c = true) a ->
  exists q, parseFloat (a ++ [44%N] ++ b) = JFin q /\ q == inject_Z (Z.of_N (digits_val a)).
Proof.
  intros Hne Ha. destruct a as [|c a]; [contradiction|].
  pose proof (Forall_inv Ha) as Hc. rewrite <- app_comm_cons, parseFloat_digit by exact Hc.
  unfold unsigned_decimal. rewrite app_comm_cons, span_digits_app by (exact Ha || reflexivity).
  cbn [app]. eexists. split; [reflexivity|]. rewrite app_nil_r. apply Qmult_1_r.
Qed.

(** *** Properties *)

(** C24: a price typed as digits, a point and digits, possibly followed by
    text that cannot continue a number (a space, a letter other than [e],
    a comma), is read by [parseFloat] as the decimal it writes. *)
Theorem parseFloat_decimal ip fp r :
  ip <> [] -> Forall (fun c => is_digit c = true) ip -> Forall (fun c => is_digit c = true) fp ->
  ends_number r = true ->
  exists q, parseFloat (ip ++ [46%N] ++ fp ++ r) = JFin q
    /\ q == inject_Z (Z.of_N (digits_val (ip ++ fp))) / inject_Z (10 ^ Z.of_nat (length fp)).
Proof.
  intros Hne Hip Hfp Hr. destruct ip as [|c ip]; [contradiction|].
  pose proof (Forall_inv Hip) as Hc. rewrite <- app_comm_cons, parseFloat_digit by exact Hc.
  unfold unsigned_decimal. rewrite app_comm_cons, span_digits_app by (exact Hip || reflexivity).
  cbn [app]. rewrite span_digits_app by (exact Hfp || apply ends_number_not_digit, Hr).
  rewrite exponent_part_none by exact Hr.
  eexists. split; [reflexivity|]. rewrite Qpower_10_neg. reflexivity.
Qed.

(** C25: an empty or blank price field reads as NaN, so [|| 0] and
    [|| Infinity] give the bounds [0] and [Infinity]: no bound. *)
Theorem blank_price_fields s :
  Forall (fun c => is_ws c = true) s ->
  parseFloat s = JNaN /\ num_or (parseFloat s) (JFin 0) = JFin 0
  /\ num_or (parseFloat s) JPosInf = JPosInf.
Proof. intros H. unfold parseFloat. rewrite trim_start_all_ws by exact H. repeat split. Qed.

(** ** Witnesses *)

Lemma parseFloat_decimal_witness :
  ustr "95" <> [] /\ Forall (fun c => is_digit c = true) (ustr "95")
  /\ Forall (fun c => is_digit c = true) (ustr "90") /\ ends_number (ustr " reais") = true
  /\ exists q, parseFloat (ustr "95" ++ [46%N] ++ ustr "90" ++ ustr " reais") = JFin q
    /\ q == inject_Z (Z.of_N (digits_val (ustr "95" ++ ustr "90")))
             / inject_Z (10 ^ Z.of_nat (length (ustr "90"))).
Proof.
  split; [discriminate|]. split; [repeat constructor|]. split; [repeat constructor|].
  split; [reflexivity|]. apply parseFloat_decimal; [discriminate|repeat constructor..|reflexivity].
Defined.

Lemma blank_price_fields_witness :
  Forall (fun c => is_ws c = true) (ustr "  ")
  /\ parseFloat (ustr "  ") = JNaN /\ num_or (parseFloat (ustr "  ")) (JFin 0) = JFin 0
  /\ num_or (parseFloat (ustr "  ")) JPosInf = JPosInf.
Proof. split; [repeat constructor|]. apply blank_price_fields. repeat constructor. Defined.
