(* ===== verification/ParseFloatSpec.v ===== *)
(** * [parseFloat] refines the ECMAScript specification of [parseFloat]

    ECMAScript defines [parseFloat(string)] declaratively: skip the
    leading white space; if no prefix of the rest is a [StrDecimalLiteral]
    return NaN; otherwise return the value of the longest such prefix.
    This file states that contract as [parseFloat_spec], over the grammar
    of [StrDecimalLiteral] written as inductive predicates
    ([sign_lit], [exponent_lit], [mantissa_lit], [unsigned_lit],
    [decimal_lit]) with the mathematical value [mv] of a literal, and
    proves that the scanner [JsNumber.parseFloat] the price filter uses
    meets it ([parseFloat_refines]) and that the contract allows no other
    result ([parseFloat_spec_iff]).

    The proof works layer by layer, as the scanner does: [span_digits] takes
    the longest run of digits ([span_digits_max]); [exponent_part] the
    longest exponent ([exponent_scan]); [unsigned_decimal] the longest
    unsigned literal ([unsigned_scan]); the sign and [Infinity] are read
    from the first code units. *)

From Stdlib Require Import String.
From Stdlib Require Import List Bool Arith ZArith NArith QArith Lia.
From S2P Require Import Prelude JsString JsNumber.
Import ListNotations.

(** ** The grammar of [StrDecimalLiteral] and its value *)

Definition all_digits (d : jsstr) : Prop := Forall (fun c => is_digit c = true) d.

(** The value of the digits [d], the fraction digits [f] and the
    exponent [x]: [d.f × 10^x]. *)
Definition mv (d f : jsstr) (x : Z) : Q :=
  inject_Z (Z.of_N (digits_val (d ++ f))) * Qpower 10 (x - Z.of_nat (length f)).

Inductive sign_lit : jsstr -> Z -> Prop :=
| SL_none : sign_lit [] 1
| SL_plus : sign_lit [43%N] 1
| SL_minus : sign_lit [45%N] (-1).

(** [ExponentPart], or nothing. *)
Inductive exponent_lit : jsstr -> Z -> Prop :=
| EL_none : exponent_lit [] 0
| EL_some c sg k d :
    (c = 101 \/ c = 69)%N -> sign_lit sg k -> d <> [] -> all_digits d ->
    exponent_lit (c :: sg ++ d) (k * Z.of_N (digits_val d)).

(** The digits of a literal: [DecimalDigits], [DecimalDigits .
    DecimalDigits?] or [. DecimalDigits]; the integer and fraction
    digits. *)
Inductive mantissa_lit : jsstr -> jsstr -> jsstr -> Prop :=
| ML_int d : d <> [] -> all_digits d -> mantissa_lit d d []
| ML_point d f : d <> [] -> all_digits d -> all_digits f -> mantissa_lit (d ++ 46%N :: f) d f
| ML_frac f : f <> [] -> all_digits f -> mantissa_lit (46%N :: f) [] f.

(** [StrUnsignedDecimalLiteral]. *)
Inductive unsigned_lit : jsstr -> jsnum -> Prop :=
| UL_inf : unsigned_lit (ustr "Infinity") JPosInf
| UL_dec m d f e x : mantissa_lit m d f -> exponent_lit e x -> unsigned_lit (m ++ e) (JFin (mv d f x)).

Definition num_neg (v : jsnum) : jsnum :=
  match v with
  | JFin q => JFin (- q)
  | JPosInf => JNegInf
  | JNegInf => JPosInf
  | JNaN => JNaN
  end.

(** [StrDecimalLiteral]. *)
Inductive decimal_lit : jsstr -> jsnum -> Prop :=
| DL_unsigned u v : unsigned_lit u v -> decimal_lit u v
| DL_plus u v : unsigned_lit u v -> decimal_lit (43%N :: u) v
| DL_minus u v : unsigned_lit u v -> decimal_lit (45%N :: u) (num_neg v).

(** [p] is the longest prefix of [t] that is a [StrDecimalLiteral], and
    [v] its value. *)
Definition longest_literal (t p : jsstr) (v : jsnum) : Prop :=
  (exists r, t = p ++ r) /\ decimal_lit p v
  /\ forall p' r' v', t = p' ++ r' -> decimal_lit p' v' -> (length p' <= length p)%nat.

(** The contract of [parseFloat(s)] returning [v]. *)
Definition parseFloat_spec (s : jsstr) (v : jsnum) : Prop :=
  (exists p, longest_literal (trim_start s) p v)
  \/ (v = JNaN /\ forall p r v', trim_start s = p ++ r -> ~ decimal_lit p v').

(** ** The scanner's tests on single code units *)

Definition sign_split (t : jsstr) : bool * jsstr :=
  match t with
  | c :: r => if (c =? 45)%N then (true, r) else if (c =? 43)%N then (false, r) else (false, t)
  | [] => (false, [])
  end.

Definition exp_sign_split (r : jsstr) : Z * jsstr :=
  match r with
  | c :: r' => if (c =? 43)%N then (1%Z, r') else if (c =? 45)%N then ((-1)%Z, r') else (1%Z, r)
  | [] => (1%Z, [])
  end.

Definition dot_split (r : jsstr) : jsstr * jsstr :=
  match r with
  | c :: r' => if (c =? 46)%N then span_digits r' else ([], r)
  | [] => ([], [])
  end.

(** What may follow a run of digits: nothing or a code unit that is not
    a digit. *)
Definition stops (b : jsstr) : Prop :=
  match b with [] => True | c :: _ => is_digit c = false end.

(** Reduces a match of the scanner on a code unit [c] that is none of
    the literals the match tests, given hypotheses [c <> n]. *)
Ltac other_unit c :=
  let p := fresh "p" in
  destruct c as [|p]; [reflexivity|];
  repeat (destruct p as [p|p|]; try reflexivity); exfalso; auto.

(** ** The scanner as [N.eqb] tests *)

Lemma sign_split_eq t :
  match t with
  | 45%N :: r => (true, r)
  | 43%N :: r => (false, r)
  | _ => (false, t)
  end = sign_split t.
Proof.
  destruct t as [|c r]; [reflexivity|]. unfold sign_split.
  destruct (N.eqb_spec c 45) as [->|H1]; [reflexivity|].
  destruct (N.eqb_spec c 43) as [->|H2]; [reflexivity|]. other_unit c.
Qed.

Lemma exp_sign_split_eq r :
  match r with
  | 43%N :: r' => (1%Z, r')
  | 45%N :: r' => ((-1)%Z, r')
  | _ => (1%Z, r)
  end = exp_sign_split r.
Proof.
  destruct r as [|c r]; [reflexivity|]. unfold exp_sign_split.
  destruct (N.eqb_spec c 43) as [->|H1]; [reflexivity|].
  destruct (N.eqb_spec c 45) as [->|H2]; [reflexivity|]. other_unit c.
Qed.

Lemma dot_split_eq r :
  match r with
  | 46%N :: r' => span_digits r'
  | _ => ([], r)
  end = dot_split r.
Proof.
  destruct r as [|c r]; [reflexivity|]. unfold dot_split.
  destruct (N.eqb_spec c 46) as [->|H1]; [reflexivity|]. other_unit c.
Qed.

Lemma parseFloat_eq s :
  parseFloat s =
  let '(neg, r) := sign_split (trim_start s) in
  if starts_with (ustr "Infinity") r then (if neg then JNegInf else JPosInf)
  else match unsigned_decimal r with
       | Some q => JFin (if neg then - q else q)
       | None => JNaN
       end.
Proof. unfold parseFloat. rewrite sign_split_eq. reflexivity. Qed.

Lemma unsigned_decimal_eq s :
  unsigned_decimal s =
  let '(ip, r1) := span_digits s in
  let '(fp, r2) := dot_split r1 in
  match ip ++ fp with
  | [] => None
  | _ => Some (mv ip fp (exponent_part r2))
  end.
Proof.
  unfold unsigned_decimal. destruct (span_digits s) as [ip r1].
  rewrite dot_split_eq. destruct (dot_split r1) as [fp r2].
  destruct (ip ++ fp) eqn:E; [reflexivity|]. unfold mv. rewrite E. reflexivity.
Qed.

Lemma exponent_part_eq s :
  exponent_part s =
  match s with
  | c :: r =>
      if (c =? 101)%N || (c =? 69)%N then
        let '(sg, r') := exp_sign_split r in
        match fst (span_digits r') with
        | [] => 0%Z
        | d => (sg * Z.of_N (digits_val d))%Z
        end
      else 0%Z
  | [] => 0%Z
  end.
Proof. destruct s as [|c r]; [reflexivity|]. unfold exponent_part. rewrite exp_sign_split_eq. reflexivity. Qed.

(** ** Runs of digits *)

Lemma span_digits_spec s :
  s = fst (span_digits s) ++ snd (span_digits s) /\ all_digits (fst (span_digits s))
  /\ stops (snd (span_digits s)).
Proof.
  induction s as [|c s IH]; [repeat constructor|]. cbn [span_digits].
  destruct (is_digit c) eqn:Hc.
  - destruct (span_digits s) as [a b]. cbn [fst snd] in *. destruct IH as (E & Ha & Hb).
    split; [rewrite E at 1; reflexivity|]. split; [constructor; assumption|exact Hb].
  - split; [reflexivity|]. split; [constructor|exact Hc].
Qed.

(** [span_digits] takes the longest run: a run [d] of digits at the start
    is all of it, or a digit follows [d]. *)
Lemma span_digits_max d r :
  all_digits d ->
  (span_digits (d ++ r) = (d, r) /\ stops r)
  \/ (exists c r', r = c :: r' /\ is_digit c = true /\ (length d < length (fst (span_digits (d ++ r))))%nat).
Proof.
  induction 1 as [|c d Hc Hd IH].
  - destruct r as [|c r]; [left; split; [reflexivity|exact I]|]. cbn [app span_digits].
    destruct (is_digit c) eqn:Hc.
    + right. exists c, r. split; [reflexivity|]. split; [exact Hc|].
      destruct (span_digits r). cbn. lia.
    + left. split; [reflexivity|exact Hc].
  - cbn [app span_digits]. rewrite Hc. destruct IH as [[E Hs]|(c' & r' & E & Hd' & Hl)].
    + left. rewrite E. split; [reflexivity|exact Hs].
    + right. exists c', r'. split; [exact E|]. split; [exact Hd'|].
      destruct (span_digits (d ++ r)) as [a b]. cbn [fst length] in *. lia.
Qed.

Lemma span_digits_len d r :
  all_digits d -> (length d <= length (fst (span_digits (d ++ r))))%nat.
Proof.
  intros Hd. destruct (span_digits_max d r Hd) as [[E _]|(_ & _ & _ & _ & Hl)]; [rewrite E|]; cbn; lia.
Qed.

Lemma all_digits_head d r c r0 :
  all_digits d -> d <> [] -> d ++ r = c :: r0 -> is_digit c = true.
Proof. intros Hd Hne E. destruct d as [|c' d]; [contradiction|]. injection E as -> _. exact (Forall_inv Hd). Qed.

(** ** The exponent *)

Lemma exponent_lit_head e x r c r0 :
  exponent_lit e x -> e ++ r = c :: r0 -> e = [] \/ (c = 101 \/ c = 69)%N.
Proof. intros He E. destruct He as [|c' sg k d Hc]; [left; reflexivity|]. injection E as -> _. right; exact Hc. Qed.

(** No exponent starts with a digit or a point. *)
Lemma exponent_lit_nil e x r c r0 :
  exponent_lit e x -> e ++ r = c :: r0 -> (is_digit c = true \/ c = 46%N) -> e = [].
Proof.
  intros He E Hc. destruct (exponent_lit_head e x r c r0 He E) as [->|Hce]; [reflexivity|].
  exfalso. destruct Hce as [->| ->]; destruct Hc as [Hc|Hc]; discriminate.
Qed.

Lemma exp_sign_split_spec r :
  exists sg, r = sg ++ snd (exp_sign_split r) /\ sign_lit sg (fst (exp_sign_split r)).
Proof.
  destruct r as [|c r]; [exists []; split; [reflexivity|constructor]|]. unfold exp_sign_split.
  destruct (N.eqb_spec c 43) as [->|H1]; [exists [43%N]; split; [reflexivity|constructor]|].
  destruct (N.eqb_spec c 45) as [->|H2]; [exists [45%N]; split; [reflexivity|constructor]|].
  exists []. split; [reflexivity|constructor].
Qed.

(** The sign of an exponent is read from the code unit after [e]. *)
Lemma exp_sign_split_det r sg k d r' :
  sign_lit sg k -> d <> [] -> all_digits d -> r = sg ++ d ++ r' -> exp_sign_split r = (k, d ++ r').
Proof.
  intros Hs Hne Hd ->. destruct Hs; [|reflexivity|reflexivity].
  destruct d as [|c d]; [contradiction|]. pose proof (Forall_inv Hd) as Hc. cbn [app exp_sign_split].
  apply digit_cases in Hc. repeat destruct Hc as [->|Hc]; subst; reflexivity.
Qed.

(** [exponent_part] reads the longest exponent at the start of [r]. *)
Lemma exponent_scan r :
  exists e r3, r = e ++ r3 /\ exponent_lit e (exponent_part r)
    /\ forall e' r' x', r = e' ++ r' -> exponent_lit e' x' -> (length e' <= length e)%nat.
Proof.
  rewrite exponent_part_eq. destruct r as [|c r0].
  { exists [], []. split; [reflexivity|]. split; [constructor|].
    intros e' r' x' E _. destruct e'; [reflexivity|discriminate]. }
  destruct ((c =? 101)%N || (c =? 69)%N) eqn:Hc.
  2:{ exists [], (c :: r0). split; [reflexivity|]. split; [constructor|].
      intros e' r' x' E He. destruct (exponent_lit_head e' x' r' c r0 He (eq_sym E)) as [->|Hce];
        [reflexivity|]. exfalso. destruct Hce as [->| ->]; discriminate. }
  destruct (exp_sign_split_spec r0) as (sg & Er0 & Hsg).
  destruct (exp_sign_split r0) as [k r1] eqn:Es. cbn [fst snd] in Er0, Hsg.
  destruct (span_digits_spec r1) as (Er1 & Hd & _).
  (* any exponent after [c] has the scanner's sign and a prefix of its digits *)
  assert (Hmax : forall e' r' x', c :: r0 = e' ++ r' -> exponent_lit e' x' -> e' <> [] ->
            (length e' <= S (length sg + length (fst (span_digits r1))))%nat
            /\ fst (span_digits r1) <> []).
  { intros e' r' x' E He Hne. destruct He as [|c' sg' k' d' _ Hs' Hd'ne Hd']; [contradiction|].
    injection E as <- E. rewrite <- !app_assoc in E.
    pose proof (exp_sign_split_det _ _ _ _ _ Hs' Hd'ne Hd' E) as Es'. rewrite Es in Es'.
    injection Es' as <- Er1'. rewrite <- Er1' in E. rewrite E in Er0.
    apply app_inv_tail in Er0. subst sg'.
    pose proof (span_digits_len d' r' Hd') as Hl. rewrite <- Er1' in Hl.
    split; [cbn [length]; rewrite length_app; lia|].
    intros E0. rewrite E0 in Hl. destruct d'; [contradiction|cbn in Hl; lia]. }
  destruct (fst (span_digits r1)) as [|n l] eqn:Ed.
  - exists [], (c :: r0). split; [reflexivity|]. split; [constructor|].
    intros e' r' x' E He. destruct e' as [|c' e']; [reflexivity|]. exfalso.
    apply (proj2 (Hmax _ _ _ E He ltac:(discriminate))). reflexivity.
  - exists (c :: sg ++ n :: l), (snd (span_digits r1)). split.
    { rewrite Er0. rewrite Er1 at 1. cbn. rewrite <- app_assoc. reflexivity. }
    split.
    { constructor; [apply orb_true_iff in Hc; destruct Hc as [Hc|Hc]; apply N.eqb_eq in Hc; auto|
        exact Hsg|discriminate|exact Hd]. }
    intros e' r' x' E He. destruct e' as [|c' e']; [cbn; lia|].
    destruct (Hmax _ _ _ E He ltac:(discriminate)) as [Hmax' _]. cbn [length] in *.
    rewrite length_app. cbn [length]. lia.
Qed.

(** ** The digits and the point *)

Lemma mantissa_head m d f :
  mantissa_lit m d f -> exists c m', m = c :: m' /\ (is_digit c = true \/ c = 46%N).
Proof.
  destruct 1 as [d Hne Hd|d f Hne Hd _|f _ _].
  - destruct d as [|c d]; [contradiction|]. exists c, d. split; [reflexivity|left; exact (Forall_inv Hd)].
  - destruct d as [|c d]; [contradiction|]. eexists c, _. split; [reflexivity|left; exact (Forall_inv Hd)].
  - exists 46%N, f. split; [reflexivity|right; reflexivity].
Qed.

Lemma dot_split_cases r1 :
  (exists rest, r1 = 46%N :: rest /\ dot_split r1 = span_digits rest)
  \/ (dot_split r1 = ([], r1) /\ forall rest, r1 <> 46%N :: rest).
Proof.
  destruct r1 as [|c r]; [right; split; [reflexivity|discriminate]|]. unfold dot_split.
  destruct (N.eqb_spec c 46) as [->|H]; [left; eauto|].
  right. split; [reflexivity|]. intros rest E. injection E as E _. contradiction.
Qed.

(** Digits followed by a point are the whole run. *)
Lemma span_point d r : all_digits d -> span_digits (d ++ 46%N :: r) = (d, 46%N :: r).
Proof.
  intros Hd. destruct (span_digits_max d (46%N :: r) Hd) as [[E _]|(c & r' & E & Hc & _)];
    [exact E|injection E as <- _; discriminate].
Qed.

(** A mantissa ending before the scanner's leaves a digit or a point
    after it. *)
Definition cut_short (m' m r' : jsstr) : Prop :=
  (length m' < length m)%nat /\ exists c r0, r' = c :: r0 /\ (is_digit c = true \/ c = 46%N).

(** [span_digits] and [dot_split] read the longest mantissa at the start
    of [r], or find none when both runs of digits are empty. *)
Lemma mantissa_scan r ip r1 fp r2 :
  span_digits r = (ip, r1) -> dot_split r1 = (fp, r2) ->
  (ip ++ fp = [] -> forall m d f r', r = m ++ r' -> ~ mantissa_lit m d f)
  /\ (ip ++ fp <> [] -> exists m, r = m ++ r2 /\ mantissa_lit m ip fp
       /\ forall m' d' f' r', r = m' ++ r' -> mantissa_lit m' d' f' -> r' = r2 \/ cut_short m' m r').
Proof.
  intros Espan Edot. pose proof (span_digits_spec r) as (Er & Hip & Hst). rewrite Espan in Er, Hip, Hst.
  cbn [fst snd] in Er, Hip, Hst.
  (* a run of digits at the start of [r] is a prefix of [ip] *)
  assert (Hint : forall d' r', r = d' ++ r' -> all_digits d' ->
            (d' = ip /\ r' = r1) \/ ((length d' < length ip)%nat
              /\ exists c r0, r' = c :: r0 /\ is_digit c = true)).
  { intros d' r' E Hd'. rewrite E in Espan. destruct (span_digits_max d' r' Hd') as [[E2 _]|(c & r0 & -> & Hc & Hl)].
    - left. rewrite E2 in Espan. injection Espan as -> ->. split; reflexivity.
    - right. rewrite Espan in Hl. cbn in Hl. split; [exact Hl|eauto]. }
  destruct (dot_split_cases r1) as [(rest & Er1 & Edot')|(Edot' & Hnd)].
  - rewrite Edot in Edot'. pose proof (span_digits_spec rest) as (Erest & Hfp & _).
    rewrite <- Edot' in Erest, Hfp. cbn [fst snd] in Erest, Hfp.
    (* a mantissa with a point has [ip] before it and a prefix of [fp] after it *)
    assert (Hpt : forall d' f' r', r = d' ++ 46%N :: f' ++ r' -> all_digits d' -> all_digits f' ->
              d' = ip /\ ((f' = fp /\ r' = r2) \/ ((length f' < length fp)%nat
                /\ exists c r0, r' = c :: r0 /\ is_digit c = true))).
    { intros d' f' r' E Hd' Hf'. destruct (Hint d' _ E Hd') as [[-> E1]|(_ & c & r0 & E1 & Hc)];
        [|injection E1 as <- _; discriminate].
      split; [reflexivity|]. rewrite Er1 in E1. injection E1 as E1.
      destruct (span_digits_max f' r' Hf') as [[E2 _]|(c & r0 & -> & Hc & Hl)].
      - left. rewrite <- E1, E2 in Edot'. injection Edot' as -> ->. split; reflexivity.
      - right. rewrite E1, <- Edot' in Hl. cbn in Hl. split; [exact Hl|eauto]. }
    split.
    + intros Hnil m d f r' E Hm. apply app_eq_nil in Hnil as [-> ->].
      destruct Hm as [d Hne Hd|d f Hne Hd Hf|f Hne Hf].
      * destruct (Hint d r' E Hd) as [[-> _]|(Hl & _)]; [contradiction|cbn in Hl; lia].
      * rewrite <- app_assoc in E. destruct (Hpt d f r' E Hd Hf) as [-> _]. contradiction.
      * destruct (Hpt [] f r' E (Forall_nil _) Hf) as [_ [[-> _]|(Hl & _)]]; [contradiction|cbn in Hl; lia].
    + intros Hne. exists (ip ++ 46%N :: fp). split; [rewrite Er, Er1, Erest, <- app_assoc; reflexivity|].
      split; [destruct ip; [apply ML_frac; [exact Hne|exact Hfp]|apply ML_point; [discriminate|exact Hip|exact Hfp]]|].
      intros m' d' f' r' E Hm. destruct Hm as [d Hdne Hd|d f Hdne Hd Hf|f Hfne Hf].
      * right. destruct (Hint d r' E Hd) as [[-> ->]|(Hl & c & r0 & -> & Hc)].
        -- split; [rewrite length_app; cbn; lia|]. exists 46%N, rest. split; [exact Er1|right; reflexivity].
        -- split; [rewrite length_app; lia|]. exists c, r0. split; [reflexivity|left; exact Hc].
      * rewrite <- app_assoc in E. destruct (Hpt d f r' E Hd Hf) as [-> [[-> ->]|(Hl & c & r0 & -> & Hc)]]; [left; reflexivity|].
        right. split; [rewrite !length_app; cbn; lia|]. exists c, r0. split; [reflexivity|left; exact Hc].
      * destruct (Hpt [] f r' E (Forall_nil _) Hf) as [<- [[-> ->]|(Hl & c & r0 & -> & Hc)]];
          [left; reflexivity|].
        right. split; [cbn; lia|]. exists c, r0. split; [reflexivity|left; exact Hc].
  - rewrite Edot in Edot'. injection Edot' as -> ->. rewrite app_nil_r.
    (* without a point after [ip], a mantissa is a run of digits *)
    assert (Hnp : forall d' f' r', r = d' ++ 46%N :: f' ++ r' -> all_digits d' -> False).
    { intros d' f' r' E Hd'. destruct (Hint d' _ E Hd') as [[_ E1]|(_ & c & r0 & E1 & Hc)].
      - apply (Hnd (f' ++ r')). symmetry. exact E1.
      - injection E1 as <- _. discriminate. }
    split.
    + intros -> m d f r' E Hm. destruct Hm as [d Hne Hd|d f Hne Hd Hf|f Hne Hf].
      * destruct (Hint d r' E Hd) as [[-> _]|(Hl & _)]; [contradiction|cbn in Hl; lia].
      * rewrite <- app_assoc in E. exact (Hnp d f r' E Hd).
      * exact (Hnp [] f r' E (Forall_nil _)).
    + intros Hne. exists ip. split; [exact Er|]. split; [apply ML_int; assumption|].
      intros m' d' f' r' E Hm. destruct Hm as [d Hdne Hd|d f Hdne Hd Hf|f Hfne Hf].
      * destruct (Hint d r' E Hd) as [[-> ->]|(Hl & c & r0 & -> & Hc)]; [left; reflexivity|].
        right. split; [exact Hl|]. exists c, r0. split; [reflexivity|left; exact Hc].
      * exfalso. rewrite <- app_assoc in E. exact (Hnp d f r' E Hd).
      * exfalso. exact (Hnp [] f r' E (Forall_nil _)).
Qed.

(** ** Unsigned literals *)

(** [unsigned_decimal] reads the longest unsigned literal other than
    [Infinity], or finds that [Infinity] is the only one that can start
    [r]. *)
Lemma unsigned_scan r :
  match unsigned_decimal r with
  | Some q => exists p r', r = p ++ r' /\ unsigned_lit p (JFin q)
       /\ forall p' r'' v', r = p' ++ r'' -> unsigned_lit p' v' -> (length p' <= length p)%nat
  | None => forall p' r'' v', r = p' ++ r'' -> unsigned_lit p' v' -> p' = ustr "Infinity"
  end.
Proof.
  rewrite unsigned_decimal_eq.
  destruct (span_digits r) as [ip r1] eqn:Espan. destruct (dot_split r1) as [fp r2] eqn:Edot.
  destruct (mantissa_scan r ip r1 fp r2 Espan Edot) as [Hnone Hsome].
  destruct (ip ++ fp) eqn:Eipfp.
  - intros p' r'' v' E Hu. destruct Hu as [|m d f e x Hm He]; [reflexivity|]. exfalso.
    rewrite <- app_assoc in E. exact (Hnone eq_refl m d f _ E Hm).
  - destruct (Hsome ltac:(discriminate)) as (m & Er & Hm & Hmax).
    destruct (exponent_scan r2) as (e & r3 & Er2 & He & Hemax).
    exists (m ++ e), r3. split; [rewrite Er, Er2, app_assoc; reflexivity|].
    split; [constructor; assumption|].
    intros p' r'' v' E Hu. destruct Hu as [|m' d' f' e' x' Hm' He'].
    + exfalso. destruct (mantissa_head m ip fp Hm) as (c & m0 & -> & Hc).
      rewrite E in Er. injection Er as <- _. destruct Hc as [Hc|Hc]; discriminate.
    + rewrite <- app_assoc in E. rewrite !length_app.
      destruct (Hmax m' d' f' _ E Hm') as [E2|(Hl & c & r0 & E2 & Hc)].
      * pose proof (Hemax e' r'' x' (eq_sym E2) He'). rewrite Er, <- E2 in E.
        apply app_inv_tail in E. subst m'. lia.
      * rewrite (exponent_lit_nil e' x' r'' c r0 He' E2 Hc). cbn. lia.
Qed.

Lemma unsigned_head u v :
  unsigned_lit u v -> exists c u0, u = c :: u0 /\ (is_digit c = true \/ c = 46%N \/ c = 73%N).
Proof.
  destruct 1 as [|m d f e x Hm _]; [exists 73%N; eexists; split; [reflexivity|auto]|].
  destruct (mantissa_head m d f Hm) as (c & m0 & -> & Hc). exists c, (m0 ++ e).
  split; [reflexivity|]. destruct Hc; auto.
Qed.

(** ** The sign *)

Lemma sign_split_text t :
  exists sg, t = sg ++ snd (sign_split t)
    /\ ((sg = [] /\ fst (sign_split t) = false) \/ (sg = [43%N] /\ fst (sign_split t) = false)
        \/ (sg = [45%N] /\ fst (sign_split t) = true)).
Proof.
  destruct t as [|c r]; [exists []; auto|]. unfold sign_split.
  destruct (N.eqb_spec c 45) as [->|H1]; [exists [45%N]; auto|].
  destruct (N.eqb_spec c 43) as [->|H2]; [exists [43%N]; auto|].
  exists []; auto.
Qed.

(** An unsigned literal has no sign to split off. *)
Lemma sign_split_unsigned u v r :
  unsigned_lit u v -> sign_split (u ++ r) = (false, u ++ r).
Proof.
  intros Hu. destruct (unsigned_head u v Hu) as (c & u0 & -> & Hc). cbn [app].
  destruct Hc as [Hc|[-> | ->]]; [|reflexivity|reflexivity].
  apply digit_cases in Hc. repeat destruct Hc as [->|Hc]; subst; reflexivity.
Qed.

(** A literal at the start of [t] is the sign the scanner splits off
    followed by an unsigned literal at the start of the rest. *)
Lemma decimal_prefix t p' r' v' :
  t = p' ++ r' -> decimal_lit p' v' ->
  exists sg u' v0, t = sg ++ snd (sign_split t) /\ p' = sg ++ u' /\ snd (sign_split t) = u' ++ r'
    /\ unsigned_lit u' v0 /\ v' = (if fst (sign_split t) then num_neg v0 else v0).
Proof.
  intros -> Hd. destruct Hd as [u v Hu|u v Hu|u v Hu].
  - exists [], u, v. rewrite (sign_split_unsigned u v r' Hu). auto.
  - exists [43%N], u, v. auto.
  - exists [45%N], u, v. auto.
Qed.

Lemma sign_lit_decimal sg neg u v :
  ((sg = [] /\ neg = false) \/ (sg = [43%N] /\ neg = false) \/ (sg = [45%N] /\ neg = true)) ->
  unsigned_lit u v -> decimal_lit (sg ++ u) (if neg then num_neg v else v).
Proof. intros [[-> ->]|[[-> ->]|[-> ->]]] Hu; constructor; exact Hu. Qed.

(** ** Refinement *)

(** [parseFloat] meets the contract. *)
Lemma parseFloat_refines s : parseFloat_spec s (parseFloat s).
Proof.
  rewrite parseFloat_eq. unfold parseFloat_spec. generalize (trim_start s) as t. intros t.
  destruct (sign_split_text t) as (sg & Et & Hsg).
  destruct (sign_split t) as [neg r] eqn:Es. cbn [fst snd] in Et, Hsg.
  assert (Hpre : forall p' r' v', t = p' ++ r' -> decimal_lit p' v' ->
            exists u' v0, p' = sg ++ u' /\ r = u' ++ r' /\ unsigned_lit u' v0).
  { intros p' r' v' E Hd. destruct (decimal_prefix t p' r' v' E Hd) as (sg' & u' & v0 & Et' & -> & Er & Hu & _).
    rewrite Es in Et', Er. cbn [snd] in Et', Er. rewrite Et in Et'. apply app_inv_tail in Et'.
    subst sg'. eauto. }
  destruct (starts_with (ustr "Infinity") r) eqn:Hi.
  - left. apply starts_with_spec in Hi as [rest Er]. exists (sg ++ ustr "Infinity").
    split; [exists rest; rewrite Et, Er, app_assoc; reflexivity|].
    split; [exact (sign_lit_decimal sg neg _ _ Hsg UL_inf)|].
    intros p' r' v' E Hd. destruct (Hpre p' r' v' E Hd) as (u' & v0 & -> & Er' & Hu).
    rewrite !length_app. enough ((length u' <= length (ustr "Infinity"))%nat) by lia.
    destruct Hu as [|m d f e x Hm _]; [reflexivity|]. exfalso.
    destruct (mantissa_head m d f Hm) as (c & m0 & -> & Hc). rewrite Er in Er'.
    injection Er' as <- _. destruct Hc; discriminate.
  - destruct (unsigned_decimal r) as [q|] eqn:Eu; pose proof (unsigned_scan r) as Hs; rewrite Eu in Hs.
    + left. destruct Hs as (p & r' & Er & Hu & Hmax). exists (sg ++ p).
      split; [exists r'; rewrite Et, Er, app_assoc; reflexivity|].
      replace (JFin (if neg then - q else q)) with (if neg then num_neg (JFin q) else JFin q)
        by (destruct neg; reflexivity).
      split; [exact (sign_lit_decimal sg neg _ _ Hsg Hu)|].
      intros p' r'' v' E Hd. destruct (Hpre p' r'' v' E Hd) as (u' & v0 & -> & Er' & Hu').
      rewrite !length_app. pose proof (Hmax u' r'' v0 Er' Hu'). lia.
    + right. split; [reflexivity|]. intros p' r' v' E Hd.
      destruct (Hpre p' r' v' E Hd) as (u' & v0 & -> & Er' & Hu').
      rewrite (Hs u' r' v0 Er' Hu') in Er'.
      assert (starts_with (ustr "Infinity") r = true) by (apply starts_with_spec; eauto). congruence.
Qed.

(** ** The grammar is unambiguous *)

(** Splitting at the first code unit satisfying [P]. *)
Lemma app_split_first (P : N -> bool) a1 b1 a2 b2 :
  Forall (fun c => P c = false) a1 -> Forall (fun c => P c = false) a2 ->
  (forall c t, b1 = c :: t -> P c = true) -> (forall c t, b2 = c :: t -> P c = true) ->
  a1 ++ b1 = a2 ++ b2 -> a1 = a2 /\ b1 = b2.
Proof.
  intros H1. revert a2. induction H1 as [|c a1 Hc H1 IH]; intros a2 H2 Hb1 Hb2 E.
  - destruct H2 as [|c a2 Hc2 _]; [split; [reflexivity|exact E]|]. exfalso.
    rewrite (Hb1 c (a2 ++ b2) E) in Hc2. discriminate.
  - destruct H2 as [|c' a2 Hc2 H2].
    + exfalso. rewrite (Hb2 c (a1 ++ b1) (eq_sym E)) in Hc. discriminate.
    + injection E as <- E. destruct (IH a2 H2 Hb1 Hb2 E) as [-> ->]. split; reflexivity.
Qed.

Definition is_exp_mark (c : N) : bool := (c =? 101)%N || (c =? 69)%N.

Lemma digit_not_mark c : is_digit c = true -> is_exp_mark c = false /\ (c =? 46)%N = false.
Proof. intros Hc. apply digit_cases in Hc. repeat destruct Hc as [->|Hc]; subst; split; reflexivity. Qed.

(** A mantissa is its integer digits, then nothing or a point and its
    fraction digits. *)
Lemma mantissa_form m d f :
  mantissa_lit m d f -> all_digits d /\ all_digits f /\ ((m = d /\ f = []) \/ m = d ++ 46%N :: f).
Proof. destruct 1; repeat split; auto; constructor. Qed.

Lemma mantissa_no_mark m d f : mantissa_lit m d f -> Forall (fun c => is_exp_mark c = false) m.
Proof.
  intros Hm. destruct (mantissa_form m d f Hm) as (Hd & Hf & [[-> _]| ->]);
    [|apply Forall_app; split; [|constructor; [reflexivity|]]];
    eapply Forall_impl; try eassumption; intros c Hc; exact (proj1 (digit_not_mark c Hc)).
Qed.

Lemma mantissa_det m d1 f1 d2 f2 :
  mantissa_lit m d1 f1 -> mantissa_lit m d2 f2 -> d1 = d2 /\ f1 = f2.
Proof.
  intros H1 H2. destruct (mantissa_form m d1 f1 H1) as (Hd1 & _ & Hm1).
  destruct (mantissa_form m d2 f2 H2) as (Hd2 & _ & Hm2).
  assert (Hp : forall d, all_digits d -> Forall (fun c => (c =? 46)%N = false) d).
  { intros d Hd. eapply Forall_impl; [|exact Hd]. intros c Hc. exact (proj2 (digit_not_mark c Hc)). }
  assert (Ht : forall f c t, (46%N :: f) = c :: t -> (c =? 46)%N = true) by (intros f c t E; injection E as <- _; reflexivity).
  assert (Hn : forall c t, @nil N = c :: t -> (c =? 46)%N = true) by discriminate.
  destruct Hm1 as [[-> ->]| ->]; destruct Hm2 as [[E ->]|E].
  - split; [exact E|reflexivity].
  - rewrite <- (app_nil_r d1) in E. destruct (app_split_first _ _ _ _ _ (Hp _ Hd1) (Hp _ Hd2) Hn (Ht f2) E).
    discriminate.
  - rewrite <- (app_nil_r d2) in E. destruct (app_split_first _ _ _ _ _ (Hp _ Hd1) (Hp _ Hd2) (Ht f1) Hn E).
    discriminate.
  - destruct (app_split_first _ _ _ _ _ (Hp _ Hd1) (Hp _ Hd2) (Ht f1) (Ht f2) E) as [-> E2].
    injection E2 as ->. split; reflexivity.
Qed.

Lemma exponent_inv e x :
  exponent_lit e x ->
  match e with
  | [] => x = 0%Z
  | _ :: t => exists sg k d, t = sg ++ d /\ sign_lit sg k /\ d <> [] /\ all_digits d
               /\ x = (k * Z.of_N (digits_val d))%Z
  end.
Proof. destruct 1 as [|c sg k d _ Hs Hne Hd]; [reflexivity|]. exists sg, k, d. auto. Qed.

Lemma exponent_det e x1 x2 : exponent_lit e x1 -> exponent_lit e x2 -> x1 = x2.
Proof.
  intros H1 H2. apply exponent_inv in H1, H2. destruct e as [|c t]; [congruence|].
  destruct H1 as (sg1 & k1 & d1 & -> & Hs1 & Hne1 & Hd1 & ->).
  destruct H2 as (sg2 & k2 & d2 & E & Hs2 & Hne2 & Hd2 & ->).
  destruct d1 as [|a1 d1]; [contradiction|]. destruct d2 as [|a2 d2]; [contradiction|].
  pose proof (Forall_inv Hd1) as Ha1. pose proof (Forall_inv Hd2) as Ha2.
  destruct Hs1, Hs2; cbn [app] in E; injection E as E1 E; subst; try discriminate; reflexivity.
Qed.

Lemma unsigned_det u v1 v2 : unsigned_lit u v1 -> unsigned_lit u v2 -> v1 = v2.
Proof.
  assert (Hinf : forall m d f e, mantissa_lit m d f -> m ++ e <> ustr "Infinity").
  { intros m d f e Hm E. destruct (mantissa_head m d f Hm) as (c & m0 & -> & Hc).
    injection E as Ec _. subst c. destruct Hc; discriminate. }
  intros H1 H2. destruct H1 as [|m1 d1 f1 e1 x1 Hm1 He1].
  - inversion H2 as [|m d f e x Hm He E]; [reflexivity|]. exfalso. exact (Hinf _ _ _ _ Hm E).
  - inversion H2 as [E|m2 d2 f2 e2 x2 Hm2 He2 E]; [exfalso; exact (Hinf _ _ _ _ Hm1 (eq_sym E))|].
    assert (Hmark : forall e x, exponent_lit e x -> forall c t, e = c :: t -> is_exp_mark c = true).
    { intros e x He c t ->. inversion He as [|c' sg k d Hc]. subst.
      destruct Hc as [-> | ->]; reflexivity. }
    destruct (app_split_first _ _ _ _ _ (mantissa_no_mark _ _ _ Hm2) (mantissa_no_mark _ _ _ Hm1)
                (Hmark _ _ He2) (Hmark _ _ He1) E) as [<- <-].
    destruct (mantissa_det m2 d1 f1 d2 f2 Hm1 Hm2) as [-> ->].
    rewrite (exponent_det e2 x1 x2 He1 He2). reflexivity.
Qed.

Lemma decimal_det p v1 v2 : decimal_lit p v1 -> decimal_lit p v2 -> v1 = v2.
Proof.
  assert (Hns : forall u v c t, unsigned_lit u v -> u = c :: t -> c <> 43%N /\ c <> 45%N).
  { intros u v c t Hu ->. destruct (unsigned_head _ _ Hu) as (c' & t' & E & Hc). injection E as <- _.
    destruct Hc as [Hc|[-> | ->]]; [|split; discriminate..].
    apply digit_cases in Hc. split; intros ->; repeat destruct Hc as [Hc|Hc]; discriminate. }
  intros H1 H2. destruct H1 as [u v Hu|u v Hu|u v Hu]; inversion H2 as [u' v' Hu' E|u' v' Hu' E|u' v' Hu' E];
    subst; first
    [ rewrite (unsigned_det _ _ _ Hu Hu'); reflexivity
    | exfalso; match goal with
      | H : unsigned_lit (?c :: ?t) _ |- _ =>
          destruct (Hns _ _ c t H eq_refl) as [N1 N2]; first [apply N1; reflexivity|apply N2; reflexivity]
      end ].
Qed.

Lemma prefix_same_length (t p1 r1 p2 r2 : jsstr) :
  t = p1 ++ r1 -> t = p2 ++ r2 -> length p1 = length p2 -> p1 = p2.
Proof.
  intros -> E. revert p2 E. induction p1 as [|a p1 IH]; intros [|b p2] E Hl; cbn in *;
    try discriminate; [reflexivity|].
  injection E as -> E. f_equal. apply (IH p2 E). lia.
Qed.

(** The contract has at most one result. *)
Lemma parseFloat_spec_functional s v1 v2 :
  parseFloat_spec s v1 -> parseFloat_spec s v2 -> v1 = v2.
Proof.
  intros [[p1 ([r1 E1] & Hd1 & Hm1)]|[-> Hn1]] [[p2 ([r2 E2] & Hd2 & Hm2)]|[-> Hn2]].
  - pose proof (Hm1 p2 r2 v2 E2 Hd2). pose proof (Hm2 p1 r1 v1 E1 Hd1).
    rewrite (prefix_same_length _ _ _ _ _ E1 E2 ltac:(lia)) in Hd1. exact (decimal_det _ _ _ Hd1 Hd2).
  - exfalso. exact (Hn2 p1 r1 v1 E1 Hd1).
  - exfalso. exact (Hn1 p2 r2 v2 E2 Hd2).
  - reflexivity.
Qed.

(** C28: [parseFloat] is exactly the function ECMAScript specifies: a
    value meets the contract (skip the leading white space, read the
    longest prefix that is a [StrDecimalLiteral], NaN when there is none)
    if and only if it is what [parseFloat] returns. *)
Theorem parseFloat_spec_iff s v : parseFloat_spec s v <-> v = parseFloat s.
Proof.
  split.
  - intros H. exact (parseFloat_spec_functional s v (parseFloat s) H (parseFloat_refines s)).
  - intros ->. apply parseFloat_refines.
Qed.
