(* ===== verification/Catalog.v ===== *)
(** * The catalog: products and the brand and category sets

    [product] is the shape of the objects of [createSampleProducts]
    (lines 117-240); [createSampleProducts] takes the values its ten calls
    of [Date.now()] return, in evaluation order, because [addedAt] is
    computed from them.  [populateFilterSets] (243-250) clears the two sets
    and adds every product's brand and category; [renderFilterCheckboxes]
    (253-276) sorts them, keeps the first five brands unless the list is
    expanded, and produces the checkboxes, none of them ticked.

    Prices are JavaScript numbers; they are modelled as exact rationals
    [Q].  Every price and bound in the program is a decimal of at most 15
    significant digits, whose nearest double preserves the order between
    any two of them, so the comparisons [<] and [>] and the sign of [a - b]
    come out as on the rationals. *)

From Stdlib Require Import String.
From Stdlib Require Import List Bool Arith ZArith NArith QArith Lia Sorted Permutation.
From S2P Require Import Prelude JsString JsArray.
Import ListNotations.

Record product : Set := mkProduct {
  id : Z;
  title : jsstr;
  brand : jsstr;
  category : jsstr;
  price : Q;
  model : jsstr;
  image : jsstr;
  parcels : Z;
  opportunity : bool;
  addedAt : Z
}.

(** [createSampleProducts]: [now i] is the value of the [i]-th call of
    [Date.now()] (from 0), one per product, in the order of the literal. *)
Definition createSampleProducts (now : nat -> Z) : list product := [
  mkProduct 1 (ustr "Filtro de Ar Honda Civic 2010") (ustr "Honda") (ustr "Filtro")
    (12000 # 100) (ustr "Civic 2010") (ustr "img/FiltrodeArHondaCivi2010.jpg") 3 true
    (now 0%nat - 1000000);
  mkProduct 2 (ustr "Pastilha de Freio Bosch - Gol 2015") (ustr "Bosch") (ustr "Freios")
    (25050 # 100) (ustr "Gol 2015") (ustr "img/PastilhaFreioBoschGol2015.jpg") 5 false
    (now 1%nat - 2000000);
  mkProduct 3 (ustr "Óleo Lubrificante Shell 5W30") (ustr "Shell") (ustr "Óleo")
    (9590 # 100) (ustr "Universal") (ustr "img/OleoLubrificanteShell5W30.jpg") 2 true
    (now 2%nat - 3000000);
  mkProduct 4 (ustr "Bateria Moura 60Ah") (ustr "Moura") (ustr "Bateria")
    (48000 # 100) (ustr "Universal") (ustr "img/BateriaMoura60Ah.jpg") 6 false
    (now 3%nat - 4000000);
  mkProduct 5 (ustr "Filtro de Óleo Fram") (ustr "Fram") (ustr "Filtro")
    (4530 # 100) (ustr "Universal") (ustr "img/FiltrodeOleoFram.jpg") 1 false
    (now 4%nat - 5000000);
  mkProduct 6 (ustr "Velas NGK Platinum") (ustr "NGK") (ustr "Velas")
    (7880 # 100) (ustr "Universal") (ustr "img/VelasNGKPlatinum.jpg") 3 true
    (now 5%nat - 6000000);
  mkProduct 7 (ustr "Correia Dentada Gates") (ustr "Gates") (ustr "Correia")
    (15000 # 100) (ustr "Universal") (ustr "img/CorreiaDentadaGates.jpg") 4 false
    (now 6%nat - 7000000);
  mkProduct 8 (ustr "Amortecedor Monroe") (ustr "Monroe") (ustr "Suspensão")
    (35000 # 100) (ustr "Universal") (ustr "img/AmortecedorMonroe.jpg") 5 true
    (now 7%nat - 8000000);
  mkProduct 9 (ustr "Filtro de Combustível Fram") (ustr "Fram") (ustr "Filtro")
    (6000 # 100) (ustr "Universal") (ustr "img/FiltrodeCombustivelFram.jpg") 3 false
    (now 8%nat - 9000000);
  mkProduct 10 (ustr "Pastilha de Freio Bosch - Corolla 2016") (ustr "Bosch") (ustr "Freios")
    (26000 # 100) (ustr "Corolla 2016") (ustr "img/PastilhadeFreioBosch-Corolla2016.jpg") 5 true
    (now 9%nat - 10000000)
].

(** [populateFilterSets]: both sets are cleared, then every product adds
    its brand and its category, in catalog order. *)
Definition populateFilterSets (products : list product) : list jsstr * list jsstr :=
  fold_left (fun '(bs, cs) p => (set_add bs (brand p), set_add cs (category p)))
    products ([], []).

(** The checkboxes [renderFilterCheckboxes] builds: a value and whether it
    is ticked (a freshly built checkbox is not), and the label of the
    "Ver mais" button. *)
Record checkboxes : Set := mkCheckboxes {
  brandBoxes : list (jsstr * bool);
  catBoxes : list (jsstr * bool);
  moreLabel : jsstr
}.

Section WithSort.
Context `{JsSort}.

(** [Array.from(set).sort()]: the default order of strings. *)
Definition sortedValues (set : list jsstr) : list jsstr := js_sort str_compare set.

Definition renderFilterCheckboxes (brandsSet categoriesSet : list jsstr) (expanded : bool)
  : checkboxes :=
  let brandsArr := sortedValues brandsSet in
  let limit := if expanded then Z.of_nat (length brandsArr) else 5%Z in
  let categoriesArr := sortedValues categoriesSet in
  mkCheckboxes
    (map (fun b => (b, false)) (js_slice brandsArr 0 limit))
    (map (fun c => (c, false)) categoriesArr)
    (if expanded then ustr "Ver menos" else ustr "Ver mais").
End WithSort.

(** ** Lemmas *)

Lemma populateFilterSets_fold products bs cs :
  fold_left (fun '(bs, cs) p => (set_add bs (brand p), set_add cs (category p))) products (bs, cs)
  = (fold_left set_add (map brand products) bs, fold_left set_add (map category products) cs).
Proof. revert bs cs; induction products; simpl; auto. Qed.

Lemma populateFilterSets_eq products :
  populateFilterSets products
  = (fold_left set_add (map brand products) [], fold_left set_add (map category products) []).
Proof. apply populateFilterSets_fold. Qed.

(** The values a set collects: each once, and exactly those of some
    product. *)
Definition values_of (f : product -> jsstr) (products : list product) (vs : list jsstr) : Prop :=
  NoDup vs /\ forall v, In v vs <-> exists p, In p products /\ f p = v.

Lemma fold_set_add_values f products :
  values_of f products (fold_left set_add (map f products) []).
Proof.
  split; [apply fold_set_add_NoDup; constructor|].
  intros v. rewrite fold_set_add_In, in_map_iff. simpl. firstorder.
Qed.

Section SortedValues.
Context `{JsSort}.

Lemma sortedValues_spec f products vs :
  values_of f products vs ->
  StronglySorted (fun a b => str_compare a b = Lt) (sortedValues vs)
  /\ forall v, In v (sortedValues vs) <-> exists p, In p products /\ f p = v.
Proof.
  intros [Hnd Hin]. pose proof (sortM_perm unit jsstr (pure_cmp str_compare) vs tt) as Hp.
  split.
  - apply sorted_NoDup_strict.
    + apply sortM_sorted, str_compare_consistent.
    + eapply Permutation_NoDup; eassumption.
  - intros v. rewrite <- Hin. unfold sortedValues, js_sort.
    split; apply Permutation_in; [symmetry|]; exact Hp.
Qed.

(** Collapsed, the brand list shows the first five brands in order; all
    checkboxes come out unticked. *)
Lemma brandBoxes_collapsed brandsSet categoriesSet :
  brandBoxes (renderFilterCheckboxes brandsSet categoriesSet false)
  = map (fun b => (b, false)) (firstn 5 (sortedValues brandsSet)).
Proof.
  unfold renderFilterCheckboxes. simpl.
  rewrite (js_slice_nonneg _ 0 5) by lia. reflexivity.
Qed.

Lemma brandBoxes_expanded brandsSet categoriesSet :
  brandBoxes (renderFilterCheckboxes brandsSet categoriesSet true)
  = map (fun b => (b, false)) (sortedValues brandsSet).
Proof.
  unfold renderFilterCheckboxes. cbn zeta.
  rewrite <- (Z.add_0_l (Z.of_nat (length _))), js_slice_nonneg by lia.
  rewrite Nat2Z.id, firstn_all. reflexivity.
Qed.
(** C17: the checkboxes [renderFilterCheckboxes] builds from the sets
    [populateFilterSets] fills: the brands of the catalog, each once, in
    strictly ascending code-unit order, all of them when expanded and the
    first five when collapsed; every category, each once, in the same
    order; every box unticked; and the button's label. *)
Theorem filter_values_sorted products ex :
  let '(brandsSet, categoriesSet) := populateFilterSets products in
  let cb := renderFilterCheckboxes brandsSet categoriesSet ex in
  exists B C,
    StronglySorted (fun a b => str_compare a b = Lt) B
    /\ (forall v, In v B <-> exists p, In p products /\ brand p = v)
    /\ StronglySorted (fun a b => str_compare a b = Lt) C
    /\ (forall v, In v C <-> exists p, In p products /\ category p = v)
    /\ brandBoxes cb = map (fun b => (b, false)) (if ex then B else firstn 5 B)
    /\ catBoxes cb = map (fun c => (c, false)) C
    /\ moreLabel cb = (if ex then ustr "Ver menos" else ustr "Ver mais").
Proof.
  rewrite populateFilterSets_eq. cbn zeta.
  destruct (sortedValues_spec brand products _ (fold_set_add_values brand products)) as [Hb Hbi].
  destruct (sortedValues_spec category products _ (fold_set_add_values category products)) as [Hc Hci].
  eexists _, _. split; [exact Hb|]. split; [exact Hbi|]. split; [exact Hc|]. split; [exact Hci|].
  split; [destruct ex; [apply brandBoxes_expanded|apply brandBoxes_collapsed]|].
  split; [reflexivity|destruct ex; reflexivity].
Qed.
End SortedValues.

(** The seed list satisfies the catalog's data invariant: the ids are
    pairwise distinct, every product has at least one installment (the
    divisor of the installment price) and no price is negative; this holds
    whatever [Date.now()] returns. *)
Theorem createSampleProducts_wf now :
  let ps := createSampleProducts now in
  NoDup (map id ps) /\ Forall (fun p => (1 <= parcels p)%Z) ps
  /\ Forall (fun p => (0 <= price p)%Q) ps.
Proof.
  cbn zeta. split; [|split].
  - simpl. repeat constructor; simpl; intuition discriminate.
  - repeat constructor; simpl; lia.
  - repeat constructor; unfold Qle; simpl; lia.
Qed.
