(* ===== verification/Cards.v ===== *)
(** * Product cards: prices and installments as text (lines 358-371)

    [renderProducts] fills one card per product of the page: image, title,
    [p.price.toFixed(2).replace('.', ',')] and
    [`Em até ${p.parcels}x R$ ${(p.price / p.parcels).toFixed(2).replace('.', ',')} sem juros`].
    This file models the number-to-text conversions those lines use:
    [n_to_str] (the decimal digits of a non-negative integer, as
    [Number.prototype.toString] writes it), [toFixed2]
    ([Number.prototype.toFixed(2)]: round to the nearest hundredth, ties
    up, at least one digit before the point) and [replace_first]
    ([String.prototype.replace] with a one-character pattern).  [toFixed]
    switches to exponent notation at [10^21]; prices are far below and
    that branch is not modelled.  [parse_money] reads a displayed amount
    back; it is not in the program and serves to state what the text
    shows. *)

From Stdlib Require Import String.
From Stdlib Require Import List Bool Arith ZArith NArith QArith Qround Lia Lqa.
From S2P Require Import Prelude JsString JsNumber Catalog.
Import ListNotations.

(** ** Integers as decimal text *)

(** The digits of [n], most significant first, with [fuel] bounding the
    number of digits. *)
Fixpoint digits_fuel (fuel : nat) (n : N) : jsstr :=
  match fuel with
  | O => []
  | S f => if (n <? 10)%N then [48 + n]%N else digits_fuel f (n / 10) ++ [48 + n mod 10]%N
  end.

(** [String(n)] for a non-negative integer: [N.size n] binary digits are
    at least as many as the decimal ones. *)
Definition n_to_str (n : N) : jsstr := digits_fuel (S (N.to_nat (N.size n))) n.

(** [`${z}`] for an integer. *)
Definition z_to_str (z : Z) : jsstr :=
  if (z <? 0)%Z then 45%N :: n_to_str (Z.to_N (- z)) else n_to_str (Z.to_N z).

(** ** [toFixed(2)] and [replace('.', ',')] *)

(** The hundredths [toFixed(2)] rounds a non-negative [x] to: the integer
    [n] nearest to [100 x], the larger one on a tie. *)
Definition hundredths (x : Q) : Z := Qfloor (x * 100 + (1 # 2)).

Definition fixed2_nonneg (x : Q) : jsstr :=
  let m := n_to_str (Z.to_N (hundredths x)) in
  let m := if (length m <=? 2)%nat then repeat 48%N (3 - length m) ++ m else m in
  let k := length m in
  firstn (k - 2) m ++ [46%N] ++ skipn (k - 2) m.

Definition toFixed2 (x : Q) : jsstr :=
  if Qle_bool 0 x then fixed2_nonneg x else 45%N :: fixed2_nonneg (- x).

(** [s.replace(a, b)] for one-code-unit strings [a] and [b]: the first
    occurrence only. *)
Fixpoint replace_first (s : jsstr) (a b : N) : jsstr :=
  match s with
  | [] => []
  | c :: s' => if (c =? a)%N then b :: s' else c :: replace_first s' a b
  end.

(** [x.toFixed(2).replace('.', ',')]. *)
Definition money (x : Q) : jsstr := replace_first (toFixed2 x) 46 44.

(** ** The card *)

Record card : Set := mkCard {
  cardImage : jsstr;         (** [img.src] *)
  cardAlt : jsstr;           (** [img.alt] *)
  cardTitle : jsstr;         (** [.product-title] *)
  cardPrice : jsstr;         (** [.price-value] *)
  cardInstallments : jsstr   (** [.installments] *)
}.

(** [(p.price / p.parcels).toFixed(2).replace('.', ',')]: divided by zero
    parcels the amount is [Infinity], [-Infinity] or [NaN], which
    [toFixed] writes as such and [replace] leaves alone. *)
Definition installment_text (x : Q) (n : Z) : jsstr :=
  if (n =? 0)%Z then
    match Qcompare x 0 with Gt => ustr "Infinity" | Lt => ustr "-Infinity" | Eq => ustr "NaN" end
  else money (x / inject_Z n).

Definition card_of (p : product) : card :=
  mkCard (image p) (title p) (title p) (money (price p))
    (ustr "Em até " ++ z_to_str (parcels p) ++ ustr "x R$ "
       ++ installment_text (price p) (parcels p) ++ ustr " sem juros").

(** ** Reading an amount back *)

(** The first [c] splits [s] in two. *)
Fixpoint split_at (c : N) (s : jsstr) : option (jsstr * jsstr) :=
  match s with
  | [] => None
  | d :: s' => if (d =? c)%N then Some ([], s')
               else option_map (fun '(a, b) => (d :: a, b)) (split_at c s')
  end.

(** "ddd,dd" as a number of hundredths over 100. *)
Definition parse_money (s : jsstr) : option Q :=
  match split_at 44 s with
  | Some (a, b) =>
      if forallb is_digit a && forallb is_digit b && negb (Nat.eqb (length a) 0)
         && Nat.eqb (length b) 2
      then Some (Z.of_N (digits_val a * 100 + digits_val b) # 100)
      else None
  | None => None
  end.

(** ** Lemmas on digits *)

Lemma digit_one n :
  (n < 10)%N ->
  digits_val [48 + n]%N = n /\ Forall (fun c => is_digit c = true) [48 + n]%N.
Proof.
  intros Hn. unfold digits_val, is_digit. split; [cbn [fold_left]; lia|].
  constructor; [|constructor]. apply andb_true_iff. split; apply N.leb_le; lia.
Qed.

(** With enough fuel, [digits_fuel] writes [n] in decimal. *)
Lemma digits_fuel_spec f n :
  (n < 10 ^ N.of_nat (S f))%N ->
  digits_val (digits_fuel (S f) n) = n /\ Forall (fun c => is_digit c = true) (digits_fuel (S f) n)
  /\ digits_fuel (S f) n <> [].
Proof.
  revert n; induction f as [|f IH]; intros n Hn; cbn [digits_fuel];
    destruct (N.ltb_spec n 10) as [Hlt|Hge];
    try (destruct (digit_one n Hlt); repeat split; auto; discriminate).
  - simpl in Hn. lia.
  - assert (Hd : (n / 10 < 10 ^ N.of_nat (S f))%N).
    { apply N.Div0.div_lt_upper_bound. rewrite Nat2N.inj_succ, N.pow_succ_r' in Hn. lia. }
    destruct (IH (n / 10)%N Hd) as (Hv & Hdig & _). cbn [digits_fuel] in Hv, Hdig.
    pose proof (N.mod_lt n 10 ltac:(discriminate)).
    destruct (digit_one (n mod 10)%N ltac:(assumption)) as [Hv1 Hd1].
    repeat split.
    + rewrite digits_val_app, Hv, Hv1. simpl.
      pose proof (N.div_mod n 10 ltac:(discriminate)). lia.
    + apply Forall_app. split; assumption.
    + intros E. apply app_eq_nil in E as [_ E]. discriminate.
Qed.

(** The fuel [n_to_str] gives covers the decimal digits of [n]. *)
Lemma n_to_str_fuel_bound n : (n < 10 ^ N.of_nat (S (N.to_nat (N.size n))))%N.
Proof.
  pose proof (N.size_gt n).
  assert (2 ^ N.size n <= 10 ^ N.size n)%N by (apply N.pow_le_mono_l; lia).
  rewrite Nat2N.inj_succ, N2Nat.id, N.pow_succ_r'. lia.
Qed.

Lemma n_to_str_spec n :
  digits_val (n_to_str n) = n /\ Forall (fun c => is_digit c = true) (n_to_str n)
  /\ n_to_str n <> [].
Proof. apply digits_fuel_spec, n_to_str_fuel_bound. Qed.

(** Past the number of digits, more fuel changes nothing. *)
Lemma digits_fuel_stable f g n :
  (n < 10 ^ N.of_nat (S f))%N -> (n < 10 ^ N.of_nat (S g))%N -> digits_fuel (S f) n = digits_fuel (S g) n.
Proof.
  revert g n. induction f as [|f IH]; intros g n Hf Hg; cbn [digits_fuel];
    destruct (N.ltb_spec n 10); try reflexivity; [cbn in Hf; lia|].
  destruct g as [|g]; [cbn in Hg; lia|]. f_equal.
  rewrite Nat2N.inj_succ, N.pow_succ_r' in Hf, Hg.
  apply IH; apply N.Div0.div_lt_upper_bound; lia.
Qed.

Lemma Forall_digit_In s : Forall (fun c => is_digit c = true) s <-> forall c, In c s -> is_digit c = true.
Proof. apply Forall_forall. Qed.

(** [toFixed(2)] of a non-negative number: at least one digit, a point,
    two digits; the digits are those of [hundredths x]. *)
Lemma fixed2_shape x :
  exists a b, fixed2_nonneg x = a ++ [46%N] ++ b /\ length b = 2%nat /\ a <> []
    /\ Forall (fun c => is_digit c = true) (a ++ b)
    /\ digits_val (a ++ b) = Z.to_N (hundredths x).
Proof.
  unfold fixed2_nonneg. destruct (n_to_str_spec (Z.to_N (hundredths x))) as (Hv & Hd & Hne).
  set (m0 := n_to_str (Z.to_N (hundredths x))) in *.
  set (m := if (length m0 <=? 2)%nat then repeat 48%N (3 - length m0) ++ m0 else m0).
  assert (Hm : (3 <= length m)%nat /\ Forall (fun c => is_digit c = true) m
               /\ digits_val m = Z.to_N (hundredths x)).
  { unfold m. destruct (Nat.leb_spec (length m0) 2).
    - rewrite length_app, repeat_length, digits_val_zeros. repeat split; [lia| |exact Hv].
      apply Forall_app. split; [|exact Hd]. apply Forall_forall. intros c Hc.
      apply repeat_spec in Hc. subst. reflexivity.
    - repeat split; [lia|exact Hd|exact Hv]. }
  destruct Hm as (Hl & Hmd & Hmv).
  exists (firstn (length m - 2) m), (skipn (length m - 2) m).
  rewrite firstn_skipn. repeat split; auto.
  - rewrite length_skipn. lia.
  - intros E. apply (f_equal (@length N)) in E. rewrite length_firstn in E. simpl in E. lia.
Qed.

Lemma replace_first_digits s t :
  Forall (fun c => is_digit c = true) s -> replace_first (s ++ [46%N] ++ t) 46 44 = s ++ [44%N] ++ t.
Proof.
  induction 1 as [|c s Hc Hs IH]; [reflexivity|]. cbn [app replace_first] in IH |- *. rewrite IH.
  destruct (N.eqb_spec c 46); [subst; discriminate|reflexivity].
Qed.

Lemma split_at_digits a b :
  Forall (fun c => is_digit c = true) a -> split_at 44 (a ++ [44%N] ++ b) = Some (a, b).
Proof.
  induction 1 as [|c a Hc Ha IH]; [reflexivity|]. cbn [app split_at] in IH |- *. rewrite IH.
  destruct (N.eqb_spec c 44); [subst; discriminate|reflexivity].
Qed.

Lemma hundredths_nonneg x : 0 <= x -> (0 <= hundredths x)%Z.
Proof.
  intros Hx. unfold hundredths. change 0%Z with (Qfloor 0). apply Qfloor_resp_le. lra.
Qed.

(** Rounding to hundredths moves a number by at most half a hundredth. *)
Lemma hundredths_bound x :
  - (1 # 200) < (hundredths x # 100) - x <= 1 # 200.
Proof.
  unfold hundredths. set (n := Qfloor (x * 100 + (1 # 2))).
  pose proof (Qfloor_le (x * 100 + (1 # 2))) as H1.
  pose proof (Qlt_floor (x * 100 + (1 # 2))) as H2.
  rewrite inject_Z_plus in H2. fold n in H1, H2. change (inject_Z 1) with 1 in H2.
  assert (E : (n # 100) == inject_Z n * (1 # 100)) by (unfold Qeq; simpl; lia).
  rewrite E. lra.
Qed.

(** The money text of a non-negative [x]: digits, a comma, two digits,
    whose value is the number of hundredths [x] rounds to. *)
Lemma money_shape x :
  0 <= x ->
  exists a b, money x = a ++ [44%N] ++ b /\ length b = 2%nat /\ a <> []
    /\ Forall (fun c => is_digit c = true) a /\ Forall (fun c => is_digit c = true) b
    /\ (digits_val a * 100 + digits_val b)%N = Z.to_N (hundredths x).
Proof.
  intros Hx. unfold money, toFixed2. rewrite (proj2 (Qle_bool_iff 0 x) Hx).
  destruct (fixed2_shape x) as (a & b & -> & Hb & Ha & Hd & Hv).
  apply Forall_app in Hd as [Hda Hdb].
  rewrite digits_val_app, Hb in Hv. change (10 ^ N.of_nat 2)%N with 100%N in Hv.
  exists a, b. rewrite replace_first_digits by exact Hda. repeat split; assumption.
Qed.

(** Reading a money text back gives the hundredths it was rounded to. *)
Lemma parse_money_money x :
  0 <= x -> parse_money (money x) = Some (hundredths x # 100).
Proof.
  intros Hx. destruct (money_shape x Hx) as (a & b & -> & Hb & Ha & Hda & Hdb & Hv).
  unfold parse_money. rewrite split_at_digits by exact Hda.
  rewrite !(proj2 (forallb_forall _ _)) by (apply Forall_forall; assumption).
  destruct (Nat.eqb_spec (length a) 0) as [E|_]; [apply length_zero_iff_nil in E; contradiction|].
  rewrite Hb. cbn [Nat.eqb negb andb]. do 2 f_equal.
  rewrite Hv, Z2N.id by (apply hundredths_nonneg; exact Hx). reflexivity.
Qed.

(** [`${n}`] of a non-negative integer is its decimal digits. *)
Lemma z_to_str_nonneg z :
  (0 <= z)%Z -> digits_val (z_to_str z) = Z.to_N z /\ Forall (fun c => is_digit c = true) (z_to_str z).
Proof.
  intros Hz. unfold z_to_str. destruct (Z.ltb_spec z 0); [lia|].
  destruct (n_to_str_spec (Z.to_N z)) as (? & ? & _). split; assumption.
Qed.

Lemma Q_pos_of_Z z : (0 < z)%Z -> 0 < inject_Z z.
Proof. intros Hz. change 0 with (inject_Z 0). rewrite <- Zlt_Qlt. exact Hz. Qed.

(** [n] equal payments of [r] are within [n] half-hundredths of [x] when
    [r] is [x / n] rounded to hundredths. *)
Lemma scale_bound (n x r : Q) :
  0 < n -> - (1 # 200) < r - x / n <= 1 # 200 ->
  - (n * (1 # 200)) < n * r - x <= n * (1 # 200).
Proof.
  intros Hn [Hl Hh].
  assert (E : n * r - x == n * (r - x / n)) by (field; intros E; rewrite E in Hn; discriminate).
  rewrite E. split.
  - setoid_replace (- (n * (1 # 200))) with (n * - (1 # 200)) by ring.
    apply (proj2 (Qmult_lt_l _ _ _ Hn)). exact Hl.
  - apply (proj2 (Qmult_le_l _ _ _ Hn)). exact Hh.
Qed.

(** The digit loop of [String(n)] terminates within the number of
    decimal digits of [n]: every fuel that covers them gives the same
    text, the one [n_to_str] computes with its fuel [N.size n + 1]. *)
Theorem n_to_str_fuel_enough n f :
  (n < 10 ^ N.of_nat (S f))%N -> digits_fuel (S f) n = n_to_str n.
Proof. intros Hf. apply digits_fuel_stable; [exact Hf|apply n_to_str_fuel_bound]. Qed.

(** C22: the price text [x.toFixed(2).replace('.', ',')] of a
    non-negative [x] is digits, a comma and two digits; read back it is
    [x] rounded to hundredths, within half a hundredth of [x]. *)
Theorem money_roundtrip x :
  0 <= x ->
  parse_money (money x) = Some (hundredths x # 100)
  /\ - (1 # 200) < (hundredths x # 100) - x <= 1 # 200.
Proof. intros Hx. split; [apply parse_money_money; exact Hx|apply hundredths_bound]. Qed.

(** C23: the installments text of a card names the number of parcels in
    decimal and an amount that, paid that many times, is within one half
    hundredth per parcel of the price. *)
Theorem card_installments p :
  0 <= price p -> (0 < parcels p)%Z ->
  exists t, cardInstallments (card_of p)
            = ustr "Em até " ++ z_to_str (parcels p) ++ ustr "x R$ " ++ t ++ ustr " sem juros"
    /\ digits_val (z_to_str (parcels p)) = Z.to_N (parcels p)
    /\ exists r, parse_money t = Some r
         /\ - (inject_Z (parcels p) * (1 # 200)) < inject_Z (parcels p) * r - price p
              <= inject_Z (parcels p) * (1 # 200).
Proof.
  intros Hx Hn. pose proof (Q_pos_of_Z _ Hn) as Hq.
  set (x := price p / inject_Z (parcels p)).
  assert (Hx' : 0 <= x).
  { apply Qle_shift_div_l; [exact Hq|]. rewrite Qmult_0_l. exact Hx. }
  exists (money x). split.
  { unfold card_of, installment_text. cbn [cardInstallments].
    rewrite (proj2 (Z.eqb_neq _ _)) by lia. reflexivity. }
  split; [apply z_to_str_nonneg; lia|].
  exists (hundredths x # 100). split; [apply parse_money_money; exact Hx'|].
  apply scale_bound; [exact Hq|apply hundredths_bound].
Qed.


(** C26: [parseFloat] of a price as the cards display it reads only the
    reais: the comma ends the number, so "95,90" is read as 95, the
    price rounded to hundredths and then truncated to an integer. *)
Theorem parseFloat_money x :
  0 <= x -> exists q, parseFloat (money x) = JFin q /\ q == inject_Z (hundredths x / 100).
Proof.
  intros Hx. destruct (money_shape x Hx) as (a & b & -> & Hb & Ha & Hda & Hdb & Hv).
  destruct (parseFloat_comma a b Ha Hda) as [q [E Hq]]. exists q. split; [exact E|].
  rewrite Hq. apply inject_Z_injective.
  pose proof (digits_val_bound b Hdb) as Hbd. rewrite Hb in Hbd. change (10 ^ N.of_nat 2)%N with 100%N in Hbd.
  pose proof (hundredths_nonneg x Hx). apply Z.div_unique with (r := Z.of_N (digits_val b)); lia.
Qed.

(** The cards of the ten seed products show the prices and
    installments the page displays. *)
Example seed_cards :
  map (fun p => (cardPrice (card_of p), cardInstallments (card_of p))) (createSampleProducts (fun _ => 0%Z))
  = [(ustr "120,00", ustr "Em até 3x R$ 40,00 sem juros");
     (ustr "250,50", ustr "Em até 5x R$ 50,10 sem juros");
     (ustr "95,90", ustr "Em até 2x R$ 47,95 sem juros");
     (ustr "480,00", ustr "Em até 6x R$ 80,00 sem juros");
     (ustr "45,30", ustr "Em até 1x R$ 45,30 sem juros");
     (ustr "78,80", ustr "Em até 3x R$ 26,27 sem juros");
     (ustr "150,00", ustr "Em até 4x R$ 37,50 sem juros");
     (ustr "350,00", ustr "Em até 5x R$ 70,00 sem juros");
     (ustr "60,00", ustr "Em até 3x R$ 20,00 sem juros");
     (ustr "260,00", ustr "Em até 5x R$ 52,00 sem juros")].
Proof. vm_compute. reflexivity. Qed.

(** ** Witnesses *)

Lemma money_roundtrip_witness :
  0 <= 78.8 /\ parse_money (money 78.8) = Some (hundredths 78.8 # 100)
  /\ - (1 # 200) < (hundredths 78.8 # 100) - 78.8 <= 1 # 200.
Proof. split; [vm_compute; discriminate|apply money_roundtrip; vm_compute; discriminate]. Defined.

Lemma card_installments_witness :
  let p := nth 5 (createSampleProducts (fun _ => 0%Z)) (mkProduct 0%Z [] [] [] 0 [] [] 1%Z false 0%Z) in
  0 <= price p /\ (0 < parcels p)%Z /\
  exists t, cardInstallments (card_of p)
            = ustr "Em até " ++ z_to_str (parcels p) ++ ustr "x R$ " ++ t ++ ustr " sem juros"
    /\ digits_val (z_to_str (parcels p)) = Z.to_N (parcels p)
    /\ exists r, parse_money t = Some r
         /\ - (inject_Z (parcels p) * (1 # 200)) < inject_Z (parcels p) * r - price p
              <= inject_Z (parcels p) * (1 # 200).
Proof.
  cbn zeta. split; [vm_compute; discriminate|]. split; [vm_compute; reflexivity|].
  apply card_installments; [vm_compute; discriminate|vm_compute; reflexivity].
Defined.

Lemma parseFloat_money_witness :
  0 <= 95.9 /\ exists q, parseFloat (money 95.9) = JFin q /\ q == inject_Z (hundredths 95.9 / 100).
Proof. split; [vm_compute; discriminate|]. apply parseFloat_money. vm_compute. discriminate. Defined.
