(* ===== verification/Query.v ===== *)
(** * The query pipeline: [applyFiltersAndRender], lines 303-333

    [applyFilters] is the pure part of [applyFiltersAndRender]: it reads the
    inputs (a [query]), filters [products] with the five early-return tests
    of lines 317-325 ([keep]) and sorts the result with the comparator the
    sort select names (lines 329-333).  The "relevance" comparator calls
    [Math.random()]; the random numbers are a stream [rand : nat -> Q] and
    the state threaded through the sort is the number of values drawn so
    far.  Setting [currentPage] and rendering are in [Pagination] and
    [Page].

    The price inputs go through [parseFloat] ([JsNumber]) and then
    [|| 0] or [|| Infinity]; the [query] holds [parseFloat]'s results. *)

From Stdlib Require Import String.
From Stdlib Require Import List Bool Arith ZArith NArith QArith Lia Lqa Sorted Permutation.
From S2P Require Import Prelude JsString JsArray JsNumber Catalog.
Import ListNotations.

(** ** The inputs [applyFiltersAndRender] reads *)

Record query : Set := mkQuery {
  searchValue : jsstr;            (** [searchInput.value] *)
  selectedBrands : list jsstr;    (** values of the ticked brand checkboxes *)
  selectedCats : list jsstr;      (** values of the ticked category checkboxes *)
  onlyOpportunity : bool;         (** some opportunity checkbox is ticked *)
  priceMinV : jsnum;              (** [parseFloat(priceMin.value)] *)
  priceMaxV : jsnum;              (** [parseFloat(priceMax.value)] *)
  sortValue : jsstr               (** [sortSelect.value] *)
}.

(** The search text, trimmed and lower-cased (line 304, also line 50). *)
Definition normalize (v : jsstr) : jsstr := toLowerCase (trim v).

Definition minP (qr : query) : jsnum := num_or (priceMinV qr) (JFin 0).
Definition maxP (qr : query) : jsnum := num_or (priceMaxV qr) JPosInf.

(** [`${p.title} ${p.brand} ${p.model} ${p.category}`.toLowerCase()]. *)
Definition hay (p : product) : jsstr :=
  toLowerCase (title p ++ [32%N] ++ brand p ++ [32%N] ++ model p ++ [32%N] ++ category p).

(** The callback of [products.filter], early returns in the code's order. *)
Definition keep (q : jsstr) (sb sc : list jsstr) (only : bool) (lo hi : jsnum)
    (p : product) : bool :=
  if only && negb (opportunity p) then false
  else if negb (Nat.eqb (length sb) 0) && negb (arr_includes sb (brand p)) then false
  else if negb (Nat.eqb (length sc) 0) && negb (arr_includes sc (category p)) then false
  else if num_lt (price p) lo || num_gt (price p) hi then false
  else if str_truthy q then includes (hay p) q
  else true.

Definition keep_query (qr : query) : product -> bool :=
  keep (normalize (searchValue qr)) (selectedBrands qr) (selectedCats qr)
    (onlyOpportunity qr) (minP qr) (maxP qr).

(** ** Sorting *)

Inductive sortMode : Set := PriceAsc | PriceDesc | Recent | Relevance | NoSort.

(** The [if/else if] chain of lines 330-333 on [sortSelect.value]. *)
Definition sortMode_of (v : jsstr) : sortMode :=
  if jsstr_eqb v (ustr "price-asc") then PriceAsc
  else if jsstr_eqb v (ustr "price-desc") then PriceDesc
  else if jsstr_eqb v (ustr "recent") then Recent
  else if jsstr_eqb v (ustr "relevance") then Relevance
  else NoSort.

(** Two of the option strings are different. *)
Ltac distinct_options := let H := fresh in intros H; apply jsstr_eqb_eq in H; vm_compute in H; discriminate.

(** [(a, b) => a.price - b.price] and the two others, read through the
    sign of their result. *)
Definition cmp_price_asc (a b : product) : comparison := Qcompare (price a - price b) 0.
Definition cmp_price_desc (a b : product) : comparison := Qcompare (price b - price a) 0.
Definition cmp_recent (a b : product) : comparison := Z.compare (addedAt b - addedAt a) 0.

(** [Math.random()]: the next value of the stream. *)
Definition math_random (rand : nat -> Q) : St nat Q := fun n => (rand n, S n).

(** [() => 0.5 - Math.random()]. *)
Definition cmp_relevance (rand : nat -> Q) (a b : product) : St nat comparison :=
  fun n => let (r, n') := math_random rand n in (Qcompare ((1 # 2) - r) 0, n').

Section Pipeline.
Context `{JsSort}.

(** Lines 329-333: [filtered.sort(...)] for the selected mode. *)
Definition sortFiltered (mode : sortMode) (rand : nat -> Q) (filtered : list product)
    : St nat (list product) :=
  match mode with
  | PriceAsc => st_ret (js_sort cmp_price_asc filtered)
  | PriceDesc => st_ret (js_sort cmp_price_desc filtered)
  | Recent => st_ret (js_sort cmp_recent filtered)
  | Relevance => sortM nat product (cmp_relevance rand) filtered
  | NoSort => st_ret filtered
  end.

(** Lines 304-333: the new value of [filtered], and the random stream's
    position after the sort. *)
Definition applyFilters (products : list product) (qr : query) (rand : nat -> Q)
    : St nat (list product) :=
  sortFiltered (sortMode_of (sortValue qr)) rand (filter (keep_query qr) products).
End Pipeline.

(** ** Lemmas on numbers and comparators *)

Lemma Qcompare_sub x y : Qcompare (x - y) 0 = Qcompare x y.
Proof.
  destruct (x ?= y) eqn:E;
    [apply Qeq_alt in E; apply (proj1 (Qeq_alt _ _))
    | apply Qlt_alt in E; apply (proj1 (Qlt_alt _ _))
    | apply Qgt_alt in E; apply (proj1 (Qgt_alt _ _))]; lra.
Qed.

Lemma Q_compare_consistent : consistent Qcompare.
Proof.
  split; [intros; symmetry; apply Qcompare_antisym|].
  unfold cmp_le. intros a b c H1 H2. apply (proj1 (Qle_alt _ _)).
  apply (proj2 (Qle_alt _ _)) in H1, H2. lra.
Qed.

Lemma cmp_price_asc_key a b : cmp_price_asc a b = Qcompare (price a) (price b).
Proof. apply Qcompare_sub. Qed.

Lemma cmp_price_desc_key a b : cmp_price_desc a b = Qcompare (price b) (price a).
Proof. apply Qcompare_sub. Qed.

Lemma cmp_recent_key a b : cmp_recent a b = Z.compare (addedAt b) (addedAt a).
Proof. unfold cmp_recent. rewrite <- Z.compare_sub. reflexivity. Qed.

Lemma cmp_price_asc_consistent : consistent cmp_price_asc.
Proof.
  apply (consistent_ext (fun a b => Qcompare (price a) (price b))).
  - intros; symmetry; apply cmp_price_asc_key.
  - apply key_consistent, Q_compare_consistent.
Qed.

Lemma cmp_price_desc_consistent : consistent cmp_price_desc.
Proof.
  apply (consistent_ext (fun a b => Qcompare (price b) (price a))).
  - intros; symmetry; apply cmp_price_desc_key.
  - apply (flip_consistent (fun a b => Qcompare (price a) (price b))),
      key_consistent, Q_compare_consistent.
Qed.

Lemma cmp_recent_consistent : consistent cmp_recent.
Proof.
  apply (consistent_ext (fun a b => Z.compare (addedAt b) (addedAt a))).
  - intros; symmetry; apply cmp_recent_key.
  - apply (flip_consistent (fun a b => Z.compare (addedAt a) (addedAt b))),
      key_consistent, Z_compare_consistent.
Qed.

#[export] Hint Resolve cmp_price_asc_consistent cmp_price_desc_consistent
  cmp_recent_consistent : catalog.

Lemma cmp_le_price_asc a b : cmp_le cmp_price_asc a b -> price a <= price b.
Proof. unfold cmp_le. rewrite cmp_price_asc_key. apply Qle_alt. Qed.

Lemma cmp_le_recent a b : cmp_le cmp_recent a b -> (addedAt b <= addedAt a)%Z.
Proof. unfold cmp_le. rewrite cmp_recent_key, Z.compare_le_iff. auto. Qed.

Lemma eq_class_price x z : eq_class cmp_price_asc x z = Qeq_bool (price z) (price x).
Proof.
  unfold eq_class. rewrite cmp_price_asc_key.
  destruct (price z ?= price x) eqn:E; symmetry.
  - apply Qeq_bool_iff, Qeq_alt, E.
  - apply not_true_iff_false. rewrite Qeq_bool_iff, Qeq_alt. congruence.
  - apply not_true_iff_false. rewrite Qeq_bool_iff, Qeq_alt. congruence.
Qed.

Lemma eq_class_recent x z : eq_class cmp_recent x z = Z.eqb (addedAt z) (addedAt x).
Proof.
  unfold eq_class. rewrite cmp_recent_key.
  destruct (Z.compare_spec (addedAt x) (addedAt z)) as [E|E|E];
    symmetry; [apply Z.eqb_eq|apply Z.eqb_neq|apply Z.eqb_neq]; lia.
Qed.

(** ** The filter callback against the five clauses of the filter *)

(** [lo <= x] and [x <= hi] for the bounds as [||] leaves them. *)
Definition above_min (lo : jsnum) (x : Q) : Prop :=
  match lo with JFin m => m <= x | JPosInf => False | _ => True end.
Definition below_max (hi : jsnum) (x : Q) : Prop :=
  match hi with JFin m => x <= m | JNegInf => False | _ => True end.

(** The five conditions a product must meet, as a conjunction. *)
Definition passes (qr : query) (p : product) : Prop :=
  (onlyOpportunity qr = true -> opportunity p = true)
  /\ (selectedBrands qr <> [] -> In (brand p) (selectedBrands qr))
  /\ (selectedCats qr <> [] -> In (category p) (selectedCats qr))
  /\ above_min (minP qr) (price p) /\ below_max (maxP qr) (price p)
  /\ (normalize (searchValue qr) <> [] ->
      exists pre suf, hay p = pre ++ normalize (searchValue qr) ++ suf).

Lemma opp_test_false (only o : bool) : only && negb o = false <-> (only = true -> o = true).
Proof. destruct only, o; simpl; intuition discriminate. Qed.

Lemma sel_test_false (sel : list jsstr) (x : jsstr) :
  negb (Nat.eqb (length sel) 0) && negb (arr_includes sel x) = false <-> (sel <> [] -> In x sel).
Proof.
  rewrite <- arr_includes_In.
  destruct sel as [|y sel]; [simpl; intuition|].
  generalize (arr_includes (y :: sel) x) as b. intros b. simpl. destruct b; simpl.
  - split; auto.
  - split; [discriminate|]. intros Hin. specialize (Hin ltac:(discriminate)). discriminate.
Qed.

Lemma price_test_false (x : Q) (lo hi : jsnum) :
  num_lt x lo || num_gt x hi = false <-> above_min lo x /\ below_max hi x.
Proof.
  rewrite orb_false_iff.
  destruct lo, hi; simpl; rewrite ?negb_false_iff, ?Qle_bool_iff; intuition congruence.
Qed.

Lemma query_test_true (q h : jsstr) :
  (if str_truthy q then includes h q else true) = true
  <-> (q <> [] -> exists pre suf, h = pre ++ q ++ suf).
Proof.
  destruct q as [|c q]; cbn [str_truthy]; [intuition|].
  rewrite <- includes_spec. split; auto. intros H. apply H. discriminate.
Qed.

Lemma keep_query_spec qr p : keep_query qr p = true <-> passes qr p.
Proof.
  unfold keep_query, keep, passes.
  rewrite !if_false_true, opp_test_false, !sel_test_false, price_test_false,
    query_test_true.
  tauto.
Qed.

(** ** What the pipeline returns *)

Section PipelineFacts.
Context `{JsSort}.

(** Every sort mode returns a permutation of the filtered products. *)
Lemma applyFilters_perm products qr rand n :
  Permutation (filter (keep_query qr) products) (fst (applyFilters products qr rand n)).
Proof.
  unfold applyFilters, sortFiltered.
  destruct (sortMode_of (sortValue qr)); simpl; auto using js_sort_perm, sortM_perm.
Qed.

(** C1: a product is in the result exactly when it is in the catalog and
    meets the five conditions of the filter (opportunity, brand,
    category, price range inclusive at both ends, search text), in every
    sort mode and whatever [Math.random()] returns. *)
Theorem applyFilters_In products qr rand n p :
  In p (fst (applyFilters products qr rand n)) <-> In p products /\ passes qr p.
Proof.
  rewrite <- keep_query_spec, <- filter_In.
  split; apply Permutation_in; [symmetry|]; apply applyFilters_perm.
Qed.
End PipelineFacts.

Section SortFacts.
Context `{JsSort}.

(** C5: "Mais recentes" lists the products newest first: along the
    result [addedAt] never increases, and products with the same
    [addedAt] keep their catalog order. *)
Theorem applyFilters_recent products qr rand n :
  sortMode_of (sortValue qr) = Recent ->
  let r := fst (applyFilters products qr rand n) in
  Sorted (fun a b => (addedAt b <= addedAt a)%Z) r
  /\ forall x, filter (fun z => Z.eqb (addedAt z) (addedAt x)) r
         = filter (fun z => Z.eqb (addedAt z) (addedAt x)) (filter (keep_query qr) products).
Proof.
  intros Hm. unfold applyFilters. rewrite Hm. simpl. split.
  - eapply Sorted_weaken; [apply cmp_le_recent|]. apply sortM_sorted; auto with catalog.
  - intros x. rewrite <- !(filter_ext _ _ (eq_class_recent x)).
    apply sortM_stable; auto with catalog.
Qed.

(** C4: "Menor preço" lists the products by ascending price, products of
    equal price in catalog order. *)
Theorem applyFilters_price_asc products qr rand n :
  sortMode_of (sortValue qr) = PriceAsc ->
  let r := fst (applyFilters products qr rand n) in
  Sorted (fun a b => price a <= price b) r
  /\ forall x, filter (fun z => Qeq_bool (price z) (price x)) r
         = filter (fun z => Qeq_bool (price z) (price x)) (filter (keep_query qr) products).
Proof.
  intros Hm. unfold applyFilters. rewrite Hm. simpl. split.
  - eapply Sorted_weaken; [apply cmp_le_price_asc|]. apply sortM_sorted; auto with catalog.
  - intros x. rewrite <- !(filter_ext _ _ (eq_class_price x)).
    apply sortM_stable; auto with catalog.
Qed.

(** The five branches of the [if/else if] chain on the sort select. *)
Lemma sortMode_of_cases v :
  (v = ustr "price-asc" /\ sortMode_of v = PriceAsc)
  \/ (v = ustr "price-desc" /\ sortMode_of v = PriceDesc)
  \/ (v = ustr "recent" /\ sortMode_of v = Recent)
  \/ (v = ustr "relevance" /\ sortMode_of v = Relevance)
  \/ (~ In v [ustr "price-asc"; ustr "price-desc"; ustr "recent"; ustr "relevance"]
      /\ sortMode_of v = NoSort).
Proof.
  unfold sortMode_of.
  destruct (jsstr_eqb v (ustr "price-asc")) eqn:E1; [left; apply jsstr_eqb_eq in E1; auto|right].
  destruct (jsstr_eqb v (ustr "price-desc")) eqn:E2; [left; apply jsstr_eqb_eq in E2; auto|right].
  destruct (jsstr_eqb v (ustr "recent")) eqn:E3; [left; apply jsstr_eqb_eq in E3; auto|right].
  destruct (jsstr_eqb v (ustr "relevance")) eqn:E4; [left; apply jsstr_eqb_eq in E4; auto|right].
  split; [|reflexivity].
  intros [<-|[<-|[<-|[<-|[]]]]]; vm_compute in E1, E2, E3, E4; congruence.
Qed.

(** C18: the sort select's value selects the order: "price-asc",
    "price-desc", "recent" and "relevance" each select their own
    comparator and nothing else does; any other value (the default)
    leaves the filtered catalog in catalog order and draws no random
    number. *)
Theorem sort_dispatch products qr rand n :
  (forall v, (sortMode_of v = PriceAsc <-> v = ustr "price-asc")
          /\ (sortMode_of v = PriceDesc <-> v = ustr "price-desc")
          /\ (sortMode_of v = Recent <-> v = ustr "recent")
          /\ (sortMode_of v = Relevance <-> v = ustr "relevance"))
  /\ (~ In (sortValue qr) [ustr "price-asc"; ustr "price-desc"; ustr "recent"; ustr "relevance"] ->
      applyFilters products qr rand n = (filter (keep_query qr) products, n)).
Proof.
  split.
  - intros v. destruct (sortMode_of_cases v) as [[-> E]|[[-> E]|[[-> E]|[[-> E]|[Hn E]]]]];
      rewrite E; repeat split; intros Hq; try discriminate; try reflexivity;
      try (revert Hq; distinct_options);
      (exfalso; apply Hn; subst v; cbn; tauto).
  - intros Hn. unfold applyFilters.
    destruct (sortMode_of_cases (sortValue qr)) as [[E _]|[[E _]|[[E _]|[[E _]|[_ ->]]]]];
      [exfalso; apply Hn; rewrite E; cbn; tauto ..|reflexivity].
Qed.

(** Filtering is idempotent: running the pipeline again, with the
    same inputs, on its own result as the catalog gives the same list, in
    every sort mode but "relevance". *)
Theorem applyFilters_idempotent products qr rand rand' n n' :
  sortMode_of (sortValue qr) <> Relevance ->
  fst (applyFilters (fst (applyFilters products qr rand n)) qr rand' n')
  = fst (applyFilters products qr rand n).
Proof.
  intros Hm. remember (fst (applyFilters products qr rand n)) as r eqn:Er.
  assert (Hf : filter (keep_query qr) r = r).
  { apply forallb_filter_id, forallb_forall. intros p Hp. subst r.
    apply (Permutation_in p (Permutation_sym (applyFilters_perm products qr rand n))) in Hp.
    apply filter_In in Hp. apply Hp. }
  unfold applyFilters at 1. rewrite Hf. subst r. unfold applyFilters, sortFiltered.
  destruct (sortMode_of (sortValue qr)); simpl; try congruence;
    apply js_sort_sorted_id; auto with catalog; apply sortM_sorted; auto with catalog.
Qed.

(** With prices pairwise distinct, two products level for the
    descending comparator are the same product. *)
Lemma filter_level_desc_all_eq l x :
  (forall a b, In a l -> In b l -> price a == price b -> a = b) ->
  forall z w, In z (filter (eq_class cmp_price_desc x) l) ->
  In w (filter (eq_class cmp_price_desc x) l) -> w = z.
Proof.
  intros Hd z w Hz Hw. apply filter_In in Hz as [Hz Ez], Hw as [Hw Ew].
  apply Hd; auto. pose proof (eq_class_trans _ cmp_price_desc_consistent x w z Ew Ez) as E.
  rewrite cmp_price_desc_key in E. apply Qeq_alt in E. symmetry. exact E.
Qed.

(** C10: on products of pairwise distinct prices, "Maior preço" is
    "Menor preço" reversed. *)
Theorem price_desc_rev_asc l rand n :
  (forall a b, In a l -> In b l -> price a == price b -> a = b) ->
  rev (fst (sortFiltered PriceAsc rand l n)) = fst (sortFiltered PriceDesc rand l n).
Proof.
  intros Hd. simpl. apply (sorted_stable_unique cmp_price_desc cmp_price_desc_consistent).
  - apply StronglySorted_Sorted, (StronglySorted_rev (cmp_le cmp_price_asc)).
    apply Sorted_StronglySorted; [exact (cmp_trans _ cmp_price_asc_consistent)|].
    apply sortM_sorted; auto with catalog.
  - apply sortM_sorted; auto with catalog.
  - intros x.
    assert (P1 : Permutation (filter (eq_class cmp_price_desc x) l)
                   (filter (eq_class cmp_price_desc x) (rev (js_sort cmp_price_asc l))))
      by (apply filter_Permutation; rewrite <- Permutation_rev; apply js_sort_perm).
    assert (P2 : Permutation (filter (eq_class cmp_price_desc x) l)
                   (filter (eq_class cmp_price_desc x) (js_sort cmp_price_desc l)))
      by (apply filter_Permutation, js_sort_perm).
    destruct (filter (eq_class cmp_price_desc x) l) as [|z rest] eqn:F.
    + apply Permutation_nil in P1, P2. unfold js_sort in *. rewrite P1, P2. reflexivity.
    + apply (Permutation_all_eq _ _ z); [rewrite <- P1; exact P2|].
      intros w Hw. rewrite <- P1, <- F in Hw.
      apply (filter_level_desc_all_eq l x Hd); [rewrite F; left; reflexivity|exact Hw].
Qed.
End SortFacts.

(** ** The "relevance" order is decided by [Math.random()] *)

Lemma cmp_relevance_const rand o :
  (forall m, Qcompare ((1 # 2) - rand m) 0 = o) ->
  forall a b s, fst (cmp_relevance rand a b s) = o.
Proof. intros Hr a b s. apply Hr. Qed.

(** In "relevance" mode the order is whatever the random draws make
    it: with the insertion sort, draws all below 1/2 reverse the filtered
    catalog and draws all above 1/2 keep it, so one state of the page
    shows different orders on different runs. *)
Theorem applyFilters_relevance products qr rand n :
  sortMode_of (sortValue qr) = Relevance ->
  ((forall m, rand m < 1 # 2) ->
     fst (@applyFilters isort_JsSort products qr rand n)
     = rev (filter (keep_query qr) products))
  /\ ((forall m, 1 # 2 < rand m) ->
     fst (@applyFilters isort_JsSort products qr rand n)
     = filter (keep_query qr) products).
Proof.
  intros Hm. unfold applyFilters. rewrite Hm. simpl. split; intros Hr.
  - apply isortM_always_gt, cmp_relevance_const.
    intros m. apply (proj1 (Qgt_alt _ _)). specialize (Hr m). lra.
  - apply isortM_always_lt, cmp_relevance_const.
    intros m. apply (proj1 (Qlt_alt _ _)). specialize (Hr m). lra.
Qed.

(** ** Independence from the sort implementation *)

(** Outside "relevance" mode, every implementation of
    [Array.prototype.sort] gives the pipeline the same result as the
    insertion sort: the model's choice of algorithm does not show. *)
Theorem applyFilters_any_sort `{JsSort} products qr rand n :
  sortMode_of (sortValue qr) <> Relevance ->
  applyFilters products qr rand n = @applyFilters isort_JsSort products qr rand n.
Proof.
  intros Hm. unfold applyFilters, sortFiltered.
  destruct (sortMode_of (sortValue qr)); try congruence; try reflexivity;
    f_equal; rewrite js_sort_unique by auto with catalog;
    symmetry; apply (js_sort_unique (H := isort_JsSort)); auto with catalog.
Qed.

(** ** The examples of the specification, on the seed catalog *)

Definition no_filter (v : jsstr) : query := mkQuery v [] [] false JNaN JNaN [].

(** On the seed catalog, whatever [Date.now()] returned: the search
    "filtro" finds products 1, 5 and 9, which "Menor preço" orders 5
    (45.30), 9 (60.00), 1 (120.00); brand Bosch with prices 200 to 300
    finds products 2 and 10; "opportunity" finds 1, 3, 6, 8 and 10. *)
Theorem spec_examples now rand n :
  let ps := createSampleProducts now in
  map id (fst (applyFilters ps (no_filter (ustr "filtro")) rand n)) = [1; 5; 9]%Z
  /\ map id (fst (applyFilters ps
       (mkQuery (ustr "filtro") [] [] false JNaN JNaN (ustr "price-asc")) rand n)) = [5; 9; 1]%Z
  /\ map id (fst (applyFilters ps
       (mkQuery [] [ustr "Bosch"] [] false (JFin 200) (JFin 300) []) rand n)) = [2; 10]%Z
  /\ map id (fst (applyFilters ps (mkQuery [] [] [] true JNaN JNaN []) rand n))
     = [1; 3; 6; 8; 10]%Z.
Proof.
  cbn zeta. repeat split; vm_compute; reflexivity.
Qed.

(** ** A maximum price of 0 *)

(** C12: [parseFloat(priceMax.value) || Infinity] reads a maximum of 0 as
    no maximum at all: the pipeline returns what it returns when the field
    is empty, though no product costs 0 or less. *)
Theorem max_zero_is_unbounded `{JsSort} products qr rand n :
  priceMaxV qr = JFin 0 ->
  applyFilters products qr rand n
  = applyFilters products
      (mkQuery (searchValue qr) (selectedBrands qr) (selectedCats qr) (onlyOpportunity qr)
         (priceMinV qr) JNaN (sortValue qr)) rand n.
Proof.
  intros E. unfold applyFilters, keep_query, maxP, minP, num_or. simpl. rewrite E. reflexivity.
Qed.

(** ** Witnesses: the theorems above at concrete inputs *)

Lemma applyFilters_price_asc_witness :
  sortMode_of (ustr "price-asc") = PriceAsc
  /\ Sorted (fun a b => price a <= price b)
       (fst (applyFilters (createSampleProducts (fun _ => 0%Z))
              (mkQuery [] [] [] false JNaN JNaN (ustr "price-asc")) (fun _ => 0) 0%nat)).
Proof.
  split; [vm_compute; reflexivity|].
  exact (proj1 (applyFilters_price_asc (createSampleProducts (fun _ => 0%Z))
    (mkQuery [] [] [] false JNaN JNaN (ustr "price-asc")) (fun _ => 0) 0%nat
    ltac:(vm_compute; reflexivity))).
Defined.

Lemma applyFilters_recent_witness :
  sortMode_of (ustr "recent") = Recent
  /\ Sorted (fun a b => (addedAt b <= addedAt a)%Z)
       (fst (applyFilters (createSampleProducts (fun i => Z.of_nat i))
              (mkQuery [] [] [] false JNaN JNaN (ustr "recent")) (fun _ => 0) 0%nat)).
Proof.
  split; [vm_compute; reflexivity|].
  exact (proj1 (applyFilters_recent (createSampleProducts (fun i => Z.of_nat i))
    (mkQuery [] [] [] false JNaN JNaN (ustr "recent")) (fun _ => 0) 0%nat
    ltac:(vm_compute; reflexivity))).
Defined.

Lemma sort_dispatch_witness :
  ~ In (ustr "default") [ustr "price-asc"; ustr "price-desc"; ustr "recent"; ustr "relevance"]
  /\ applyFilters (createSampleProducts (fun _ => 0%Z)) (mkQuery [] [] [] false JNaN JNaN (ustr "default")) (fun _ => 0) 3%nat
     = (filter (keep_query (mkQuery [] [] [] false JNaN JNaN (ustr "default"))) (createSampleProducts (fun _ => 0%Z)), 3%nat).
Proof.
  assert (Hn : ~ In (ustr "default") [ustr "price-asc"; ustr "price-desc"; ustr "recent"; ustr "relevance"])
    by (intros [H|[H|[H|[H|[]]]]]; revert H; distinct_options).
  split; [exact Hn|].
  apply (proj2 (sort_dispatch (createSampleProducts (fun _ => 0%Z))
    (mkQuery [] [] [] false JNaN JNaN (ustr "default")) (fun _ => 0) 3%nat)). exact Hn.
Defined.

Lemma price_desc_rev_asc_witness :
  (forall a b, In a (createSampleProducts (fun _ => 0%Z)) ->
     In b (createSampleProducts (fun _ => 0%Z)) -> price a == price b -> a = b)
  /\ rev (fst (sortFiltered PriceAsc (fun _ => 0) (createSampleProducts (fun _ => 0%Z)) 0%nat))
     = fst (sortFiltered PriceDesc (fun _ => 0) (createSampleProducts (fun _ => 0%Z)) 0%nat).
Proof.
  assert (Hd : forall a b, In a (createSampleProducts (fun _ => 0%Z)) ->
     In b (createSampleProducts (fun _ => 0%Z)) -> price a == price b -> a = b).
  { intros a b Ha Hb E. simpl in Ha, Hb.
    repeat destruct Ha as [<-|Ha]; repeat destruct Hb as [<-|Hb]; try contradiction;
      try reflexivity; vm_compute in E; discriminate. }
  split; [exact Hd|]. apply price_desc_rev_asc. exact Hd.
Defined.

Lemma max_zero_is_unbounded_witness :
  priceMaxV (mkQuery [] [] [] false JNaN (JFin 0) []) = JFin 0
  /\ map id (fst (applyFilters (createSampleProducts (fun _ => 0%Z))
       (mkQuery [] [] [] false JNaN (JFin 0) []) (fun _ => 0) 0%nat))
     = [1; 2; 3; 4; 5; 6; 7; 8; 9; 10]%Z.
Proof.
  split; [reflexivity|].
  rewrite (max_zero_is_unbounded (createSampleProducts (fun _ => 0%Z))
    (mkQuery [] [] [] false JNaN (JFin 0) []) (fun _ => 0) 0%nat eq_refl).
  vm_compute. reflexivity.
Defined.
