(* ===== verification/V8Sort.v ===== *)
(** * V8's [Array.prototype.sort] on short arrays

    [JsArray] states the contract of [Array.prototype.sort] as the class
    [JsSort] and gives an insertion sort as one implementation.  This file
    gives the one the page meets in Chrome and Node (V8 7.0 and later,
    [third_party/v8/builtins/array-sort.tq]): TimSort, which on an array
    of fewer than 64 elements is a single run.  [CountAndMakeRun] takes
    the longest non-descending or strictly descending prefix, reversing
    the latter, and [BinaryInsertionSort] inserts every later element
    into it after a binary search.  Every array the script sorts has at
    most fifteen elements (ten products, eight brands, seven categories),
    so the merges of longer runs are never reached; [v8_sortM] applies
    the same two steps to arrays of any length, which is still a correct
    sort.

    The comparator is a computation in [St], as in [JsArray], so the
    draws of the "relevance" comparator are made in V8's order.  The
    results: [v8_JsSort] meets the contract (a permutation for every
    comparator, sorted and stable for consistent ones), hence
    [v8_sort_eq_isort]: on a consistent comparator V8 returns the
    insertion sort's result.  On the comparator of "relevance" the order
    V8 shows is decided by the draws ([applyFilters_relevance_v8]), and
    with the same draws it is the reverse of the insertion sort's
    ([relevance_engine_dependent]). *)

From Stdlib Require Import String.
From Stdlib Require Import List Bool Arith ZArith QArith Lia Lqa Sorted Permutation.
From S2P Require Import Prelude JsString JsArray JsNumber Catalog Query.
Import ListNotations.
Local Open Scope nat_scope.
Local Open Scope st_scope.

Definition is_lt (o : comparison) : bool := match o with Lt => true | _ => false end.

(** The test that ends the run: [if (isDescending) { if (order >= 0)
    break; } else { if (order < 0) break; }]. *)
Definition run_breaks (desc : bool) (o : comparison) : bool :=
  if desc then negb (is_lt o) else is_lt o.

(** [array.slice(0, k)] with [x] at index [k]: the shift loop of
    [BinaryInsertionSort] and the store of the pivot. *)
Definition insert_at {A} (k : nat) (x : A) (l : list A) : list A := firstn k l ++ x :: skipn k l.

Section V8M.
Context {T A : Type} (c : A -> A -> St T comparison).

(** The loop of [CountAndMakeRun]: [prev] is the last element of the run
    so far; the result is the rest of the run and what follows it. *)
Fixpoint run_loop (desc : bool) (prev : A) (l : list A) : St T (list A * list A) :=
  match l with
  | [] => ret ([], [])
  | x :: l' =>
      o <- c x prev ;;
      if run_breaks desc o then ret ([], l)
      else r <- run_loop desc x l' ;; ret (x :: fst r, snd r)
  end.

(** [CountAndMakeRun(0, n)]: [order = Compare(a[1], a[0])] fixes the
    direction; a descending run is reversed in place
    ([ReverseRange]).  Arrays of fewer than two elements are returned by
    [ArrayTimSortImpl] before any comparison. *)
Definition count_and_make_run (l : list A) : St T (list A * list A) :=
  match l with
  | a0 :: a1 :: l' =>
      o <- c a1 a0 ;;
      r <- run_loop (is_lt o) a1 l' ;;
      let run := a0 :: a1 :: fst r in
      ret (if is_lt o then rev run else run, snd r)
  | _ => ret (l, [])
  end.

(** The binary search of [BinaryInsertionSort]: [while (left < right)
    { mid = left + ((right - left) >> 1); order = Compare(pivot, a[mid]);
    if (order < 0) right = mid; else left = mid + 1; }].  Every step
    shrinks [right - left], so that much fuel is enough
    ([bsearch_p_spec]). *)
Fixpoint bsearch (fuel : nat) (pivot : A) (pre : list A) (left right : nat) : St T nat :=
  match fuel with
  | O => ret left
  | S f =>
      if left <? right then
        let mid := left + Nat.div2 (right - left) in
        o <- c pivot (nth mid pre pivot) ;;
        match o with
        | Lt => bsearch f pivot pre left mid
        | _ => bsearch f pivot pre (S mid) right
        end
      else ret left
  end.

(** The outer loop of [BinaryInsertionSort]: the sorted prefix [pre]
    takes the elements of [rest] one by one. *)
Fixpoint binary_insertion (pre rest : list A) : St T (list A) :=
  match rest with
  | [] => ret pre
  | x :: rest' =>
      k <- bsearch (length pre) x pre 0 (length pre) ;;
      binary_insertion (insert_at k x pre) rest'
  end.

(** [ArrayTimSortImpl] on an array of fewer than 64 elements: one run,
    extended by binary insertion to the whole array. *)
Definition v8_sortM (l : list A) : St T (list A) :=
  r <- count_and_make_run l ;; binary_insertion (fst r) (snd r).
End V8M.

(** ** The same with a pure comparator *)

Section V8Pure.
Context {A : Type} (cmp : A -> A -> comparison).

Fixpoint run_loop_p (desc : bool) (prev : A) (l : list A) : list A * list A :=
  match l with
  | [] => ([], [])
  | x :: l' =>
      if run_breaks desc (cmp x prev) then ([], l)
      else let r := run_loop_p desc x l' in (x :: fst r, snd r)
  end.

Definition make_run_p (l : list A) : list A * list A :=
  match l with
  | a0 :: a1 :: l' =>
      let r := run_loop_p (is_lt (cmp a1 a0)) a1 l' in
      let run := a0 :: a1 :: fst r in
      (if is_lt (cmp a1 a0) then rev run else run, snd r)
  | _ => (l, [])
  end.

Fixpoint bsearch_p (fuel : nat) (pivot : A) (pre : list A) (left right : nat) : nat :=
  match fuel with
  | O => left
  | S f =>
      if left <? right then
        let mid := left + Nat.div2 (right - left) in
        match cmp pivot (nth mid pre pivot) with
        | Lt => bsearch_p f pivot pre left mid
        | _ => bsearch_p f pivot pre (S mid) right
        end
      else left
  end.

Fixpoint binary_insertion_p (pre rest : list A) : list A :=
  match rest with
  | [] => pre
  | x :: rest' => binary_insertion_p (insert_at (bsearch_p (length pre) x pre 0 (length pre)) x pre) rest'
  end.

Definition v8_sort (l : list A) : list A :=
  let r := make_run_p l in binary_insertion_p (fst r) (snd r).

(** The pure comparator neither reads nor changes the state. *)
Lemma run_loop_pure {S} desc prev l (s : S) :
  run_loop (pure_cmp cmp) desc prev l s = (run_loop_p desc prev l, s).
Proof.
  revert prev s. induction l as [|x l IH]; intros prev s; [reflexivity|].
  cbn. destruct (run_breaks desc (cmp x prev)); [reflexivity|].
  rewrite (st_bind_eq _ _ _ _ _ (IH x s)). reflexivity.
Qed.

Lemma bsearch_pure {S} f x pre lo hi (s : S) :
  bsearch (pure_cmp cmp) f x pre lo hi s = (bsearch_p f x pre lo hi, s).
Proof.
  revert lo hi. induction f as [|f IH]; intros lo hi; [reflexivity|].
  cbn [bsearch bsearch_p]. destruct (lo <? hi); [|reflexivity].
  cbn [st_bind pure_cmp st_ret]. destruct (cmp x _); apply IH.
Qed.

Lemma binary_insertion_pure {S} pre rest (s : S) :
  binary_insertion (pure_cmp cmp) pre rest s = (binary_insertion_p pre rest, s).
Proof.
  revert pre. induction rest as [|x rest IH]; intros pre; [reflexivity|].
  cbn. unfold st_bind at 1. rewrite bsearch_pure. apply IH.
Qed.

Lemma count_and_make_run_pure {S} l (s : S) :
  count_and_make_run (pure_cmp cmp) l s = (make_run_p l, s).
Proof.
  destruct l as [|a0 [|a1 l]]; try reflexivity.
  unfold count_and_make_run. unfold pure_cmp at 1. rewrite st_bind_ret.
  rewrite (st_bind_eq _ _ _ _ _ (run_loop_pure _ _ _ _)). reflexivity.
Qed.

Lemma v8_sortM_pure {S} l (s : S) : v8_sortM (pure_cmp cmp) l s = (v8_sort l, s).
Proof.
  unfold v8_sortM. rewrite (st_bind_eq _ _ _ _ _ (count_and_make_run_pure l s)).
  apply binary_insertion_pure.
Qed.
End V8Pure.

(** ** A permutation for every comparator *)

Section V8Perm.
Context {T A : Type} (c : A -> A -> St T comparison).

Lemma run_loop_app desc prev l s :
  l = fst (fst (run_loop c desc prev l s)) ++ snd (fst (run_loop c desc prev l s)).
Proof.
  revert prev s. induction l as [|x l IH]; intros prev s; [reflexivity|].
  cbn. unfold st_bind. destruct (c x prev s) as [o s1]. destruct (run_breaks desc o); [reflexivity|].
  specialize (IH x s1). destruct (run_loop c desc x l s1) as [[r rest] s2]. cbn in *. rewrite IH at 1.
  reflexivity.
Qed.

Lemma count_and_make_run_perm l s :
  Permutation l (fst (fst (count_and_make_run c l s)) ++ snd (fst (count_and_make_run c l s))).
Proof.
  destruct l as [|a0 [|a1 l]]; try (cbn; rewrite ?app_nil_r; reflexivity).
  cbn. unfold st_bind. destruct (c a1 a0 s) as [o s1].
  pose proof (run_loop_app (is_lt o) a1 l s1) as E.
  destruct (run_loop c (is_lt o) a1 l s1) as [[r rest] s2]. cbn [fst snd] in *. rewrite E at 1.
  destruct (is_lt o); [|reflexivity].
  change (a0 :: a1 :: r ++ rest) with ((a0 :: a1 :: r) ++ rest).
  apply Permutation_app_tail. apply Permutation_rev.
Qed.

Lemma insert_at_perm k (x : A) l : Permutation (x :: l) (insert_at k x l).
Proof.
  unfold insert_at. rewrite <- (firstn_skipn k l) at 1. apply Permutation_middle.
Qed.

Lemma binary_insertion_perm pre rest s :
  Permutation (pre ++ rest) (fst (binary_insertion c pre rest s)).
Proof.
  revert pre s. induction rest as [|x rest IH]; intros pre s; cbn; [rewrite app_nil_r; reflexivity|].
  unfold st_bind. destruct (bsearch c _ x pre 0 _ s) as [k s1].
  rewrite <- IH, <- insert_at_perm. apply Permutation_sym, Permutation_middle.
Qed.

Lemma v8_sortM_perm l s : Permutation l (fst (v8_sortM c l s)).
Proof.
  unfold v8_sortM, st_bind. pose proof (count_and_make_run_perm l s) as P.
  destruct (count_and_make_run c l s) as [[run rest] s1]. cbn in *.
  rewrite P. apply binary_insertion_perm.
Qed.

(** A comparator that always answers [Gt] ([order > 0]) makes one
    ascending run of the whole array; one that always answers [Lt], one
    descending run, which is reversed. *)
Lemma run_loop_const desc prev l s o :
  (forall a b s, fst (c a b s) = o) -> run_breaks desc o = false ->
  fst (run_loop c desc prev l s) = (l, []).
Proof.
  intros Hc Hb. revert prev s. induction l as [|x l IH]; intros prev s; [reflexivity|].
  cbn. unfold st_bind. destruct (c x prev s) as [o' s1] eqn:E.
  assert (o' = o) as -> by (rewrite <- (Hc x prev s), E; reflexivity). rewrite Hb.
  specialize (IH x s1). destruct (run_loop c desc x l s1) as [[r rest] s2]. cbn in *.
  injection IH as -> ->. reflexivity.
Qed.

Lemma v8_sortM_const l s o :
  (forall a b s, fst (c a b s) = o) -> o <> Eq ->
  fst (v8_sortM c l s) = match o with Lt => rev l | _ => l end.
Proof.
  intros Hc Ho. unfold v8_sortM, count_and_make_run, st_bind.
  destruct l as [|a0 [|a1 l]]; [destruct o; reflexivity|destruct o; reflexivity|].
  destruct (c a1 a0 s) as [o' s1] eqn:E.
  assert (o' = o) as -> by (rewrite <- (Hc a1 a0 s), E; reflexivity).
  assert (Hb : run_breaks (is_lt o) o = false) by (destruct o; reflexivity).
  pose proof (run_loop_const (is_lt o) a1 l s1 o Hc Hb) as R.
  destruct (run_loop c (is_lt o) a1 l s1) as [[r rest] s2]. cbn in R. injection R as -> ->.
  destruct o; [congruence|reflexivity|reflexivity].
Qed.
End V8Perm.

(** ** Sorted and stable for a consistent comparator *)

Section V8Sorted.
Context {A : Type} (cmp : A -> A -> comparison) (Hc : consistent cmp).

Lemma not_lt_le x y : cmp x y <> Lt -> cmp_le cmp y x.
Proof. unfold cmp_le. rewrite (cmp_antisym cmp Hc x y). destruct (cmp x y); cbn; congruence. Qed.

Lemma lt_le x y : cmp x y = Lt -> cmp_le cmp x y.
Proof. unfold cmp_le. intros ->. discriminate. Qed.

Lemma lt_le_lt x a b : cmp x a = Lt -> cmp_le cmp a b -> cmp x b = Lt.
Proof.
  intros H1 H2. destruct (cmp x b) eqn:E; [exfalso|reflexivity|exfalso];
    (assert (Hb : cmp_le cmp b x) by (apply not_lt_le; congruence));
    pose proof (cmp_trans cmp Hc a b x H2 Hb) as Ha; unfold cmp_le in Ha;
    rewrite (cmp_antisym cmp Hc x a), H1 in Ha; apply Ha; reflexivity.
Qed.

(** A sorted array splits at the place of [x]: first the elements [x]
    is not below, then the ones it is below. *)
Lemma sorted_split x pre :
  Sorted (cmp_le cmp) pre -> exists u v, pre = u ++ v
    /\ Forall (fun y => cmp x y <> Lt) u /\ Forall (fun y => cmp x y = Lt) v.
Proof.
  induction pre as [|y ys IH]; intros Hs; [exists [], []; auto|].
  destruct (cmp x y) eqn:E.
  2: { exists [], (y :: ys). split; [reflexivity|split; [constructor|]].
       apply Forall_forall. intros z [<-|Hz]; [exact E|].
       apply (lt_le_lt x y z E), (Sorted_head_all _ y ys (cmp_trans cmp Hc) Hs z Hz). }
  all: destruct (IH (proj1 (Sorted_inv Hs))) as (u & v & -> & Hu & Hv);
    exists (y :: u), v; split; [reflexivity|split; [constructor; [congruence|exact Hu]|exact Hv]].
Qed.

(** The binary search finds that place, given as much fuel as the width
    of the range. *)
Lemma bsearch_p_spec x u v f lo hi :
  Forall (fun y => cmp x y <> Lt) u -> Forall (fun y => cmp x y = Lt) v ->
  lo <= length u <= hi -> hi <= length u + length v -> hi - lo <= f ->
  bsearch_p cmp f x (u ++ v) lo hi = length u.
Proof.
  intros Hu Hv. revert lo hi. induction f as [|f IH]; intros lo hi H1 H2 H3; cbn [bsearch_p]; [lia|].
  destruct (Nat.ltb_spec lo hi) as [Hlt|]; [|lia].
  assert (Hd : Nat.div2 (hi - lo) < hi - lo) by (apply Nat.lt_div2; lia).
  set (d := Nat.div2 (hi - lo)) in *. set (mid := lo + d).
  assert (Hm : cmp x (nth mid (u ++ v) x) = Lt <-> length u <= mid).
  { destruct (Nat.ltb_spec mid (length u)).
    - rewrite app_nth1 by lia. rewrite Forall_forall in Hu.
      split; [intros E; exfalso; exact (Hu _ (nth_In u x H) E)|lia].
    - rewrite app_nth2 by lia. rewrite Forall_forall in Hv.
      split; [lia|intros _; apply Hv, nth_In; unfold mid; lia]. }
  destruct (cmp x (nth mid (u ++ v) x)) eqn:E.
  2: assert (length u <= mid) by (apply Hm; reflexivity); apply IH; unfold mid in *; clearbody d; lia.
  all: assert (~ length u <= mid) by (intros Hle; apply Hm in Hle; discriminate);
    apply IH; unfold mid in *; clearbody d; lia.
Qed.

Lemma insert_at_split (x : A) u v : insert_at (length u) x (u ++ v) = u ++ x :: v.
Proof.
  unfold insert_at. rewrite firstn_app, skipn_app, Nat.sub_diag, firstn_all, skipn_all. cbn.
  rewrite app_nil_r. reflexivity.
Qed.

Lemma sorted_insert_mid x u v :
  Sorted (cmp_le cmp) (u ++ v) -> Forall (fun y => cmp x y <> Lt) u -> Forall (fun y => cmp x y = Lt) v ->
  Sorted (cmp_le cmp) (u ++ x :: v).
Proof.
  intros Hs Hu Hv. apply StronglySorted_Sorted, StronglySorted_insert_mid.
  - apply Sorted_StronglySorted; [exact (cmp_trans cmp Hc)|exact Hs].
  - eapply Forall_impl; [|exact Hu]. intros y. apply not_lt_le.
  - eapply Forall_impl; [|exact Hv]. intros y. apply lt_le.
Qed.

(** No element of [v] is level with [x]: none is in [x]'s class. *)
Lemma filter_class_nil x0 x v :
  eq_class cmp x0 x = true -> Forall (fun y => cmp x y <> Eq) v -> filter (eq_class cmp x0) v = [].
Proof.
  intros Ex Hv. apply filter_nil_forall. intros y Hy. rewrite Forall_forall in Hv.
  destruct (eq_class cmp x0 y) eqn:Ey; [|reflexivity].
  exfalso. exact (Hv y Hy (eq_class_trans cmp Hc x0 x y Ex Ey)).
Qed.

(** The pivot goes after the elements level with it: within its class
    it stays after the elements that came before it. *)
Lemma filter_insert_mid x0 x u v :
  Forall (fun y => cmp x y = Lt) v ->
  filter (eq_class cmp x0) (u ++ x :: v) = filter (eq_class cmp x0) (u ++ v ++ [x]).
Proof.
  intros Hv. rewrite !filter_app. f_equal. cbn. destruct (eq_class cmp x0 x) eqn:Ex.
  - rewrite (filter_class_nil x0 x v Ex); [reflexivity|].
    eapply Forall_impl; [|exact Hv]. intros y ->. discriminate.
  - rewrite app_nil_r. reflexivity.
Qed.

Lemma binary_insertion_p_ok pre rest :
  Sorted (cmp_le cmp) pre ->
  Sorted (cmp_le cmp) (binary_insertion_p cmp pre rest)
  /\ forall x0, filter (eq_class cmp x0) (binary_insertion_p cmp pre rest)
                = filter (eq_class cmp x0) (pre ++ rest).
Proof.
  revert pre. induction rest as [|x rest IH]; intros pre Hs; cbn.
  - split; [exact Hs|intros x0; rewrite app_nil_r; reflexivity].
  - destruct (sorted_split x pre Hs) as (u & v & -> & Hu & Hv).
    rewrite length_app, (bsearch_p_spec x u v) by (auto; lia). rewrite insert_at_split.
    destruct (IH (u ++ x :: v) (sorted_insert_mid x u v Hs Hu Hv)) as [H1 H2].
    split; [exact H1|]. intros x0. rewrite H2, filter_app, (filter_insert_mid x0 x u v Hv).
    rewrite <- filter_app. f_equal. rewrite <- !app_assoc. reflexivity.
Qed.
End V8Sorted.

Section V8Run.
Context {A : Type} (cmp : A -> A -> comparison) (Hc : consistent cmp).

(** The relation between neighbours of a descending run: each is below
    the one before it. *)
Definition desc_rel (a b : A) : Prop := cmp b a = Lt.

Lemma desc_rel_trans a b c : desc_rel a b -> desc_rel b c -> desc_rel a c.
Proof. unfold desc_rel. intros H1 H2. exact (lt_le_lt cmp Hc c b a H2 (lt_le cmp b a H1)). Qed.

(** An ascending run: each element is not below the one before it. *)
Lemma run_loop_asc prev l :
  Sorted (cmp_le cmp) (prev :: fst (run_loop_p cmp false prev l))
  /\ l = fst (run_loop_p cmp false prev l) ++ snd (run_loop_p cmp false prev l).
Proof.
  revert prev. induction l as [|x l IH]; intros prev; cbn; [split; auto|].
  destruct (cmp x prev) eqn:E; cbn; try (split; auto; fail);
    destruct (IH x) as [Hs Hl]; (split; [constructor; [exact Hs|constructor; apply not_lt_le; congruence]
                                        |rewrite Hl at 1; reflexivity]).
Qed.

(** A descending run: each element is below the one before it. *)
Lemma run_loop_desc prev l :
  Sorted desc_rel (prev :: fst (run_loop_p cmp true prev l))
  /\ l = fst (run_loop_p cmp true prev l) ++ snd (run_loop_p cmp true prev l).
Proof.
  revert prev. induction l as [|x l IH]; intros prev; cbn; [split; auto|].
  destruct (cmp x prev) eqn:E; cbn; try (split; auto; fail).
  destruct (IH x) as [Hs Hl]. split; [constructor; [exact Hs|constructor; exact E]|rewrite Hl at 1; reflexivity].
Qed.

(** Reversing a descending run keeps every class of level elements, which
    has at most one element of the run. *)
Lemma filter_rev_desc x0 l :
  StronglySorted desc_rel l -> filter (eq_class cmp x0) (rev l) = filter (eq_class cmp x0) l.
Proof.
  induction 1 as [|a l Hs IH Hall]; [reflexivity|]. cbn [rev]. rewrite filter_app, IH. cbn.
  destruct (eq_class cmp x0 a) eqn:Ea; [|apply app_nil_r].
  rewrite (filter_class_nil cmp Hc x0 a l Ea); [reflexivity|].
  eapply Forall_impl; [|exact Hall]. unfold desc_rel. intros b Hb.
  rewrite (cmp_antisym cmp Hc b a), Hb. discriminate.
Qed.

Lemma make_run_p_ok l :
  Sorted (cmp_le cmp) (fst (make_run_p cmp l))
  /\ forall x0, filter (eq_class cmp x0) (fst (make_run_p cmp l) ++ snd (make_run_p cmp l))
                = filter (eq_class cmp x0) l.
Proof.
  destruct l as [|a0 [|a1 l]]; cbn [make_run_p fst snd];
    try (split; [auto|intros; rewrite app_nil_r; reflexivity]).
  destruct (cmp a1 a0) eqn:E; cbn [is_lt].
  2: { destruct (run_loop_desc a1 l) as [Hs Hl].
       set (r := fst (run_loop_p cmp true a1 l)) in *. set (rest := snd (run_loop_p cmp true a1 l)) in *.
       assert (Hd : StronglySorted desc_rel (a0 :: a1 :: r))
         by (apply Sorted_StronglySorted; [exact desc_rel_trans|constructor; [exact Hs|constructor; exact E]]).
       split.
       - apply (Sorted_weaken (fun a b => desc_rel b a)); [intros a b; apply lt_le|].
         apply StronglySorted_Sorted, StronglySorted_rev, Hd.
       - intros x0. rewrite filter_app, (filter_rev_desc x0 _ Hd), <- filter_app, Hl. reflexivity. }
  all: destruct (run_loop_asc a1 l) as [Hs Hl];
    (split; [constructor; [exact Hs|constructor; apply not_lt_le; congruence]
            |intros x0; rewrite Hl at 3; reflexivity]).
Qed.

Lemma v8_sort_sorted l : Sorted (cmp_le cmp) (v8_sort cmp l).
Proof. unfold v8_sort. apply binary_insertion_p_ok; [exact Hc|apply make_run_p_ok]. Qed.

Lemma v8_sort_stable x0 l : filter (eq_class cmp x0) (v8_sort cmp l) = filter (eq_class cmp x0) l.
Proof.
  unfold v8_sort. destruct (make_run_p_ok l) as [Hs Hf].
  rewrite (proj2 (binary_insertion_p_ok cmp Hc _ _ Hs)). apply Hf.
Qed.
End V8Run.

(** ** V8's sort meets the contract *)

Program Definition v8_JsSort : JsSort := {|
  sortM := fun S A c l => v8_sortM c l
|}.
Next Obligation. apply v8_sortM_perm. Qed.
Next Obligation. rewrite v8_sortM_pure. reflexivity. Qed.
Next Obligation. rewrite !v8_sortM_pure. reflexivity. Qed.
Next Obligation. rewrite v8_sortM_pure. apply v8_sort_sorted; assumption. Qed.
Next Obligation. rewrite v8_sortM_pure. apply v8_sort_stable; assumption. Qed.

(** ** What the page sees *)

(** C20: V8's sort (run detection, then binary insertion) computes, on
    every consistent comparator, exactly what the insertion sort
    computes, whatever the state the comparator is run in: the binary
    search inserts each element after the elements level with it, where
    the linear insertion of [isort] would put it. *)
Theorem v8_sort_eq_isort {S A} (cmp : A -> A -> comparison) (l : list A) (s : S) :
  consistent cmp -> fst (v8_sortM (pure_cmp cmp) l s) = isort cmp l.
Proof.
  intros Hc. rewrite v8_sortM_pure. pose proof (@js_sort_unique v8_JsSort A cmp l Hc) as E.
  unfold js_sort in E. cbn [sortM v8_JsSort] in E. rewrite v8_sortM_pure in E. exact E.
Qed.

(** C13: in "relevance" mode the order the page shows in V8 is decided by
    the random draws: when every draw is below 1/2 each comparison is
    positive, V8 finds one ascending run and shows the filtered catalog
    in catalog order; when every draw is above 1/2 each comparison is
    negative, V8 finds one descending run and shows it reversed.  The
    same inputs give different pages on different loads. *)
Theorem applyFilters_relevance_v8 products qr rand n :
  sortMode_of (sortValue qr) = Relevance ->
  ((forall m, (rand m < 1 # 2)%Q) ->
     fst (@applyFilters v8_JsSort products qr rand n) = filter (keep_query qr) products)
  /\ ((forall m, (1 # 2 < rand m)%Q) ->
     fst (@applyFilters v8_JsSort products qr rand n) = rev (filter (keep_query qr) products)).
Proof.
  intros Hm. unfold applyFilters. rewrite Hm. cbn [sortFiltered sortM v8_JsSort].
  split; intros Hr; [apply (v8_sortM_const _ _ _ Gt)|apply (v8_sortM_const _ _ _ Lt)]; try discriminate;
    intros a b m; unfold cmp_relevance, math_random; cbn [fst]; specialize (Hr m);
    [apply (proj1 (Qgt_alt _ _))|apply (proj1 (Qlt_alt _ _))]; lra.
Qed.

(** Draws below 1/2 make [0.5 - Math.random()] positive, draws above
    1/2 negative. *)
Lemma relevance_below rand :
  (forall m, (rand m < 1 # 2)%Q) -> forall a b s, fst (cmp_relevance rand a b s) = Gt.
Proof.
  intros Hr. apply cmp_relevance_const. intros m. apply (proj1 (Qgt_alt _ _)). specialize (Hr m). lra.
Qed.

Lemma relevance_above rand :
  (forall m, (1 # 2 < rand m)%Q) -> forall a b s, fst (cmp_relevance rand a b s) = Lt.
Proof.
  intros Hr. apply cmp_relevance_const. intros m. apply (proj1 (Qlt_alt _ _)). specialize (Hr m). lra.
Qed.

(** The order also depends on the engine: on the same draws, V8 shows
    the reverse of what an insertion sort (the algorithm of V8 before 7.0
    on arrays of at most ten elements) shows. *)
Theorem relevance_engine_dependent products qr rand n :
  sortMode_of (sortValue qr) = Relevance ->
  ((forall m, (rand m < 1 # 2)%Q) \/ (forall m, (1 # 2 < rand m)%Q)) ->
  fst (@applyFilters v8_JsSort products qr rand n)
  = rev (fst (@applyFilters isort_JsSort products qr rand n)).
Proof.
  intros Hm Hr. unfold applyFilters. rewrite Hm. cbn [sortFiltered sortM v8_JsSort isort_JsSort].
  destruct Hr as [Hr|Hr].
  - rewrite (v8_sortM_const _ _ _ Gt (relevance_below rand Hr)) by discriminate.
    rewrite (isortM_always_gt _ _ _ (relevance_below rand Hr)), rev_involutive. reflexivity.
  - rewrite (v8_sortM_const _ _ _ Lt (relevance_above rand Hr)) by discriminate.
    rewrite (isortM_always_lt _ _ _ (relevance_above rand Hr)). reflexivity.
Qed.

(** ** Witness *)

Lemma v8_sort_eq_isort_witness :
  consistent cmp_price_asc
  /\ fst (v8_sortM (pure_cmp cmp_price_asc) (createSampleProducts (fun _ => 0%Z)) tt)
     = isort cmp_price_asc (createSampleProducts (fun _ => 0%Z)).
Proof.
  split; [exact cmp_price_asc_consistent|].
  apply (v8_sort_eq_isort cmp_price_asc (createSampleProducts (fun _ => 0%Z)) tt).
  exact cmp_price_asc_consistent.
Defined.

Lemma applyFilters_relevance_v8_witness :
  sortMode_of (ustr "relevance") = Relevance
  /\ map id (fst (@applyFilters v8_JsSort (createSampleProducts (fun _ => 0%Z))
        (mkQuery [] [] [] false JNaN JNaN (ustr "relevance")) (fun _ => 0%Q) 0)) = [1; 2; 3; 4; 5; 6; 7; 8; 9; 10]%Z
  /\ map id (fst (@applyFilters v8_JsSort (createSampleProducts (fun _ => 0%Z))
        (mkQuery [] [] [] false JNaN JNaN (ustr "relevance")) (fun _ => 9 # 10) 0)) = [10; 9; 8; 7; 6; 5; 4; 3; 2; 1]%Z.
Proof.
  pose proof (applyFilters_relevance_v8 (createSampleProducts (fun _ => 0%Z))
    (mkQuery [] [] [] false JNaN JNaN (ustr "relevance")) (fun _ => 0%Q) 0 ltac:(vm_compute; reflexivity)) as [A _].
  pose proof (applyFilters_relevance_v8 (createSampleProducts (fun _ => 0%Z))
    (mkQuery [] [] [] false JNaN JNaN (ustr "relevance")) (fun _ => 9 # 10) 0 ltac:(vm_compute; reflexivity))
    as [_ B].
  split; [vm_compute; reflexivity|split].
  - rewrite A by (intros; vm_compute; reflexivity). vm_compute. reflexivity.
  - rewrite B by (intros; vm_compute; reflexivity). vm_compute. reflexivity.
Defined.
