(* ===== verification/Pagination.v ===== *)
(** * Pagination: [renderProducts] (lines 340-372) and page navigation
    (lines 85-98)

    [renderProducts] shows the count of [filtered], the text
    "currentPage / totalPages" and the products of the current page, cut
    out of [filtered] with [slice]; when that cut is empty it shows
    "Nenhum produto encontrado" instead.  The result is a [view]: the
    products of the page and their cards ([Cards.card_of]: image, title,
    price and installment texts).  The buy button's listener is the
    [BuyClick] event of [Page].

    [prev_page] and [next_page] are the conditions of the two click
    handlers: they move [currentPage] by one when it stays within
    [1, totalPages], and otherwise leave everything as it is. *)

From Stdlib Require Import List Bool Arith ZArith Lia.
From S2P Require Import Prelude JsString JsArray Catalog Cards.
Import ListNotations.
Local Open Scope Z_scope.

Definition PRODUCTS_PER_PAGE : Z := 8.

(** [Math.ceil(a / b)] for non-negative integers [a] and positive [b]. *)
Definition ceil_div (a b : Z) : Z := (a + b - 1) / b.

(** [Math.max(1, Math.ceil(filtered.length / PRODUCTS_PER_PAGE))]. *)
Definition totalPages (len : nat) : Z :=
  Z.max 1 (ceil_div (Z.of_nat len) PRODUCTS_PER_PAGE).

Record view : Set := mkView {
  productsCount : Z;            (** [productsCount.textContent] *)
  pageInfo : Z * Z;             (** [`${currentPage} / ${totalPages}`] *)
  shown : list product;         (** the products of the cards, in order *)
  cards : list card;            (** the cards of [slice.forEach] *)
  emptyMessage : bool           (** "Nenhum produto encontrado" is shown *)
}.

Definition renderProducts (filtered : list product) (currentPage : Z) : view :=
  let total := totalPages (length filtered) in
  let start := (currentPage - 1) * PRODUCTS_PER_PAGE in
  let slice := js_slice filtered start (start + PRODUCTS_PER_PAGE) in
  mkView (Z.of_nat (length filtered)) (currentPage, total) slice (map card_of slice)
    (Nat.eqb (length slice) 0).

(** [if (currentPage > 1) currentPage--]. *)
Definition prev_page (currentPage : Z) : option Z :=
  if 1 <? currentPage then Some (currentPage - 1) else None.

(** [if (currentPage < totalPages) currentPage++]. *)
Definition next_page (filtered : list product) (currentPage : Z) : option Z :=
  if currentPage <? totalPages (length filtered) then Some (currentPage + 1) else None.

(** ** Lemmas *)

Lemma ceil_div_spec a b : 0 < b -> 0 <= a ->
  b * (ceil_div a b - 1) < a <= b * ceil_div a b \/ (a = 0 /\ ceil_div a b = 0).
Proof.
  intros Hb Ha. unfold ceil_div.
  pose proof (Z.div_mod (a + b - 1) b ltac:(lia)) as E.
  pose proof (Z.mod_pos_bound (a + b - 1) b Hb) as M.
  destruct (Z.eq_dec a 0) as [->|Hn].
  - right. split; [reflexivity|]. apply Z.div_small. lia.
  - left. lia.
Qed.

Lemma totalPages_pos len : 1 <= totalPages len.
Proof. unfold totalPages. lia. Qed.

(** The pages cover the list: [totalPages] pages of eight hold it all, and
    one page less does not (unless the list is empty). *)
Lemma totalPages_bounds len :
  Z.of_nat len <= 8 * totalPages len
  /\ (len <> 0%nat -> 8 * (totalPages len - 1) < Z.of_nat len).
Proof.
  unfold totalPages, PRODUCTS_PER_PAGE.
  destruct (ceil_div_spec (Z.of_nat len) 8 ltac:(lia) ltac:(lia)) as [H|[H1 H2]]; lia.
Qed.

(** Page [k] is the [k-1]-th run of eight. *)
Lemma shown_page l k : 1 <= k ->
  shown (renderProducts l k) = firstn 8 (skipn (Z.to_nat (8 * (k - 1))) l).
Proof.
  intros Hk. unfold renderProducts. simpl.
  unfold PRODUCTS_PER_PAGE. rewrite (js_slice_nonneg l ((k - 1) * 8) 8) by lia.
  rewrite Z.mul_comm. reflexivity.
Qed.

Lemma concat_runs (m : nat) (l : list product) :
  (length l <= 8 * m)%nat ->
  concat (map (fun i => firstn 8 (skipn (8 * i) l)) (seq 0 m)) = l.
Proof.
  revert l; induction m as [|m IH]; intros l Hl.
  - destruct l; [reflexivity|simpl in Hl; lia].
  - change (seq 0 (S m)) with (0%nat :: seq 1 m).
    rewrite map_cons, concat_cons, <- seq_shift, map_map.
    rewrite (map_ext _ (fun i => firstn 8 (skipn (8 * i)%nat (skipn 8 l)))).
    + rewrite IH; [apply firstn_skipn|]. rewrite length_skipn. lia.
    + intros i. rewrite skipn_skipn. f_equal. f_equal. lia.
Qed.

(** A page shows products of [filtered] only. *)
Lemma shown_incl l k : incl (shown (renderProducts l k)) l.
Proof.
  intros x Hx. unfold renderProducts, js_slice in Hx. simpl in Hx.
  apply In_firstn, In_skipn in Hx. exact Hx.
Qed.

(** The page numbers, from 1 to [totalPages]. *)
Definition page_numbers (len : nat) : list Z :=
  map (fun i => Z.of_nat i + 1) (seq 0 (Z.to_nat (totalPages len))).

Lemma shown_length l k : 1 <= k ->
  Z.of_nat (length (shown (renderProducts l k)))
  = Z.min 8 (Z.max 0 (Z.of_nat (length l) - 8 * (k - 1))).
Proof.
  intros Hk. rewrite shown_page by exact Hk. rewrite length_firstn, length_skipn. lia.
Qed.

(** C6: concatenating the pages 1 to [totalPages] in order gives back the
    whole of [filtered]: no product is lost, repeated or moved. *)
Theorem pages_concat l :
  concat (map (fun k => shown (renderProducts l k)) (page_numbers (length l))) = l.
Proof.
  unfold page_numbers. rewrite map_map.
  rewrite (map_ext (fun i => shown (renderProducts l (Z.of_nat i + 1)))
                   (fun i => firstn 8 (skipn (8 * i)%nat l))).
  - apply concat_runs. pose proof (totalPages_bounds (length l)) as [Hb _].
    pose proof (totalPages_pos (length l)). lia.
  - intros i. rewrite shown_page by lia. f_equal. f_equal. lia.
Qed.

Lemma page_full l k :
  1 <= k < totalPages (length l) -> length (shown (renderProducts l k)) = 8%nat.
Proof.
  intros Hk. pose proof (shown_length l k ltac:(lia)) as E.
  pose proof (totalPages_bounds (length l)) as [H1 H2].
  assert (length l <> 0%nat) as Hn.
  { intros E0. rewrite E0 in Hk. change (totalPages 0) with 1 in Hk. lia. }
  lia.
Qed.

Lemma page_last l :
  l <> [] -> (1 <= length (shown (renderProducts l (totalPages (length l)))) <= 8)%nat.
Proof.
  intros Hne. pose proof (totalPages_pos (length l)).
  pose proof (shown_length l (totalPages (length l)) ltac:(lia)) as E.
  pose proof (totalPages_bounds (length l)) as [H1 H2].
  assert (length l <> 0%nat) by (destruct l; simpl; congruence || lia). lia.
Qed.

Lemma page_of_nil k : 1 <= k -> totalPages 0 = 1 /\ shown (renderProducts [] k) = [].
Proof.
  intros Hk. split; [reflexivity|]. apply length_zero_iff_nil.
  pose proof (shown_length [] k Hk) as E. cbn [length Z.of_nat] in E. lia.
Qed.

(** C7: every page before the last holds exactly eight products and the
    last holds one to eight, unless nothing passed the filter: then there
    is one page, and it is empty. *)
Theorem page_sizes l k :
  1 <= k <= totalPages (length l) ->
  (k < totalPages (length l) -> length (shown (renderProducts l k)) = 8%nat)
  /\ (k = totalPages (length l) -> l <> [] ->
      (1 <= length (shown (renderProducts l k)) <= 8)%nat)
  /\ (l = [] -> totalPages (length l) = 1 /\ shown (renderProducts l k) = []).
Proof.
  intros Hk. split; [|split].
  - intros Hlt. apply page_full. lia.
  - intros ->. apply page_last.
  - intros ->. apply page_of_nil. lia.
Qed.

Lemma prev_page_range (l : list product) cp :
  1 <= cp <= totalPages (length l) ->
  match prev_page cp with
  | Some c => c = cp - 1 /\ 1 <= c <= totalPages (length l)
  | None => cp = 1
  end.
Proof. intros Hk. unfold prev_page. destruct (Z.ltb_spec 1 cp); lia. Qed.

Lemma next_page_range l cp :
  1 <= cp <= totalPages (length l) ->
  match next_page l cp with
  | Some c => c = cp + 1 /\ 1 <= c <= totalPages (length l)
  | None => cp = totalPages (length l)
  end.
Proof. intros Hk. unfold next_page. destruct (Z.ltb_spec cp (totalPages (length l))); lia. Qed.

(** C8: the two navigation buttons keep [currentPage] within
    [1, totalPages]: "previous" moves down by one unless the page is the
    first, "next" moves up by one unless it is the last; at the bounds the
    click changes nothing. *)
Theorem navigation_clamped l cp :
  1 <= cp <= totalPages (length l) ->
  match prev_page cp with
  | Some c => c = cp - 1 /\ 1 <= c <= totalPages (length l)
  | None => cp = 1
  end
  /\ match next_page l cp with
     | Some c => c = cp + 1 /\ 1 <= c <= totalPages (length l)
     | None => cp = totalPages (length l)
     end.
Proof. intros Hk. split; [apply prev_page_range|apply next_page_range]; exact Hk. Qed.

(** C15: with [currentPage] in range, "Nenhum produto encontrado" is shown
    exactly when no product passed the filter. *)
Theorem empty_message_iff l cp :
  1 <= cp <= totalPages (length l) ->
  emptyMessage (renderProducts l cp) = true <-> l = [].
Proof.
  intros Hk.
  assert (E0 : emptyMessage (renderProducts l cp)
               = Nat.eqb (length (shown (renderProducts l cp))) 0) by reflexivity.
  rewrite E0, Nat.eqb_eq. split.
  - intros E. destruct l as [|x l']; [reflexivity|exfalso].
    destruct (Z.eq_dec cp (totalPages (length (x :: l')))) as [->|Hne].
    + pose proof (page_last (x :: l') ltac:(discriminate)). lia.
    + rewrite page_full in E by lia. discriminate.
  - intros ->. destruct (page_of_nil cp ltac:(lia)) as [_ ->]. reflexivity.
Qed.

(** ** Witnesses *)

Lemma page_sizes_witness :
  1 <= 1 <= totalPages (length (createSampleProducts (fun _ => 0%Z)))
  /\ length (shown (renderProducts (createSampleProducts (fun _ => 0%Z)) 1)) = 8%nat
  /\ (1 <= length (shown (renderProducts (createSampleProducts (fun _ => 0%Z)) 2)) <= 8)%nat.
Proof.
  assert (H1 : 1 <= 1 <= totalPages (length (createSampleProducts (fun _ => 0%Z))))
    by (vm_compute; split; discriminate).
  assert (H2 : 1 <= 2 <= totalPages (length (createSampleProducts (fun _ => 0%Z))))
    by (vm_compute; split; discriminate).
  split; [exact H1|split].
  - apply (proj1 (page_sizes _ 1 H1)). vm_compute. reflexivity.
  - apply (proj1 (proj2 (page_sizes _ 2 H2))); [reflexivity|discriminate].
Defined.

Lemma navigation_clamped_witness :
  1 <= 2 <= totalPages (length (createSampleProducts (fun _ => 0%Z)))
  /\ prev_page 2 = Some 1
  /\ 2 = totalPages (length (createSampleProducts (fun _ => 0%Z))).
Proof.
  assert (H : 1 <= 2 <= totalPages (length (createSampleProducts (fun _ => 0%Z))))
    by (vm_compute; split; discriminate).
  pose proof (navigation_clamped (createSampleProducts (fun _ => 0%Z)) 2 H) as [_ Hn].
  split; [exact H|split; [reflexivity|exact Hn]].
Defined.

Lemma empty_message_iff_witness :
  1 <= 1 <= totalPages (length (@nil product))
  /\ emptyMessage (renderProducts [] 1) = true
  /\ emptyMessage (renderProducts (createSampleProducts (fun _ => 0%Z)) 2) = false.
Proof.
  assert (H0 : 1 <= 1 <= totalPages (length (@nil product)))
    by (vm_compute; split; discriminate).
  assert (H2 : 1 <= 2 <= totalPages (length (createSampleProducts (fun _ => 0%Z))))
    by (vm_compute; split; discriminate).
  split; [exact H0|split].
  - apply (empty_message_iff [] 1 H0). reflexivity.
  - apply not_true_iff_false. rewrite (empty_message_iff _ 2 H2). discriminate.
Defined.
