(* ===== verification/Suggestions.v ===== *)
(** * Search suggestions: [renderSuggestions], lines 279-300

    Given the trimmed, lower-cased search text, [renderSuggestions] lists
    the titles of the first six products whose searchable text contains
    it, in catalog order, and shows the list; with an empty text or no
    match it empties and hides the list.  The result is the list of the
    [<li>] texts and whether the list is hidden.  The text of an [<li>] is
    the product's title (the titles contain no markup). *)

From Stdlib Require Import String.
From Stdlib Require Import List Bool Arith ZArith NArith QArith Lia.
From S2P Require Import Prelude JsString JsArray JsNumber Catalog Query.
Import ListNotations.

Definition renderSuggestions (products : list product) (query : jsstr) : list jsstr * bool :=
  if negb (str_truthy query) then ([], true)
  else
    let matches := js_slice (filter (fun p => includes (hay p) query) products) 0 6 in
    if Nat.eqb (length matches) 0 then ([], true)
    else (map title matches, false).

(** ** Lemmas *)

Lemma trim_start_suffix s : exists pre, s = pre ++ trim_start s.
Proof.
  induction s as [|c s [pre IH]]; simpl; [exists []; reflexivity|].
  destruct (is_ws c); [exists (c :: pre); simpl; f_equal; exact IH|exists []; reflexivity].
Qed.

(** [trim] cuts a piece out of the middle of a string. *)
Lemma trim_infix s : exists pre suf, s = pre ++ trim s ++ suf.
Proof.
  destruct (trim_start_suffix s) as [pre Hpre].
  destruct (trim_start_suffix (rev (trim_start s))) as [suf Hsuf].
  exists pre, (rev suf). unfold trim.
  rewrite Hpre at 1. f_equal.
  rewrite <- rev_app_distr, <- Hsuf, rev_involutive. reflexivity.
Qed.

(** The inputs of [applyFiltersAndRender] when the search box holds [v]
    and every other input is as the page starts: no box ticked, empty
    price fields, no sort order. *)
Definition search_only (v : jsstr) : query := mkQuery v [] [] false JNaN JNaN [].

(** With only the search text set, the filter keeps the products whose
    searchable text contains it (prices are never negative). *)
Lemma keep_search_only v p :
  (0 <= price p)%Q -> str_truthy (normalize v) = true ->
  keep_query (search_only v) p = includes (hay p) (normalize v).
Proof.
  intros Hp Hq. unfold keep_query. change (searchValue (search_only v)) with v.
  unfold keep. rewrite Hq. unfold search_only, minP, maxP. cbn.
  rewrite (proj2 (Qle_bool_iff _ _) Hp). reflexivity.
Qed.

Section Suggest.
Context `{JsSort}.

(** C16: the suggestions are the first results of the search: for a
    search text [v] that is not blank, the list [renderSuggestions] shows
    is the titles of the first six products the filter of
    [applyFiltersAndRender] keeps when [v] is the only input set, in
    catalog order, and it is hidden exactly when that search finds
    nothing. *)
Theorem renderSuggestions_spec products v rand n :
  Forall (fun p => (0 <= price p)%Q) products -> normalize v <> [] ->
  renderSuggestions products (normalize v)
  = (map title (firstn 6 (fst (applyFilters products (search_only v) rand n))),
     Nat.eqb (length (fst (applyFilters products (search_only v) rand n))) 0).
Proof.
  intros Hp Hq. assert (Ht : str_truthy (normalize v) = true) by (destruct (normalize v); [contradiction|reflexivity]).
  assert (Hf : fst (applyFilters products (search_only v) rand n)
               = filter (fun p => includes (hay p) (normalize v)) products).
  { unfold applyFilters. cbn [search_only sortValue]. replace (sortMode_of []) with NoSort by reflexivity.
    apply filter_ext_in. intros p Hin. rewrite Forall_forall in Hp. apply keep_search_only; auto. }
  rewrite Hf. unfold renderSuggestions. rewrite Ht. cbn [negb].
  rewrite (js_slice_nonneg _ 0 6) by lia. simpl skipn.
  destruct (filter _ products) as [|p l]; reflexivity.
Qed.
End Suggest.

(** ** Witness *)

Lemma renderSuggestions_spec_witness :
  let products := createSampleProducts (fun _ => 0%Z) in
  Forall (fun p => (0 <= price p)%Q) products /\ normalize (ustr " Fram") <> []
  /\ renderSuggestions products (normalize (ustr " Fram"))
     = (map title (firstn 6 (fst (@applyFilters isort_JsSort products (search_only (ustr " Fram")) (fun _ => 0%Q) 0%nat))),
        Nat.eqb (length (fst (@applyFilters isort_JsSort products (search_only (ustr " Fram")) (fun _ => 0%Q) 0%nat))) 0).
Proof.
  cbn zeta.
  assert (Hp : Forall (fun p => (0 <= price p)%Q) (createSampleProducts (fun _ => 0%Z)))
    by (repeat constructor; unfold Qle; simpl; lia).
  assert (Hq : normalize (ustr " Fram") <> []) by (vm_compute; discriminate).
  split; [exact Hp|split; [exact Hq|]].
  apply (renderSuggestions_spec (createSampleProducts (fun _ => 0%Z)) (ustr " Fram") (fun _ => 0%Q) 0%nat Hp Hq).
Defined.
