(* ===== verification/Page.v ===== *)
(** * The page: its state and its event handlers (lines 14-114)

    [page] gathers every piece of state the script reads or writes: the
    global variables ([products], [filtered], [brandsSet],
    [categoriesSet], [currentPage]), the closure variables of the
    [DOMContentLoaded] handler ([debounceTimer], [cart]), the DOM inputs
    the handlers read (the search box, the checkboxes, the price fields, the
    sort select, the [data-expanded] flag) and what the script writes to the
    DOM and reads back (the suggestion list, the rendered [view], the cart
    counter).  The stream [rand] of [Math.random()] values is fixed for the
    section; the state holds how many values were drawn.

    [handle s e] is the page after event [e]: the user's action on the DOM
    (typing, ticking a box, choosing an option) followed by the listener the
    script registered for it, composed as the listener composes its calls.
    An event that cannot happen in [s] (a click on the tenth suggestion of
    a list of three, the debounce timer firing when none is pending) gives
    [None].  [step] is the relation [handle s e = Some s'] and [reachable]
    its reflexive-transitive closure from [init]. *)

From Stdlib Require Import String.
From Stdlib Require Import List Bool Arith ZArith NArith QArith Lia Permutation.
From S2P Require Import Prelude JsString JsArray JsNumber Catalog Cards Query Pagination Suggestions.
Import ListNotations.

Record page : Set := mkPage {
  products : list product;
  brandsSet : list jsstr;
  categoriesSet : list jsstr;
  filtered : list product;
  currentPage : Z;
  searchInput : jsstr;                 (** [searchInput.value] *)
  brandList : list (jsstr * bool);     (** brand checkboxes: value, ticked *)
  categoryList : list (jsstr * bool);  (** category checkboxes *)
  opportunityChecked : bool;
  priceMin : jsstr;                    (** [priceMin.value] *)
  priceMax : jsstr;                    (** [priceMax.value] *)
  sortSelect : jsstr;                  (** [sortSelect.value] *)
  expanded : bool;                     (** [showMoreBrands.dataset.expanded === '1'] *)
  showMoreText : jsstr;
  suggestions : list jsstr;            (** the [<li>] texts *)
  suggestionsHidden : bool;
  debounceTimer : option jsstr;        (** the pending timer and the text it captured *)
  cart : list product;
  cartCount : Z;
  rendered : view;                     (** the grid, count and page info *)
  randPos : nat                        (** [Math.random()] values drawn so far *)
}.

Inductive event : Set :=
| SortChange (v : jsstr)
| OpportunityChange (b : bool)
| SearchInput (v : jsstr)
| DebounceFire
| SuggestionClick (i : nat)
| BrandChange (i : nat)
| CategoryChange (i : nat)
| ShowMoreClick
| PriceMinInput (v : jsstr)
| PriceMaxInput (v : jsstr)
| ApplyPriceClick
| PrevClick
| NextClick
| BuyClick (i : nat)
| WhatsappClick.

(** ** Field updates

    [set_f s v] is [s] with field [f] replaced by [v]: one JavaScript
    assignment. *)

Definition set_products (s : page) (v : list product) : page :=
  mkPage v (brandsSet s) (categoriesSet s) (filtered s) (currentPage s) (searchInput s) (brandList s) (categoryList s) (opportunityChecked s) (priceMin s) (priceMax s) (sortSelect s) (expanded s) (showMoreText s) (suggestions s) (suggestionsHidden s) (debounceTimer s) (cart s) (cartCount s) (rendered s) (randPos s).

Definition set_brandsSet (s : page) (v : list jsstr) : page :=
  mkPage (products s) v (categoriesSet s) (filtered s) (currentPage s) (searchInput s) (brandList s) (categoryList s) (opportunityChecked s) (priceMin s) (priceMax s) (sortSelect s) (expanded s) (showMoreText s) (suggestions s) (suggestionsHidden s) (debounceTimer s) (cart s) (cartCount s) (rendered s) (randPos s).

Definition set_categoriesSet (s : page) (v : list jsstr) : page :=
  mkPage (products s) (brandsSet s) v (filtered s) (currentPage s) (searchInput s) (brandList s) (categoryList s) (opportunityChecked s) (priceMin s) (priceMax s) (sortSelect s) (expanded s) (showMoreText s) (suggestions s) (suggestionsHidden s) (debounceTimer s) (cart s) (cartCount s) (rendered s) (randPos s).

Definition set_filtered (s : page) (v : list product) : page :=
  mkPage (products s) (brandsSet s) (categoriesSet s) v (currentPage s) (searchInput s) (brandList s) (categoryList s) (opportunityChecked s) (priceMin s) (priceMax s) (sortSelect s) (expanded s) (showMoreText s) (suggestions s) (suggestionsHidden s) (debounceTimer s) (cart s) (cartCount s) (rendered s) (randPos s).

Definition set_currentPage (s : page) (v : Z) : page :=
  mkPage (products s) (brandsSet s) (categoriesSet s) (filtered s) v (searchInput s) (brandList s) (categoryList s) (opportunityChecked s) (priceMin s) (priceMax s) (sortSelect s) (expanded s) (showMoreText s) (suggestions s) (suggestionsHidden s) (debounceTimer s) (cart s) (cartCount s) (rendered s) (randPos s).

Definition set_searchInput (s : page) (v : jsstr) : page :=
  mkPage (products s) (brandsSet s) (categoriesSet s) (filtered s) (currentPage s) v (brandList s) (categoryList s) (opportunityChecked s) (priceMin s) (priceMax s) (sortSelect s) (expanded s) (showMoreText s) (suggestions s) (suggestionsHidden s) (debounceTimer s) (cart s) (cartCount s) (rendered s) (randPos s).

Definition set_brandList (s : page) (v : list (jsstr * bool)) : page :=
  mkPage (products s) (brandsSet s) (categoriesSet s) (filtered s) (currentPage s) (searchInput s) v (categoryList s) (opportunityChecked s) (priceMin s) (priceMax s) (sortSelect s) (expanded s) (showMoreText s) (suggestions s) (suggestionsHidden s) (debounceTimer s) (cart s) (cartCount s) (rendered s) (randPos s).

Definition set_categoryList (s : page) (v : list (jsstr * bool)) : page :=
  mkPage (products s) (brandsSet s) (categoriesSet s) (filtered s) (currentPage s) (searchInput s) (brandList s) v (opportunityChecked s) (priceMin s) (priceMax s) (sortSelect s) (expanded s) (showMoreText s) (suggestions s) (suggestionsHidden s) (debounceTimer s) (cart s) (cartCount s) (rendered s) (randPos s).

Definition set_opportunityChecked (s : page) (v : bool) : page :=
  mkPage (products s) (brandsSet s) (categoriesSet s) (filtered s) (currentPage s) (searchInput s) (brandList s) (categoryList s) v (priceMin s) (priceMax s) (sortSelect s) (expanded s) (showMoreText s) (suggestions s) (suggestionsHidden s) (debounceTimer s) (cart s) (cartCount s) (rendered s) (randPos s).

Definition set_priceMin (s : page) (v : jsstr) : page :=
  mkPage (products s) (brandsSet s) (categoriesSet s) (filtered s) (currentPage s) (searchInput s) (brandList s) (categoryList s) (opportunityChecked s) v (priceMax s) (sortSelect s) (expanded s) (showMoreText s) (suggestions s) (suggestionsHidden s) (debounceTimer s) (cart s) (cartCount s) (rendered s) (randPos s).

Definition set_priceMax (s : page) (v : jsstr) : page :=
  mkPage (products s) (brandsSet s) (categoriesSet s) (filtered s) (currentPage s) (searchInput s) (brandList s) (categoryList s) (opportunityChecked s) (priceMin s) v (sortSelect s) (expanded s) (showMoreText s) (suggestions s) (suggestionsHidden s) (debounceTimer s) (cart s) (cartCount s) (rendered s) (randPos s).

Definition set_sortSelect (s : page) (v : jsstr) : page :=
  mkPage (products s) (brandsSet s) (categoriesSet s) (filtered s) (currentPage s) (searchInput s) (brandList s) (categoryList s) (opportunityChecked s) (priceMin s) (priceMax s) v (expanded s) (showMoreText s) (suggestions s) (suggestionsHidden s) (debounceTimer s) (cart s) (cartCount s) (rendered s) (randPos s).

Definition set_expanded (s : page) (v : bool) : page :=
  mkPage (products s) (brandsSet s) (categoriesSet s) (filtered s) (currentPage s) (searchInput s) (brandList s) (categoryList s) (opportunityChecked s) (priceMin s) (priceMax s) (sortSelect s) v (showMoreText s) (suggestions s) (suggestionsHidden s) (debounceTimer s) (cart s) (cartCount s) (rendered s) (randPos s).

Definition set_showMoreText (s : page) (v : jsstr) : page :=
  mkPage (products s) (brandsSet s) (categoriesSet s) (filtered s) (currentPage s) (searchInput s) (brandList s) (categoryList s) (opportunityChecked s) (priceMin s) (priceMax s) (sortSelect s) (expanded s) v (suggestions s) (suggestionsHidden s) (debounceTimer s) (cart s) (cartCount s) (rendered s) (randPos s).

Definition set_suggestions (s : page) (v : list jsstr) : page :=
  mkPage (products s) (brandsSet s) (categoriesSet s) (filtered s) (currentPage s) (searchInput s) (brandList s) (categoryList s) (opportunityChecked s) (priceMin s) (priceMax s) (sortSelect s) (expanded s) (showMoreText s) v (suggestionsHidden s) (debounceTimer s) (cart s) (cartCount s) (rendered s) (randPos s).

Definition set_suggestionsHidden (s : page) (v : bool) : page :=
  mkPage (products s) (brandsSet s) (categoriesSet s) (filtered s) (currentPage s) (searchInput s) (brandList s) (categoryList s) (opportunityChecked s) (priceMin s) (priceMax s) (sortSelect s) (expanded s) (showMoreText s) (suggestions s) v (debounceTimer s) (cart s) (cartCount s) (rendered s) (randPos s).

Definition set_debounceTimer (s : page) (v : option jsstr) : page :=
  mkPage (products s) (brandsSet s) (categoriesSet s) (filtered s) (currentPage s) (searchInput s) (brandList s) (categoryList s) (opportunityChecked s) (priceMin s) (priceMax s) (sortSelect s) (expanded s) (showMoreText s) (suggestions s) (suggestionsHidden s) v (cart s) (cartCount s) (rendered s) (randPos s).

Definition set_cart (s : page) (v : list product) : page :=
  mkPage (products s) (brandsSet s) (categoriesSet s) (filtered s) (currentPage s) (searchInput s) (brandList s) (categoryList s) (opportunityChecked s) (priceMin s) (priceMax s) (sortSelect s) (expanded s) (showMoreText s) (suggestions s) (suggestionsHidden s) (debounceTimer s) v (cartCount s) (rendered s) (randPos s).

Definition set_cartCount (s : page) (v : Z) : page :=
  mkPage (products s) (brandsSet s) (categoriesSet s) (filtered s) (currentPage s) (searchInput s) (brandList s) (categoryList s) (opportunityChecked s) (priceMin s) (priceMax s) (sortSelect s) (expanded s) (showMoreText s) (suggestions s) (suggestionsHidden s) (debounceTimer s) (cart s) v (rendered s) (randPos s).

Definition set_rendered (s : page) (v : view) : page :=
  mkPage (products s) (brandsSet s) (categoriesSet s) (filtered s) (currentPage s) (searchInput s) (brandList s) (categoryList s) (opportunityChecked s) (priceMin s) (priceMax s) (sortSelect s) (expanded s) (showMoreText s) (suggestions s) (suggestionsHidden s) (debounceTimer s) (cart s) (cartCount s) v (randPos s).

Definition set_randPos (s : page) (v : nat) : page :=
  mkPage (products s) (brandsSet s) (categoriesSet s) (filtered s) (currentPage s) (searchInput s) (brandList s) (categoryList s) (opportunityChecked s) (priceMin s) (priceMax s) (sortSelect s) (expanded s) (showMoreText s) (suggestions s) (suggestionsHidden s) (debounceTimer s) (cart s) (cartCount s) (rendered s) v.

(** The values of the ticked checkboxes, in DOM order. *)
Definition checked_values (boxes : list (jsstr * bool)) : list jsstr :=
  map fst (filter snd boxes).

(** A click on the [i]-th checkbox flips it. *)
Fixpoint toggle_box (boxes : list (jsstr * bool)) (i : nat) : list (jsstr * bool) :=
  match boxes, i with
  | [], _ => []
  | (v, b) :: rest, O => (v, negb b) :: rest
  | x :: rest, S i' => x :: toggle_box rest i'
  end.

Section Handlers.
Context `{JsSort} (rand : nat -> Q).

Definition query_of (s : page) : query :=
  mkQuery (searchInput s) (checked_values (brandList s)) (checked_values (categoryList s))
    (opportunityChecked s) (parseFloat (priceMin s)) (parseFloat (priceMax s)) (sortSelect s).

(** [applyFiltersAndRender] (303-337): filter and sort, [currentPage = 1],
    [renderProducts()]. *)
Definition applyFiltersAndRender (s : page) : page :=
  let (f, pos) := applyFilters (products s) (query_of s) rand (randPos s) in
  let s := set_randPos (set_filtered s f) pos in
  let s := set_currentPage s 1%Z in
  set_rendered s (renderProducts (filtered s) (currentPage s)).

(** [currentPage = 1; applyFiltersAndRender();], the body of every
    listener of a filter or sort input. *)
Definition refilter (s : page) : page := applyFiltersAndRender (set_currentPage s 1%Z).

(** The listeners of lines 41-114, each after the user's action. *)
Definition handle (s : page) (e : event) : option page :=
  match e with
  | SortChange v => Some (refilter (set_sortSelect s v))
  | OpportunityChange b => Some (refilter (set_opportunityChecked s b))
  | SearchInput v =>
      (* clearTimeout(debounceTimer); debounceTimer = setTimeout(...) *)
      Some (set_debounceTimer (set_searchInput s v) (Some (normalize v)))
  | DebounceFire =>
      match debounceTimer s with
      | Some q =>
          let (items, hidden) := renderSuggestions (products s) q in
          let s := set_debounceTimer s None in
          Some (refilter (set_suggestionsHidden (set_suggestions s items) hidden))
      | None => None
      end
  | SuggestionClick i =>
      if suggestionsHidden s then None
      else match nth_error (suggestions s) i with
           | Some t => Some (refilter (set_suggestionsHidden (set_searchInput s t) true))
           | None => None
           end
  | BrandChange i =>
      if i <? length (brandList s) then Some (refilter (set_brandList s (toggle_box (brandList s) i)))
      else None
  | CategoryChange i =>
      if i <? length (categoryList s)
      then Some (refilter (set_categoryList s (toggle_box (categoryList s) i)))
      else None
  | ShowMoreClick =>
      let ex := negb (expanded s) in
      let cb := renderFilterCheckboxes (brandsSet s) (categoriesSet s) ex in
      Some (set_categoryList (set_showMoreText (set_brandList (set_expanded s ex)
              (brandBoxes cb)) (moreLabel cb)) (catBoxes cb))
  | PriceMinInput v => Some (set_priceMin s v)
  | PriceMaxInput v => Some (set_priceMax s v)
  | ApplyPriceClick => Some (refilter s)
  | PrevClick =>
      match prev_page (currentPage s) with
      | Some c => let s := set_currentPage s c in
                  Some (set_rendered s (renderProducts (filtered s) (currentPage s)))
      | None => Some s
      end
  | NextClick =>
      match next_page (filtered s) (currentPage s) with
      | Some c => let s := set_currentPage s c in
                  Some (set_rendered s (renderProducts (filtered s) (currentPage s)))
      | None => Some s
      end
  | BuyClick i =>
      match nth_error (shown (rendered s)) i with
      | Some p => let s := set_cart s (cart s ++ [p]) in
                  Some (set_cartCount s (Z.of_nat (length (cart s))))
      | None => None
      end
  | WhatsappClick => Some s
  end.

(** The page before [DOMContentLoaded]: the inputs as the HTML has them
    (empty search and price fields, no opportunity tick, the select's
    initial value [sort0]), nothing rendered yet. *)
Definition blank (sort0 : jsstr) (pos0 : nat) : page :=
  mkPage [] [] [] [] 1%Z [] [] [] false [] [] sort0 false [] [] true None [] 0%Z
    (renderProducts [] 1) pos0.

(** Lines 35-38: [createSampleProducts(); populateFilterSets();
    renderFilterCheckboxes(); applyFiltersAndRender();]. *)
Definition init (now : nat -> Z) (sort0 : jsstr) (pos0 : nat) : page :=
  let s := set_products (blank sort0 pos0) (createSampleProducts now) in
  let sets := populateFilterSets (products s) in
  let s := set_categoriesSet (set_brandsSet s (fst sets)) (snd sets) in
  let cb := renderFilterCheckboxes (brandsSet s) (categoriesSet s) (expanded s) in
  let s := set_categoryList (set_showMoreText (set_brandList s (brandBoxes cb)) (moreLabel cb))
             (catBoxes cb) in
  applyFiltersAndRender s.

Definition step (s s' : page) : Prop := exists e, handle s e = Some s'.

Inductive reachable (now : nat -> Z) (sort0 : jsstr) (pos0 : nat) : page -> Prop :=
| reach_init : reachable now sort0 pos0 (init now sort0 pos0)
| reach_step s e s' :
    reachable now sort0 pos0 s -> handle s e = Some s' -> reachable now sort0 pos0 s'.

(** A sequence of events, stopping at the first that cannot happen. *)
Fixpoint run (s : page) (es : list event) : option page :=
  match es with
  | [] => Some s
  | e :: es' => match handle s e with Some s' => run s' es' | None => None end
  end.
End Handlers.

(** ** The invariant of reachable pages *)

(** The part no filter or navigation event touches. *)
Definition static_ok (now : nat -> Z) (s : page) : Prop :=
  products s = createSampleProducts now
  /\ (brandsSet s, categoriesSet s) = populateFilterSets (products s)
  /\ cartCount s = Z.of_nat (length (cart s))
  /\ incl (cart s) (products s).

(** The part every render re-establishes. *)
Definition view_ok (s : page) : Prop :=
  (1 <= currentPage s <= totalPages (length (filtered s)))%Z
  /\ rendered s = renderProducts (filtered s) (currentPage s)
  /\ incl (filtered s) (products s).

Definition page_inv (now : nat -> Z) (s : page) : Prop := static_ok now s /\ view_ok s.

Section PageFacts.
Context `{JsSort} (rand : nat -> Q).

Lemma refilter_spec s :
  let r := refilter rand s in
  currentPage r = 1%Z
  /\ (filtered r, randPos r) = applyFilters (products s) (query_of s) rand (randPos s)
  /\ rendered r = renderProducts (filtered r) 1
  /\ products r = products s /\ brandsSet r = brandsSet s /\ categoriesSet r = categoriesSet s
  /\ cart r = cart s /\ cartCount r = cartCount s /\ query_of r = query_of s
  /\ debounceTimer r = debounceTimer s.
Proof.
  cbn zeta. unfold refilter, applyFiltersAndRender. simpl.
  destruct (applyFilters _ _ _ _) as [f pos] eqn:E. simpl.
  repeat split; reflexivity.
Qed.

Lemma refilter_view_ok s : view_ok (refilter rand s).
Proof.
  destruct (refilter_spec s) as (Hc & Hf & Hr & Hp & _).
  split; [|split].
  - rewrite Hc. pose proof (totalPages_pos (length (filtered (refilter rand s)))). lia.
  - rewrite Hr, Hc. reflexivity.
  - intros p Hin. rewrite Hp.
    pose proof (applyFilters_perm (products s) (query_of s) rand (randPos s)) as P.
    rewrite <- Hf in P. apply Permutation_sym, (Permutation_in p) in P; [|exact Hin].
    apply filter_In in P. apply P.
Qed.

Lemma refilter_static_ok now s : static_ok now s -> static_ok now (refilter rand s).
Proof.
  destruct (refilter_spec s) as (_ & _ & _ & Hp & Hb & Hc & Hca & Hcc & _).
  unfold static_ok. rewrite Hp, Hb, Hc, Hca, Hcc. auto.
Qed.

Lemma refilter_inv now s : static_ok now s -> page_inv now (refilter rand s).
Proof. split; [apply refilter_static_ok; assumption|apply refilter_view_ok]. Qed.

(** [applyFiltersAndRender] overwrites [currentPage] anyway. *)
Lemma applyFiltersAndRender_refilter s : applyFiltersAndRender rand s = refilter rand s.
Proof. destruct s; reflexivity. Qed.

Lemma init_inv now sort0 pos0 : page_inv now (init rand now sort0 pos0).
Proof.
  unfold init. rewrite applyFiltersAndRender_refilter. apply refilter_inv.
  split; [reflexivity|split; [|split; [reflexivity|intros x []]]].
  exact (eq_sym (surjective_pairing _)).
Qed.

(** Moving to page [c] of the same [filtered] and rendering it. *)
Lemma goto_inv now s c :
  page_inv now s -> (1 <= c <= totalPages (length (filtered s)))%Z ->
  page_inv now (set_rendered (set_currentPage s c) (renderProducts (filtered s) c)).
Proof. intros [Hs (_ & _ & Hf)] Hc. split; [exact Hs|]. split; [exact Hc|split; auto]. Qed.

Lemma buy_inv now s p :
  page_inv now s -> In p (shown (rendered s)) ->
  page_inv now (set_cartCount (set_cart s (cart s ++ [p])) (Z.of_nat (length (cart s ++ [p])))).
Proof.
  intros [(Hp & Hb & Hc & Hca) (Hr & Hv & Hf)] Hin. split; [|split; auto].
  split; [exact Hp|split; [exact Hb|split; [reflexivity|]]].
  simpl. intros x Hx. apply in_app_or in Hx as [Hx|[<-|[]]]; [auto|].
  apply Hf. rewrite Hv in Hin. apply shown_incl in Hin. exact Hin.
Qed.

Ltac refilter_case := injection 1 as <-; apply refilter_inv; assumption.

(** Every event keeps the invariant. *)
Lemma handle_inv now s e s' :
  page_inv now s -> handle rand s e = Some s' -> page_inv now s'.
Proof.
  intros [Hs Hv]. revert s'.
  destruct e as [v|b|v| |i|i|i| |v|v| | | |i|]; simpl; intros s'.
  - refilter_case.
  - refilter_case.
  - injection 1 as <-. split; assumption.
  - destruct (debounceTimer s) as [q|]; [|discriminate].
    destruct (renderSuggestions (products s) q). refilter_case.
  - destruct (suggestionsHidden s); [discriminate|].
    destruct (nth_error (suggestions s) i); [refilter_case|discriminate].
  - destruct (i <? length (brandList s)); [refilter_case|discriminate].
  - destruct (i <? length (categoryList s)); [refilter_case|discriminate].
  - injection 1 as <-. split; assumption.
  - injection 1 as <-. split; assumption.
  - injection 1 as <-. split; assumption.
  - refilter_case.
  - pose proof (prev_page_range (filtered s) (currentPage s) (proj1 Hv)) as Hp.
    destruct (prev_page (currentPage s)) as [c|]; injection 1 as <-;
      [apply goto_inv; [split|]; tauto|split; assumption].
  - pose proof (next_page_range (filtered s) (currentPage s) (proj1 Hv)) as Hn.
    destruct (next_page (filtered s) (currentPage s)) as [c|]; injection 1 as <-;
      [apply goto_inv; [split|]; tauto|split; assumption].
  - destruct (nth_error (shown (rendered s)) i) as [p|] eqn:E; [|discriminate].
    injection 1 as <-. apply buy_inv; [split; assumption|]. eapply nth_error_In; eassumption.
  - injection 1 as <-. split; assumption.
Qed.

(** C2: every reachable page keeps the catalog it was loaded with and its
    brand and category sets, shows a [currentPage] within
    [1, totalPages], shows exactly the page [renderProducts] computes from
    [filtered] and [currentPage], holds in [filtered] and in the cart only
    catalog products, and shows the cart's length as its count. *)
Theorem reachable_inv now sort0 pos0 s :
  reachable rand now sort0 pos0 s -> page_inv now s.
Proof.
  induction 1 as [|s e s' _ IH He]; [apply init_inv|exact (handle_inv now s e s' IH He)].
Qed.
End PageFacts.

(** ** What each kind of event does *)

(** The events whose listener runs [currentPage = 1;
    applyFiltersAndRender()]. *)
Definition refilters (e : event) : bool :=
  match e with
  | SortChange _ | OpportunityChange _ | DebounceFire | SuggestionClick _
  | BrandChange _ | CategoryChange _ | ApplyPriceClick => true
  | _ => false
  end.

Section EventFacts.
Context `{JsSort} (rand : nat -> Q).

Lemma refilter_result s :
  (filtered (refilter rand s), randPos (refilter rand s))
  = applyFilters (products (refilter rand s)) (query_of (refilter rand s)) rand (randPos s)
  /\ currentPage (refilter rand s) = 1%Z
  /\ rendered (refilter rand s) = renderProducts (filtered (refilter rand s)) 1.
Proof.
  destruct (refilter_spec rand s) as (Hc & Hf & Hr & Hp & _ & _ & _ & _ & Hq & _).
  rewrite Hp, Hq. auto.
Qed.

(** C3: every change of a filter or of the sort order (sort select,
    opportunity box, the debounced search, a picked suggestion, a brand
    or category box, the price button) recomputes [filtered] from the
    catalog and the inputs as they are after the change, goes back to
    page 1 and renders it. *)
Theorem refilter_events_reset s e s' :
  handle rand s e = Some s' -> refilters e = true ->
  (filtered s', randPos s') = applyFilters (products s') (query_of s') rand (randPos s)
  /\ currentPage s' = 1%Z /\ rendered s' = renderProducts (filtered s') 1.
Proof.
  destruct e; simpl; try discriminate; intros He _.
  all: repeat match type of He with
       | context [match ?x with _ => _ end] => destruct x; try discriminate
       end.
  all: injection He as <-;
    match goal with |- context [refilter rand ?x] => exact (refilter_result x) end.
Qed.

(** C14: "previous" and "next" never recompute the filter: they keep
    [filtered] and the random stream, move [currentPage] as [prev_page]
    and [next_page] say, and render that page. *)
Theorem navigation_only_reslices s s' :
  (handle rand s PrevClick = Some s' ->
     filtered s' = filtered s /\ randPos s' = randPos s
     /\ currentPage s' = match prev_page (currentPage s) with
                         | Some c => c | None => currentPage s end)
  /\ (handle rand s NextClick = Some s' ->
     filtered s' = filtered s /\ randPos s' = randPos s
     /\ currentPage s' = match next_page (filtered s) (currentPage s) with
                         | Some c => c | None => currentPage s end).
Proof.
  simpl. split; [destruct (prev_page _)|destruct (next_page _ _)];
    injection 1 as <-; auto.
Qed.

Lemma search_input_twice s v1 v2 :
  set_debounceTimer (set_searchInput (set_debounceTimer (set_searchInput s v1)
    (Some (normalize v1))) v2) (Some (normalize v2))
  = set_debounceTimer (set_searchInput s v2) (Some (normalize v2)).
Proof. destruct s; reflexivity. Qed.

(** C9: the debounce keeps at most one pending search and the newest input
    wins: typing any sequence of texts and then letting the timer fire
    gives the same page as typing only the last text. *)
Theorem debounce_last_wins s vs v :
  run rand s (map SearchInput vs ++ [SearchInput v; DebounceFire])
  = run rand s [SearchInput v; DebounceFire].
Proof.
  revert s; induction vs as [|w vs IH]; intros s; [reflexivity|].
  simpl map. simpl app. cbn [run]. simpl handle. cbv iota beta.
  rewrite IH. cbn [run handle]. rewrite search_input_twice. reflexivity.
Qed.

(** C19: [addToCart] appends the product of the clicked card (a product
    already in the cart is added again) and the counter shows the cart's
    new length. *)
Theorem buy_appends s i s' :
  handle rand s (BuyClick i) = Some s' ->
  exists p, nth_error (shown (rendered s)) i = Some p
    /\ cart s' = cart s ++ [p] /\ cartCount s' = Z.of_nat (length (cart s')).
Proof.
  simpl. destruct (nth_error _ i) as [p|]; [|discriminate].
  injection 1 as <-. exists p. auto.
Qed.

(** C21: "Ver mais"/"Ver menos" rebuilds every brand and category checkbox
    unticked but does not recompute [filtered]: after it the page shows
    no ticked box while the products still follow the ticks it had. *)
Theorem show_more_keeps_filter s s' :
  handle rand s ShowMoreClick = Some s' ->
  checked_values (brandList s') = [] /\ checked_values (categoryList s') = []
  /\ filtered s' = filtered s /\ rendered s' = rendered s.
Proof.
  simpl. injection 1 as <-. simpl. unfold checked_values.
  rewrite !filter_nil_forall; [auto| |]; intros [v b]; rewrite in_map_iff;
    intros [x [E _]]; injection E as _ <-; reflexivity.
Qed.

Lemma run_reachable now sort0 pos0 s es s' :
  reachable rand now sort0 pos0 s -> run rand s es = Some s' ->
  reachable rand now sort0 pos0 s'.
Proof.
  revert s; induction es as [|e es IH]; intros s Hr; simpl; [congruence|].
  destruct (handle rand s e) eqn:E; [|discriminate].
  apply IH. econstructor; eassumption.
Qed.
End EventFacts.

(** ** Runs of the page on the seed catalog *)

(** C11: a reachable page where the products shown do not follow the inputs
    shown: tick "Bosch" (the first brand), click "Ver mais"; every box is
    now unticked, yet [filtered] still holds only the two Bosch products,
    while the inputs on screen select all ten. *)
Theorem show_more_stale_filter now rand :
  exists s, reachable rand now [] 0 s
    /\ checked_values (brandList s) = [] /\ checked_values (categoryList s) = []
    /\ map id (filtered s) = [2; 10]%Z
    /\ map id (fst (applyFilters (products s) (query_of s) rand (randPos s)))
       = [1; 2; 3; 4; 5; 6; 7; 8; 9; 10]%Z.
Proof.
  assert (F : option_map (fun s => (checked_values (brandList s), checked_values (categoryList s),
                map id (filtered s),
                map id (fst (applyFilters (products s) (query_of s) rand (randPos s)))))
              (run rand (init rand now [] 0) [BrandChange 0; ShowMoreClick])
            = Some ([], [], [2; 10]%Z, [1; 2; 3; 4; 5; 6; 7; 8; 9; 10]%Z))
    by (vm_compute; reflexivity).
  destruct (run rand (init rand now [] 0) [BrandChange 0; ShowMoreClick]) as [s|] eqn:E;
    [|discriminate].
  injection F as F1 F2 F3 F4. exists s.
  split; [eapply run_reachable; [constructor|exact E]|auto].
Qed.

(** The specification's example: clicking the buy button of the first card twice puts product 1 in
    the cart twice and the counter shows 2. *)
Theorem add_to_cart_twice now rand :
  exists s, reachable rand now [] 0 s /\ map id (cart s) = [1; 1]%Z /\ cartCount s = 2%Z.
Proof.
  assert (F : option_map (fun s => (map id (cart s), cartCount s))
              (run rand (init rand now [] 0) [BuyClick 0; BuyClick 0])
            = Some ([1; 1]%Z, 2%Z)) by (vm_compute; reflexivity).
  destruct (run rand (init rand now [] 0) [BuyClick 0; BuyClick 0]) as [s|] eqn:E;
    [|discriminate].
  injection F as F1 F2. exists s.
  split; [eapply run_reachable; [constructor|exact E]|auto].
Qed.

(** C27: typing as maximum price the price a card displays hides that
    very product: the card of product 3 shows "95,90", [parseFloat] reads
    the field as 95, and after "Aplicar" the product is no longer among
    the results, which are products 5, 6 and 9. *)
Theorem comma_max_hides_displayed now rand :
  exists s, reachable rand now [] 0 s
    /\ map id (filtered s) = [5; 6; 9]%Z
    /\ exists p, In p (products s) /\ id p = 3%Z
         /\ priceMax s = cardPrice (card_of p) /\ ~ In p (filtered s).
Proof.
  set (d := mkProduct 0%Z [] [] [] 0%Q [] [] 1%Z false 0%Z).
  set (es := [PriceMaxInput (ustr "95,90"); ApplyPriceClick]).
  assert (F : option_map (fun s => (map id (filtered s), length (products s), id (nth 2 (products s) d),
                cardPrice (card_of (nth 2 (products s) d)), priceMax s))
              (run rand (init rand now [] 0) es)
            = Some ([5; 6; 9]%Z, 10%nat, 3%Z, ustr "95,90", ustr "95,90"))
    by (vm_compute; reflexivity).
  destruct (run rand (init rand now [] 0) es) as [s|] eqn:E; [|discriminate].
  injection F as F1 F2 F3 F4 F5. exists s.
  split; [eapply run_reachable; [constructor|exact E]|]. split; [exact F1|].
  exists (nth 2 (products s) d). split; [apply nth_In; lia|]. split; [exact F3|].
  split; [rewrite F5; exact (eq_sym F4)|]. intros Hin. apply (in_map id) in Hin. rewrite F1, F3 in Hin.
  simpl in Hin. lia.
Qed.

(** ** Witnesses *)

Lemma reachable_inv_witness :
  reachable (fun _ => 0%Q) (fun _ => 0%Z) [] 0 (init (fun _ => 0%Q) (fun _ => 0%Z) [] 0)
  /\ page_inv (fun _ => 0%Z) (init (fun _ => 0%Q) (fun _ => 0%Z) [] 0).
Proof.
  assert (R : reachable (fun _ => 0%Q) (fun _ => 0%Z) [] 0 (init (fun _ => 0%Q) (fun _ => 0%Z) [] 0))
    by constructor.
  split; [exact R|]. exact (reachable_inv _ _ _ _ _ R).
Defined.

Lemma refilter_events_reset_witness :
  let s0 := init (fun _ => 0%Q) (fun _ => 0%Z) [] 0 in
  let s1 := refilter (fun _ => 0%Q) (set_sortSelect s0 (ustr "price-asc")) in
  handle (fun _ => 0%Q) s0 (SortChange (ustr "price-asc")) = Some s1
  /\ refilters (SortChange (ustr "price-asc")) = true
  /\ currentPage s1 = 1%Z.
Proof.
  cbn zeta.
  assert (He : handle (fun _ => 0%Q) (init (fun _ => 0%Q) (fun _ => 0%Z) [] 0)
                 (SortChange (ustr "price-asc"))
               = Some (refilter (fun _ => 0%Q)
                   (set_sortSelect (init (fun _ => 0%Q) (fun _ => 0%Z) [] 0) (ustr "price-asc"))))
    by reflexivity.
  split; [exact He|split; [reflexivity|]].
  exact (proj1 (proj2 (refilter_events_reset _ _ _ _ He eq_refl))).
Defined.

Lemma navigation_only_reslices_witness :
  let s0 := init (fun _ => 0%Q) (fun _ => 0%Z) [] 0 in
  handle (fun _ => 0%Q) s0 NextClick
  = Some (set_rendered (set_currentPage s0 2) (renderProducts (filtered s0) 2))
  /\ filtered (set_rendered (set_currentPage s0 2) (renderProducts (filtered s0) 2)) = filtered s0.
Proof.
  cbn zeta.
  assert (He : handle (fun _ => 0%Q) (init (fun _ => 0%Q) (fun _ => 0%Z) [] 0) NextClick
    = Some (set_rendered (set_currentPage (init (fun _ => 0%Q) (fun _ => 0%Z) [] 0) 2)
              (renderProducts (filtered (init (fun _ => 0%Q) (fun _ => 0%Z) [] 0)) 2)))
    by (vm_compute; reflexivity).
  split; [exact He|]. exact (proj1 (proj2 (navigation_only_reslices _ _ _) He)).
Defined.

Lemma buy_appends_witness :
  let s0 := init (fun _ => 0%Q) (fun _ => 0%Z) [] 0 in
  let s1 := set_cartCount (set_cart s0 (cart s0 ++ [hd (mkProduct 0 [] [] [] 0 [] [] 1 false 0)
              (shown (rendered s0))])) 1 in
  handle (fun _ => 0%Q) s0 (BuyClick 0) = Some s1
  /\ exists p, nth_error (shown (rendered s0)) 0 = Some p
     /\ cart s1 = cart s0 ++ [p] /\ cartCount s1 = Z.of_nat (length (cart s1)).
Proof.
  cbn zeta. match goal with |- ?A = Some ?B /\ _ => assert (He : A = Some B) end.
  { vm_compute. reflexivity. }
  split; [exact He|]. exact (buy_appends _ _ _ _ He).
Defined.

Lemma show_more_keeps_filter_witness :
  let s0 := init (fun _ => 0%Q) (fun _ => 0%Z) [] 0 in
  handle (fun _ => 0%Q) s0 ShowMoreClick
  = Some (set_categoryList (set_showMoreText (set_brandList (set_expanded s0 true)
      (brandBoxes (renderFilterCheckboxes (brandsSet s0) (categoriesSet s0) true)))
      (moreLabel (renderFilterCheckboxes (brandsSet s0) (categoriesSet s0) true)))
      (catBoxes (renderFilterCheckboxes (brandsSet s0) (categoriesSet s0) true)))
  /\ checked_values (brandList (set_categoryList (set_showMoreText (set_brandList
      (set_expanded s0 true)
      (brandBoxes (renderFilterCheckboxes (brandsSet s0) (categoriesSet s0) true)))
      (moreLabel (renderFilterCheckboxes (brandsSet s0) (categoriesSet s0) true)))
      (catBoxes (renderFilterCheckboxes (brandsSet s0) (categoriesSet s0) true)))) = [].
Proof.
  cbn zeta. match goal with |- ?A = Some ?B /\ _ => assert (He : A = Some B) end.
  { vm_compute. reflexivity. }
  split; [exact He|]. exact (proj1 (show_more_keeps_filter _ _ _ He)).
Defined.
