(* ===== verification/Interleaving.v ===== *)
(** * Ordering of a suggestion click and the debounce timer (lines 48-68)

    Typing in the search box clears the pending timer and starts a new one
    (lines 48-57); when it fires 220 ms later it renders the suggestions
    for the text typed and applies the filters.  Clicking a suggestion
    (lines 60-68) puts its title in the box, hides the list and applies
    the filters, but leaves the timer pending.  A click within 220 ms of
    the last key is therefore followed by the old timer: it renders the
    suggestions of the text typed before the click and shows the list the
    click had hidden.  [click_then_fire] states this of every page with a
    pending timer, and [stale_timer_reopens] exhibits it on the seed
    catalog. *)

From Stdlib Require Import String.
From Stdlib Require Import List Bool Arith ZArith NArith QArith Lia.
From S2P Require Import Prelude JsString JsArray JsNumber Catalog Query Pagination Suggestions Page.
Import ListNotations.

(** The user types [typed] and, before the 220 ms have passed, clicks
    the [i]-th suggestion on screen; then the timer fires. *)
Definition type_then_pick (typed : jsstr) (i : nat) : list event :=
  [SearchInput typed; SuggestionClick i; DebounceFire].

Section Interleaving.
Context `{JsSort} (rand : nat -> Q).

(** [applyFiltersAndRender] leaves the search box, the suggestion list,
    the timer and the catalog as they are. *)
Lemma refilter_keeps_search s :
  searchInput (refilter rand s) = searchInput s
  /\ suggestions (refilter rand s) = suggestions s
  /\ suggestionsHidden (refilter rand s) = suggestionsHidden s
  /\ debounceTimer (refilter rand s) = debounceTimer s
  /\ products (refilter rand s) = products s.
Proof.
  unfold refilter, applyFiltersAndRender. cbn.
  destruct (applyFilters _ _ _ _) as [f pos]. repeat split.
Qed.

(** C29: a suggestion click does not cancel the pending search: when the
    user types [v] and picks the [i]-th suggestion before the timer fires,
    the box ends with that suggestion's title, but the timer then renders
    the suggestions for [v] and shows or hides the list by them. *)
Theorem click_then_fire s v i s' :
  run rand s (type_then_pick v i) = Some s' ->
  exists t, nth_error (suggestions s) i = Some t
    /\ searchInput s' = t
    /\ suggestions s' = fst (renderSuggestions (products s) (normalize v))
    /\ suggestionsHidden s' = snd (renderSuggestions (products s) (normalize v))
    /\ debounceTimer s' = None.
Proof.
  unfold type_then_pick. intros Hr. cbn [run handle] in Hr. cbn in Hr.
  destruct (suggestionsHidden s); [discriminate|].
  destruct (nth_error (suggestions s) i) as [t|]; [|discriminate]. exists t. split; [reflexivity|].
  set (s1 := set_suggestionsHidden (set_searchInput (set_debounceTimer (set_searchInput s v)
               (Some (normalize v))) t) true) in Hr.
  destruct (refilter_keeps_search s1) as (Hs1 & _ & _ & Ht1 & Hp1).
  cbn [handle] in Hr. rewrite Ht1, Hp1 in Hr. cbn in Hr.
  destruct (renderSuggestions (products s) (normalize v)) as [items hidden]. injection Hr as <-.
  destruct (refilter_keeps_search (set_suggestionsHidden (set_suggestions
              (set_debounceTimer (refilter rand s1) None) items) hidden)) as (Hs2 & Hi2 & Hh2 & Ht2 & _).
  rewrite Hs2, Hi2, Hh2, Ht2. cbn. rewrite Hs1. auto.
Qed.

End Interleaving.

(** C30: on the seed catalog: type "fram", let the timer fire (two
    suggestions), then type "fra" and pick the first suggestion before
    the timer fires.  The box holds "Filtro de Óleo Fram" and only
    product 5 is shown, yet the old timer has shown again the suggestion
    list the click closed. *)
Theorem stale_timer_reopens now rand :
  exists s, run rand (init rand now [] 0)
              ([SearchInput (ustr "fram"); DebounceFire] ++ type_then_pick (ustr "fra") 0) = Some s
    /\ reachable rand now [] 0 s
    /\ searchInput s = ustr "Filtro de Óleo Fram"
    /\ map id (filtered s) = [5%Z]
    /\ suggestionsHidden s = false
    /\ suggestions s = [ustr "Filtro de Óleo Fram"; ustr "Filtro de Combustível Fram"].
Proof.
  set (es := [SearchInput (ustr "fram"); DebounceFire] ++ type_then_pick (ustr "fra") 0).
  assert (F : option_map (fun s => (searchInput s, map id (filtered s), suggestionsHidden s, suggestions s))
                (run rand (init rand now [] 0) es)
              = Some (ustr "Filtro de Óleo Fram", [5%Z], false,
                      [ustr "Filtro de Óleo Fram"; ustr "Filtro de Combustível Fram"]))
    by (vm_compute; reflexivity).
  destruct (run rand (init rand now [] 0) es) as [s|] eqn:E; [|discriminate].
  injection F as F1 F2 F3 F4. exists s.
  split; [reflexivity|]. split; [eapply run_reachable; [constructor|exact E]|auto].
Qed.

(** ** Witness *)

Lemma click_then_fire_witness :
  let r := fun _ : nat => 0%Q in
  let s0 := set_suggestionsHidden (set_suggestions (init r (fun _ => 0%Z) [] 0)
              [ustr "Filtro de Óleo Fram"]) false in
  exists s', run r s0 (type_then_pick (ustr "fra") 0) = Some s'
    /\ exists t, nth_error (suggestions s0) 0 = Some t
    /\ searchInput s' = t
    /\ suggestions s' = fst (renderSuggestions (products s0) (normalize (ustr "fra")))
    /\ suggestionsHidden s' = snd (renderSuggestions (products s0) (normalize (ustr "fra")))
    /\ debounceTimer s' = None.
Proof.
  cbn zeta. eexists. split; [vm_compute; reflexivity|].
  apply (click_then_fire (fun _ => 0%Q)). vm_compute. reflexivity.
Defined.
