(* ===== verification/Liveness.v ===== *)
(** * Every page of the results can be reached (lines 85-98)

    The "previous" and "next" buttons are the only way to leave page 1
    after a filter.  This file shows that they are enough: from every
    reachable page, a sequence of clicks on them reaches any page between
    1 and [totalPages], without recomputing the filter, and shows that
    page.  The clicks needed are [|k - currentPage|] presses of one button
    ([walk_next], [walk_prev]). *)

From Stdlib Require Import String.
From Stdlib Require Import List Bool Arith ZArith NArith QArith Lia.
From S2P Require Import Prelude JsString JsArray JsNumber Catalog Query Pagination Suggestions Page.
Import ListNotations.

(** The clicks that move from page [cur] to page [k]: [k - cur] times
    "next" forward, [cur - k] times "previous" back. *)
Definition nav_clicks (cur k : Z) : list event :=
  if (cur <=? k)%Z then repeat NextClick (Z.to_nat (k - cur)) else repeat PrevClick (Z.to_nat (cur - k)).

Section Liveness.
Context `{JsSort} (rand : nat -> Q) (now : nat -> Z).

Lemma reachable_page_inv sort0 pos0 s : reachable rand now sort0 pos0 s -> page_inv now s.
Proof. induction 1 as [|s e s' _ IH He]; [apply init_inv|exact (handle_inv rand now s e s' IH He)]. Qed.

(** [n] clicks on "next" move [n] pages forward while there are pages. *)
Lemma walk_next n s :
  page_inv now s -> (currentPage s + Z.of_nat n <= totalPages (length (filtered s)))%Z ->
  exists s', run rand s (repeat NextClick n) = Some s'
    /\ currentPage s' = (currentPage s + Z.of_nat n)%Z /\ filtered s' = filtered s /\ page_inv now s'.
Proof.
  revert s. induction n as [|n IH]; intros s Hi Hn.
  - exists s. split; [reflexivity|]. split; [lia|auto].
  - pose proof (proj1 (proj2 Hi)) as Hc. cbn [repeat run handle]. unfold next_page.
    destruct (Z.ltb_spec (currentPage s) (totalPages (length (filtered s)))); [|lia].
    set (s1 := set_rendered (set_currentPage s (currentPage s + 1))
                 (renderProducts (filtered s) (currentPage s + 1))).
    assert (Hi1 : page_inv now s1) by (apply goto_inv; [exact Hi|lia]).
    destruct (IH s1 Hi1 ltac:(cbn; lia)) as (s' & Hr & Hc' & Hf & Hi').
    exists s'. split; [exact Hr|]. cbn in Hc', Hf. split; [lia|auto].
Qed.

(** [n] clicks on "previous" move [n] pages back while there are pages. *)
Lemma walk_prev n s :
  page_inv now s -> (1 <= currentPage s - Z.of_nat n)%Z ->
  exists s', run rand s (repeat PrevClick n) = Some s'
    /\ currentPage s' = (currentPage s - Z.of_nat n)%Z /\ filtered s' = filtered s /\ page_inv now s'.
Proof.
  revert s. induction n as [|n IH]; intros s Hi Hn.
  - exists s. split; [reflexivity|]. split; [lia|auto].
  - pose proof (proj1 (proj2 Hi)) as Hc. cbn [repeat run handle]. unfold prev_page.
    destruct (Z.ltb_spec 1 (currentPage s)); [|lia].
    set (s1 := set_rendered (set_currentPage s (currentPage s - 1))
                 (renderProducts (filtered s) (currentPage s - 1))).
    assert (Hi1 : page_inv now s1) by (apply goto_inv; [exact Hi|lia]).
    destruct (IH s1 Hi1 ltac:(cbn; lia)) as (s' & Hr & Hc' & Hf & Hi').
    exists s'. split; [exact Hr|]. cbn in Hc', Hf. split; [lia|auto].
Qed.

(** C31: from every reachable page, the clicks on "previous" and "next"
    of [nav_clicks] reach any page [k] between 1 and [totalPages]: the
    page then shows page [k] of the same [filtered] list. *)
Theorem every_page_reachable sort0 pos0 s k :
  reachable rand now sort0 pos0 s -> (1 <= k <= totalPages (length (filtered s)))%Z ->
  exists s', run rand s (nav_clicks (currentPage s) k) = Some s'
    /\ currentPage s' = k /\ filtered s' = filtered s /\ rendered s' = renderProducts (filtered s) k.
Proof.
  intros Hr Hk. pose proof (reachable_page_inv sort0 pos0 s Hr) as Hi.
  pose proof (proj1 (proj2 Hi)) as Hc.
  assert (Hview : forall s', page_inv now s' -> filtered s' = filtered s -> currentPage s' = k ->
            rendered s' = renderProducts (filtered s) k).
  { intros s' (_ & _ & Hr' & _) Hf Hc'. rewrite Hr', Hf, Hc'. reflexivity. }
  unfold nav_clicks. destruct (Z.leb_spec (currentPage s) k).
  - destruct (walk_next (Z.to_nat (k - currentPage s)) s Hi ltac:(lia)) as (s' & Hrun & Hc' & Hf & Hi').
    exists s'. split; [exact Hrun|]. assert (currentPage s' = k) by lia. auto.
  - destruct (walk_prev (Z.to_nat (currentPage s - k)) s Hi ltac:(lia)) as (s' & Hrun & Hc' & Hf & Hi').
    exists s'. split; [exact Hrun|]. assert (currentPage s' = k) by lia. auto.
Qed.

End Liveness.

(** ** Witness *)

Lemma every_page_reachable_witness :
  let r := fun _ : nat => 0%Q in
  let t := fun _ : nat => 0%Z in
  reachable r t [] 0 (init r t [] 0)
  /\ (1 <= 2 <= totalPages (length (filtered (init r t [] 0))))%Z
  /\ exists s', run r (init r t [] 0) (nav_clicks (currentPage (init r t [] 0)) 2) = Some s'
    /\ currentPage s' = 2%Z /\ filtered s' = filtered (init r t [] 0)
    /\ rendered s' = renderProducts (filtered (init r t [] 0)) 2.
Proof.
  cbn zeta. split; [constructor|]. split; [vm_compute; split; discriminate|].
  apply (every_page_reachable (fun _ => 0%Q) (fun _ => 0%Z) [] 0); [constructor|vm_compute; split; discriminate].
Defined.
