(* ===== verification/Types.v ===== *)
(** * The type of JavaScript strings: 16-bit code units

    A JavaScript string is a sequence of 16-bit code units; the model
    writes one as [list N], which has room for any number.  This file
    shows that the model never leaves the type: every string a page
    stores or shows (the catalog's texts, the search and price fields,
    the checkbox values and label, the suggestions, the pending search,
    the five texts of every card) is made of code units below [2^16],
    provided the text the user types is ([page16_run]).  The operations
    that make new strings keep the type: [toLowerCase] and [trim]
    ([normalize16]), [toFixed(2).replace] and [String(n)] ([money16],
    [z_to_str16]). *)

From Stdlib Require Import String.
From Stdlib Require Import List Bool Arith ZArith NArith QArith Lia Permutation.
From S2P Require Import Prelude JsString JsArray JsNumber Catalog Cards Query Pagination Suggestions Page.
Import ListNotations.

(** ** The predicates *)

Definition str16 (s : jsstr) : bool := forallb (fun c => (c <? 65536)%N) s.

Definition product16 (p : product) : bool :=
  str16 (title p) && str16 (brand p) && str16 (category p) && str16 (model p) && str16 (image p).

Definition card16 (c : card) : bool :=
  str16 (cardImage c) && str16 (cardAlt c) && str16 (cardTitle c) && str16 (cardPrice c)
  && str16 (cardInstallments c).

(** The events that carry text typed by the user carry 16-bit text. *)
Definition event16 (e : event) : bool :=
  match e with
  | SortChange v | SearchInput v | PriceMinInput v | PriceMaxInput v => str16 v
  | _ => true
  end.

Definition page16 (s : page) : Prop :=
  forallb product16 (products s) = true /\ forallb product16 (filtered s) = true
  /\ forallb str16 (brandsSet s) = true /\ forallb str16 (categoriesSet s) = true
  /\ str16 (searchInput s) = true
  /\ forallb (fun b => str16 (fst b)) (brandList s) = true
  /\ forallb (fun b => str16 (fst b)) (categoryList s) = true
  /\ str16 (priceMin s) = true /\ str16 (priceMax s) = true /\ str16 (sortSelect s) = true
  /\ str16 (showMoreText s) = true /\ forallb str16 (suggestions s) = true
  /\ match debounceTimer s with Some q => str16 q = true | None => True end
  /\ forallb card16 (cards (rendered s)) = true.

Ltac page16_cases H :=
  destruct H as (?&?&?&?&?&?&?&?&?&?&?&?&?&?); repeat split; cbn in *; auto.

(** ** Strings *)

Lemma str16_In s : str16 s = true <-> forall c, In c s -> (c < 65536)%N.
Proof.
  unfold str16. rewrite forallb_forall. split; intros H c Hc; specialize (H c Hc);
    [apply N.ltb_lt|apply N.ltb_lt in H]; assumption.
Qed.

Lemma str16_app a b : str16 (a ++ b) = str16 a && str16 b.
Proof. apply forallb_app. Qed.

Lemma forallb_incl {A} (f : A -> bool) l l' : incl l l' -> forallb f l' = true -> forallb f l = true.
Proof. rewrite !forallb_forall. intros Hi H x Hx. exact (H x (Hi x Hx)). Qed.

Lemma forallb_perm {A} (f : A -> bool) l l' : Permutation l l' -> forallb f l = true -> forallb f l' = true.
Proof. intros P. apply forallb_incl. intros x Hx. exact (Permutation_in x (Permutation_sym P) Hx). Qed.

Lemma forallb_map_comp {A B} (f : B -> bool) (g : A -> B) l :
  forallb f (map g l) = forallb (fun x => f (g x)) l.
Proof. induction l as [|x l IH]; cbn; [reflexivity|]. rewrite IH. reflexivity. Qed.

Lemma digits16 s : Forall (fun c => is_digit c = true) s -> str16 s = true.
Proof.
  intros H. apply str16_In. intros c Hc. rewrite Forall_forall in H. specialize (H c Hc).
  unfold is_digit in H. apply andb_true_iff in H as [_ H]. apply N.leb_le in H. lia.
Qed.

Lemma normalize16 s : str16 s = true -> str16 (normalize s) = true.
Proof.
  intros H. unfold normalize, toLowerCase. destruct (trim_infix s) as (pre & suf & E).
  rewrite E, !str16_app in H. apply andb_true_iff in H as [_ H]. apply andb_true_iff in H as [H _].
  unfold str16 in *. rewrite forallb_forall in *. intros c Hc. apply in_map_iff in Hc as (c0 & <- & Hc0).
  specialize (H c0 Hc0). apply N.ltb_lt in H. apply N.ltb_lt. unfold lower_unit.
  destruct (_ || _) eqn:E'; [|exact H]. apply orb_true_iff in E' as [E'|E']; bool_split;
    repeat match goal with Hb : (_ <=? _)%N = true |- _ => apply N.leb_le in Hb end; lia.
Qed.

Lemma replace_first_In s a b c : In c (replace_first s a b) -> In c s \/ c = b.
Proof.
  induction s as [|d s IH]; cbn; [tauto|]. destruct (d =? a)%N; cbn; [intuition|].
  intros [->|H]; [auto|]. destruct (IH H); auto.
Qed.

Lemma fixed2_16 x : str16 (fixed2_nonneg x) = true.
Proof.
  destruct (fixed2_shape x) as (a & b & -> & _ & _ & Hd & _).
  apply Forall_app in Hd as [Ha Hb]. rewrite !str16_app, (digits16 a Ha), (digits16 b Hb). reflexivity.
Qed.

Lemma money16 x : str16 (money x) = true.
Proof.
  apply str16_In. intros c Hc. apply replace_first_In in Hc as [Hc| ->]; [|lia].
  unfold toFixed2 in Hc. destruct (Qle_bool 0 x);
    [|destruct Hc as [<-|Hc]; [lia|]]; revert c Hc; apply str16_In, fixed2_16.
Qed.

Lemma z_to_str16 z : str16 (z_to_str z) = true.
Proof.
  unfold z_to_str. destruct (z <? 0)%Z; [cbn [str16 forallb]; apply andb_true_iff; split; [reflexivity|]|];
    apply digits16, n_to_str_spec.
Qed.

(** ** What the page computes *)

Lemma installment_text16 x n : str16 (installment_text x n) = true.
Proof. unfold installment_text. destruct (n =? 0)%Z; [destruct (x ?= 0); reflexivity|apply money16]. Qed.

Lemma card_of16 p : product16 p = true -> card16 (card_of p) = true.
Proof.
  unfold product16. intros H.
  apply andb_true_iff in H as [H Hi]. do 3 (apply andb_true_iff in H as [H _]).
  unfold card16, card_of. cbn [cardImage cardAlt cardTitle cardPrice cardInstallments].
  rewrite Hi, H, money16, !str16_app, z_to_str16, installment_text16. reflexivity.
Qed.

Lemma renderProducts16 l k : forallb product16 l = true -> forallb card16 (cards (renderProducts l k)) = true.
Proof.
  intros H. change (cards (renderProducts l k)) with (map card_of (shown (renderProducts l k))).
  apply forallb_forall. intros c Hc. apply in_map_iff in Hc as (p & <- & Hp).
  apply card_of16. rewrite forallb_forall in H. exact (H p (shown_incl l k p Hp)).
Qed.

(** The suggestions are titles of the catalog: they have every property
    all the titles have. *)
Lemma renderSuggestions_forall (P : jsstr -> bool) products q :
  forallb (fun p => P (title p)) products = true -> forallb P (fst (renderSuggestions products q)) = true.
Proof.
  intros H. unfold renderSuggestions. destruct (negb _); [reflexivity|]. destruct (Nat.eqb _ 0); [reflexivity|].
  cbn [fst]. rewrite forallb_map_comp. apply (forallb_incl _ _ products); [|exact H].
  intros p Hp. unfold js_slice in Hp. apply In_firstn, In_skipn, filter_In in Hp as [Hp _]. exact Hp.
Qed.

Lemma renderSuggestions16 products q :
  forallb product16 products = true -> forallb str16 (fst (renderSuggestions products q)) = true.
Proof.
  intros H. apply renderSuggestions_forall. apply forallb_forall. intros p Hp.
  rewrite forallb_forall in H. specialize (H p Hp). unfold product16 in H. bool_split. assumption.
Qed.

(** The checkbox values are values of the sets: they have every property
    all the values have. *)
Lemma checkboxes_forall `{JsSort} (P : jsstr -> bool) bs cs ex :
  forallb P bs = true -> forallb P cs = true ->
  let cb := renderFilterCheckboxes bs cs ex in
  forallb (fun b => P (fst b)) (brandBoxes cb) = true /\ forallb (fun b => P (fst b)) (catBoxes cb) = true.
Proof.
  intros Hb Hc. cbn. unfold sortedValues. rewrite !forallb_map_comp. cbn. split.
  - apply (forallb_incl _ _ (js_sort str_compare bs)); [intros x Hx; unfold js_slice in Hx;
      apply In_firstn, In_skipn in Hx; exact Hx|].
    apply (forallb_perm _ bs); [apply js_sort_perm|exact Hb].
  - apply (forallb_perm _ cs); [apply js_sort_perm|exact Hc].
Qed.

Lemma checkboxes16 `{JsSort} bs cs ex :
  forallb str16 bs = true -> forallb str16 cs = true ->
  let cb := renderFilterCheckboxes bs cs ex in
  forallb (fun b => str16 (fst b)) (brandBoxes cb) = true
  /\ forallb (fun b => str16 (fst b)) (catBoxes cb) = true /\ str16 (moreLabel cb) = true.
Proof.
  intros Hb Hc. destruct (checkboxes_forall str16 bs cs ex Hb Hc) as [H1 H2].
  split; [exact H1|split; [exact H2|destruct ex; reflexivity]].
Qed.

Lemma toggle_box_fst boxes i : map fst (toggle_box boxes i) = map fst boxes.
Proof.
  revert i; induction boxes as [|[v b] rest IH]; intros [|i]; cbn; try reflexivity. f_equal. apply IH.
Qed.

Lemma toggle_box_forall (P : jsstr -> bool) boxes i :
  forallb (fun b => P (fst b)) boxes = true -> forallb (fun b => P (fst b)) (toggle_box boxes i) = true.
Proof.
  rewrite <- !(forallb_map_comp P fst), toggle_box_fst. exact (fun H => H).
Qed.

(** The seed catalog's texts are 16-bit. *)
Lemma seed16 now :
  forallb product16 (createSampleProducts now) = true
  /\ forallb str16 (fst (populateFilterSets (createSampleProducts now))) = true
  /\ forallb str16 (snd (populateFilterSets (createSampleProducts now))) = true.
Proof. vm_compute. repeat split. Qed.

(** ** The page *)

Section Page16.
Context `{JsSort} (rand : nat -> Q).

Lemma filtered16 s :
  forallb product16 (products s) = true ->
  forallb product16 (fst (applyFilters (products s) (query_of s) rand (randPos s))) = true.
Proof.
  intros Hp. apply (forallb_perm _ _ _ (applyFilters_perm _ _ rand _)).
  apply (forallb_incl _ _ (products s)); [intros p Hin; apply filter_In in Hin; apply Hin|exact Hp].
Qed.

Lemma refilter16 s : page16 s -> page16 (refilter rand s).
Proof.
  intros Hs. pose proof (filtered16 (set_currentPage s 1) (proj1 Hs)) as Hf.
  unfold refilter, applyFiltersAndRender in *.
  destruct (applyFilters _ _ _ _) as [f pos]. cbn [fst] in Hf.
  pose proof (renderProducts16 f 1 Hf). page16_cases Hs.
Qed.

Lemma handle16 s e s' : page16 s -> event16 e = true -> handle rand s e = Some s' -> page16 s'.
Proof.
  intros Hs He. pose proof Hs as (Hp & Hf & Hb & Hc & _ & Hbl & Hcl & _ & _ & _ & _ & Hsg & _).
  destruct e as [v|b|v| |i|i|i| |v|v| | | |i|]; cbn [handle event16] in *.
  - injection 1 as <-. apply refilter16. page16_cases Hs.
  - injection 1 as <-. apply refilter16. page16_cases Hs.
  - injection 1 as <-. page16_cases Hs. apply normalize16. exact He.
  - destruct (debounceTimer s) as [q|]; [|discriminate].
    pose proof (renderSuggestions16 (products s) q Hp) as Hr.
    destruct (renderSuggestions (products s) q) as [items hidden]. injection 1 as <-.
    apply refilter16. page16_cases Hs.
  - destruct (suggestionsHidden s); [discriminate|].
    destruct (nth_error (suggestions s) i) as [t|] eqn:Et; [|discriminate]. injection 1 as <-.
    apply refilter16. page16_cases Hs. rewrite forallb_forall in Hsg. exact (Hsg t (nth_error_In _ _ Et)).
  - destruct (i <? length (brandList s)); [|discriminate]. injection 1 as <-.
    apply refilter16. page16_cases Hs. apply toggle_box_forall. exact Hbl.
  - destruct (i <? length (categoryList s)); [|discriminate]. injection 1 as <-.
    apply refilter16. page16_cases Hs. apply toggle_box_forall. exact Hcl.
  - injection 1 as <-. destruct (checkboxes16 (brandsSet s) (categoriesSet s) (negb (expanded s)) Hb Hc)
      as (H1 & H2 & H3). page16_cases Hs.
  - injection 1 as <-. page16_cases Hs.
  - injection 1 as <-. page16_cases Hs.
  - injection 1 as <-. apply refilter16. exact Hs.
  - destruct (prev_page (currentPage s)) as [c|]; injection 1 as <-; [|exact Hs].
    pose proof (renderProducts16 _ c Hf). page16_cases Hs.
  - destruct (next_page (filtered s) (currentPage s)) as [c|]; injection 1 as <-; [|exact Hs].
    pose proof (renderProducts16 _ c Hf). page16_cases Hs.
  - destruct (nth_error (shown (rendered s)) i); [|discriminate]. injection 1 as <-. page16_cases Hs.
  - injection 1 as <-. exact Hs.
Qed.

Lemma init16 now sort0 pos0 : str16 sort0 = true -> page16 (init rand now sort0 pos0).
Proof.
  intros Hs. unfold init. rewrite applyFiltersAndRender_refilter. apply refilter16.
  destruct (seed16 now) as (Hp & Hb & Hc).
  destruct (checkboxes16 _ _ false Hb Hc) as (H1 & H2 & H3).
  repeat split; cbn; auto.
Qed.

Lemma run16 s es s' :
  page16 s -> forallb event16 es = true -> run rand s es = Some s' -> page16 s'.
Proof.
  revert s. induction es as [|e es IH]; intros s Hs He; cbn [run]; [injection 1 as <-; exact Hs|].
  apply andb_true_iff in He as [He1 He2].
  destruct (handle rand s e) as [s1|] eqn:E; [|discriminate].
  exact (IH s1 (handle16 s e s1 Hs He1 E) He2).
Qed.

(** The model stays within JavaScript's string type: on every page
    a run of events reaches from the initial page, when the sort select's
    initial value and every text the user types are made of 16-bit code
    units, so is every string the page stores or shows (catalog texts,
    fields, checkbox values and label, suggestions, pending search, the
    texts of every card). *)
Theorem page16_run now sort0 pos0 es s' :
  str16 sort0 = true -> forallb event16 es = true ->
  run rand (init rand now sort0 pos0) es = Some s' -> page16 s'.
Proof. intros Hs He. apply run16; [apply init16; exact Hs|exact He]. Qed.

End Page16.
