(* ===== verification/Dom.v ===== *)
(** * What the script writes into the document, and reading it back

    The page model keeps the values the script reads back from the DOM:
    the titles of the suggestion list ([ev.target.textContent] of a
    clicked [<li>], line 63) and the values of the checkboxes
    ([i.value], lines 306-308).  This file models the markup the script
    writes ([innerHTML] of lines 262, 273 and 298, the ids of lines 261
    and 272) and the other texts it shows (the counters of lines 112,
    342 and 344, the empty-grid message of line 353, the alert of line
    113, the WhatsApp link of line 103), gathers them as the [dom] of a
    page ([dom_of]), and shows that reading the markup back gives the
    values the model keeps: [suggestions_readback] and
    [value_readback] for strings without markup characters, and
    [dom_readback] for every reachable page, whose strings all come from
    the catalog ([reachable_markup]).

    The readers [read_li] and [read_value] follow the HTML tokenizer on
    this markup: between the tags, text without [<] or [&] is character
    data, and a double-quoted attribute value without [&] or a double quote is read
    as written.  Neither the script nor the readers escape anything: a
    title with a [<] would be read back differently ([markup_breaks]). *)

From Stdlib Require Import String.
From Stdlib Require Import List Bool Arith ZArith NArith QArith Lia Permutation.
From S2P Require Import Prelude JsString JsArray JsNumber Catalog Cards Query Pagination Suggestions Page Types.
Import ListNotations.

(** ** The markup *)

(** A double quote, which a literal of this file cannot hold. *)
Definition dq : jsstr := [34%N].

(** [\w] of a regular expression without the [u] flag: [A-Za-z0-9_]. *)
Definition word_char (c : N) : bool :=
  (((48 <=? c) && (c <=? 57)) || ((65 <=? c) && (c <=? 90)) || ((97 <=? c) && (c <=? 122)) || (c =? 95))%N.

(** [`brand_${brand.replace(/\W/g, '')}`] and [`cat_${...}`]. *)
Definition box_id (prefix v : jsstr) : jsstr := prefix ++ filter word_char v.

Definition input_prefix : jsstr :=
  ustr "<input type=" ++ dq ++ ustr "checkbox" ++ dq ++ ustr " value=" ++ dq.

(** [label.innerHTML = `<input type="checkbox" value="${v}" id="${id}"> ${v}`]. *)
Definition label_html (v id : jsstr) : jsstr :=
  input_prefix ++ v ++ dq ++ ustr " id=" ++ dq ++ id ++ dq ++ ustr "> " ++ v.

Definition li_html (t : jsstr) : jsstr := ustr "<li>" ++ t ++ ustr "</li>".

(** [matches.map(p => `<li>${p.title}</li>`).join('')]; the empty list
    is the [innerHTML = ''] of the two early returns. *)
Definition suggestions_html (items : list jsstr) : jsstr := concat (map li_html items).

Definition empty_grid_html : jsstr :=
  ustr "<div style=" ++ dq
  ++ ustr "padding:20px;background:#fff;border-radius:10px;border:1px solid #eee;text-align:center;"
  ++ dq ++ ustr ">Nenhum produto encontrado</div>".

(** [productsCount.textContent = filtered.length]. *)
Definition products_count_text (v : view) : jsstr := z_to_str (productsCount v).

(** [pageInfo.textContent = `${currentPage} / ${totalPages}`]. *)
Definition page_info_text (v : view) : jsstr :=
  z_to_str (fst (pageInfo v)) ++ ustr " / " ++ z_to_str (snd (pageInfo v)).

(** [productsGrid.innerHTML]: emptied, then the message when the page is
    empty; the cards are nodes appended to it. *)
Definition grid_html (v : view) : jsstr := if emptyMessage v then empty_grid_html else [].

(** [alert(`Produto "${p.title}" adicionado ao carrinho!`)]. *)
Definition cart_alert (p : product) : jsstr :=
  ustr "Produto " ++ dq ++ title p ++ dq ++ ustr " adicionado ao carrinho!".

(** The alert the buy button of the [i]-th card raises. *)
Definition buy_alert (s : page) (i : nat) : option jsstr :=
  option_map cart_alert (nth_error (shown (rendered s)) i).

(** The link [window.open] opens. *)
Definition whatsapp_url : jsstr :=
  ustr "https://wa.me/5511999999999?text=Ol%C3%A1%20Pe%C3%A7aAq%2C%20gostaria%20de%20ajuda%20com%20uma%20pe%C3%A7a".

(** The texts and markup of a page. *)
Record dom : Set := mkDom {
  productsCountText : jsstr;
  pageInfoText : jsstr;
  gridHtml : jsstr;
  brandLabels : list jsstr;          (** the [<label>]s of [brandList] *)
  categoryLabels : list jsstr;
  showMoreLabel : jsstr;
  suggestionsHtml : jsstr;
  suggestionsHiddenClass : bool;     (** the [hidden] class of the list *)
  cartCountText : jsstr
}.

Definition labels (prefix : jsstr) (boxes : list (jsstr * bool)) : list jsstr :=
  map (fun b => label_html (fst b) (box_id prefix (fst b))) boxes.

Definition dom_of (s : page) : dom :=
  mkDom (products_count_text (rendered s)) (page_info_text (rendered s)) (grid_html (rendered s))
    (labels (ustr "brand_") (brandList s)) (labels (ustr "cat_") (categoryList s))
    (showMoreText s) (suggestions_html (suggestions s)) (suggestionsHidden s)
    (z_to_str (cartCount s)).

(** ** Reading the markup back *)

Fixpoint strip_prefix (p s : jsstr) : option jsstr :=
  match p, s with
  | [], _ => Some s
  | c :: p', d :: s' => if (c =? d)%N then strip_prefix p' s' else None
  | _ :: _, [] => None
  end.

(** The text up to the first [stop]. *)
Fixpoint take_until (stop : N) (s : jsstr) : jsstr * jsstr :=
  match s with
  | [] => ([], [])
  | c :: s' => if (c =? stop)%N then ([], s) else let '(t, r) := take_until stop s' in (c :: t, r)
  end.

(** The [textContent] of each [<li>] of a list of [<li>]s. *)
Fixpoint read_li_fuel (fuel : nat) (s : jsstr) : option (list jsstr) :=
  match s, fuel with
  | [], _ => Some []
  | _, O => None
  | _, S f =>
      match strip_prefix (ustr "<li>") s with
      | None => None
      | Some s1 =>
          let '(t, r) := take_until 60 s1 in
          match strip_prefix (ustr "</li>") r with
          | None => None
          | Some r' => option_map (cons t) (read_li_fuel f r')
          end
      end
  end.

Definition read_li (s : jsstr) : option (list jsstr) := read_li_fuel (length s) s.

(** The [value] of the checkbox of a label. *)
Definition read_value (label : jsstr) : option jsstr :=
  option_map (fun r => fst (take_until 34 r)) (strip_prefix input_prefix label).

(** No [<], [&] or double quote: text the tokenizer reads as written. *)
Definition markup_free (t : jsstr) : bool :=
  forallb (fun c => negb ((c =? 60) || (c =? 38) || (c =? 34))%N) t.

(** The strings of a page the script writes as markup: the titles of the
    catalog (the suggestions are made of them), the values of the sets,
    and what the suggestion list and the checkboxes hold. *)
Definition markup_ok (s : page) : Prop :=
  forallb (fun p => markup_free (title p)) (products s) = true
  /\ forallb markup_free (brandsSet s) = true /\ forallb markup_free (categoriesSet s) = true
  /\ forallb markup_free (suggestions s) = true
  /\ forallb (fun b => markup_free (fst b)) (brandList s) = true
  /\ forallb (fun b => markup_free (fst b)) (categoryList s) = true.

Ltac markup_cases H := destruct H as (?&?&?&?&?&?); repeat split; cbn in *; auto.

(** ** Reading back *)

Lemma strip_prefix_app p s : strip_prefix p (p ++ s) = Some s.
Proof. induction p as [|c p IH]; cbn; [reflexivity|]. rewrite N.eqb_refl. exact IH. Qed.

Lemma take_until_app stop t r :
  forallb (fun c => negb (c =? stop)%N) t = true -> take_until stop (t ++ stop :: r) = (t, stop :: r).
Proof.
  induction t as [|c t IH]; cbn; intros H; [rewrite N.eqb_refl; reflexivity|].
  apply andb_true_iff in H as [H1 H2]. destruct (c =? stop)%N; [discriminate|]. rewrite (IH H2). reflexivity.
Qed.

(** Markup-free text has no [<] and no double quote. *)
Lemma markup_free_stop t stop :
  markup_free t = true -> stop = 60%N \/ stop = 34%N -> forallb (fun c => negb (c =? stop)%N) t = true.
Proof.
  unfold markup_free. rewrite !forallb_forall. intros H Hs c Hc. specialize (H c Hc).
  destruct Hs as [->| ->]; destruct (c =? 60)%N, (c =? 38)%N, (c =? 34)%N; cbn in *; congruence.
Qed.

Lemma read_li_cons f t rest :
  markup_free t = true -> read_li_fuel (S f) (li_html t ++ rest) = option_map (cons t) (read_li_fuel f rest).
Proof.
  intros H. unfold li_html. change (ustr "<li>") with [60; 108; 105; 62]%N.
  change (ustr "</li>") with [60; 47; 108; 105; 62]%N. cbn [read_li_fuel app strip_prefix].
  change (ustr "<li>") with [60; 108; 105; 62]%N. change (ustr "</li>") with [60; 47; 108; 105; 62]%N.
  cbn [strip_prefix N.eqb Pos.eqb]. rewrite <- app_assoc. cbn [app].
  rewrite take_until_app by (apply markup_free_stop; auto). reflexivity.
Qed.

Lemma suggestions_html_length items : (length items <= length (suggestions_html items))%nat.
Proof.
  induction items as [|t items IH]; [reflexivity|]. unfold suggestions_html in *. cbn [map concat].
  rewrite length_app. unfold li_html at 1. change (ustr "<li>") with [60; 108; 105; 62]%N. cbn [app length]. lia.
Qed.

Lemma read_li_fuel_html f items :
  forallb markup_free items = true -> (length items <= f)%nat -> read_li_fuel f (suggestions_html items) = Some items.
Proof.
  revert f. induction items as [|t items IH]; intros f H Hf; [destruct f; reflexivity|].
  destruct f as [|f]; [cbn in Hf; lia|]. apply andb_true_iff in H as [H1 H2].
  unfold suggestions_html. cbn [map concat]. rewrite read_li_cons by exact H1.
  fold (suggestions_html items). rewrite IH by (auto; cbn in Hf; lia). reflexivity.
Qed.

(** Reading the [<li>]s of the list back gives the items written. *)
Lemma suggestions_readback items :
  forallb markup_free items = true -> read_li (suggestions_html items) = Some items.
Proof. intros H. apply read_li_fuel_html; [exact H|apply suggestions_html_length]. Qed.

(** The [value] of the checkbox of a label is the value written. *)
Lemma value_readback v id : markup_free v = true -> read_value (label_html v id) = Some v.
Proof.
  intros H. unfold read_value, label_html. rewrite strip_prefix_app. cbn [option_map].
  unfold dq. cbn [app]. rewrite take_until_app by (apply markup_free_stop; auto). reflexivity.
Qed.

Lemma labels_readback prefix boxes :
  forallb (fun b => markup_free (fst b)) boxes = true ->
  map read_value (labels prefix boxes) = map (fun b => Some (fst b)) boxes.
Proof.
  intros H. unfold labels. rewrite map_map. apply map_ext_in. intros b Hb.
  apply value_readback. rewrite forallb_forall in H. exact (H b Hb).
Qed.

(** The seed catalog has no markup in its titles, brands or categories. *)
Lemma seed_markup now :
  forallb (fun p => markup_free (title p)) (createSampleProducts now) = true
  /\ forallb markup_free (fst (populateFilterSets (createSampleProducts now))) = true
  /\ forallb markup_free (snd (populateFilterSets (createSampleProducts now))) = true.
Proof. vm_compute. repeat split. Qed.

(** ** The markup of every reachable page *)

Section Readback.
Context `{JsSort} (rand : nat -> Q) (now : nat -> Z).

Lemma refilter_markup s : markup_ok s -> markup_ok (refilter rand s).
Proof.
  intros Hs. unfold refilter, applyFiltersAndRender. destruct (applyFilters _ _ _ _). markup_cases Hs.
Qed.

(** No handler writes markup into the strings of [markup_ok]: the
    catalog and the sets never change, the suggestions are titles, the
    checkbox values are values of the sets. *)
Lemma handle_markup s e s' : markup_ok s -> handle rand s e = Some s' -> markup_ok s'.
Proof.
  intros Hs. pose proof Hs as (Hp & Hb & Hc & Hsg & Hbl & Hcl).
  destruct e as [v|b|v| |i|i|i| |v|v| | | |i|]; cbn [handle].
  - injection 1 as <-. apply refilter_markup. markup_cases Hs.
  - injection 1 as <-. apply refilter_markup. markup_cases Hs.
  - injection 1 as <-. markup_cases Hs.
  - destruct (debounceTimer s) as [q|]; [|discriminate].
    pose proof (renderSuggestions_forall markup_free (products s) q Hp) as Hr.
    destruct (renderSuggestions (products s) q) as [items hidden]. injection 1 as <-.
    apply refilter_markup. markup_cases Hs.
  - destruct (suggestionsHidden s); [discriminate|].
    destruct (nth_error (suggestions s) i); [|discriminate]. injection 1 as <-.
    apply refilter_markup. markup_cases Hs.
  - destruct (i <? length (brandList s)); [|discriminate]. injection 1 as <-.
    apply refilter_markup. markup_cases Hs. apply toggle_box_forall. exact Hbl.
  - destruct (i <? length (categoryList s)); [|discriminate]. injection 1 as <-.
    apply refilter_markup. markup_cases Hs. apply toggle_box_forall. exact Hcl.
  - injection 1 as <-. destruct (checkboxes_forall markup_free _ _ (negb (expanded s)) Hb Hc).
    markup_cases Hs.
  - injection 1 as <-. markup_cases Hs.
  - injection 1 as <-. markup_cases Hs.
  - injection 1 as <-. apply refilter_markup. exact Hs.
  - destruct (prev_page (currentPage s)); injection 1 as <-; [markup_cases Hs|exact Hs].
  - destruct (next_page (filtered s) (currentPage s)); injection 1 as <-; [markup_cases Hs|exact Hs].
  - destruct (nth_error (shown (rendered s)) i); [|discriminate]. injection 1 as <-. markup_cases Hs.
  - injection 1 as <-. exact Hs.
Qed.

Lemma init_markup sort0 pos0 : markup_ok (init rand now sort0 pos0).
Proof.
  unfold init. rewrite applyFiltersAndRender_refilter. apply refilter_markup.
  destruct (seed_markup now) as (Hp & Hb & Hc).
  destruct (checkboxes_forall markup_free _ _ false Hb Hc) as [H1 H2].
  repeat split; cbn; auto.
Qed.

Lemma reachable_markup sort0 pos0 s : reachable rand now sort0 pos0 s -> markup_ok s.
Proof.
  induction 1 as [|s e s' _ IH He]; [apply init_markup|exact (handle_markup s e s' IH He)].
Qed.

(** C32: the markup the page writes reads back as the values the script
    later reads from the document: on every reachable page, the
    [textContent]s of the [<li>]s of the suggestion list are the
    suggestions (what a click puts in the search box), and the [value]s
    of the brand and category checkboxes are the values of the
    checkboxes (what [applyFiltersAndRender] compares with the brands and
    categories of the products). *)
Theorem dom_readback sort0 pos0 s :
  reachable rand now sort0 pos0 s ->
  read_li (suggestionsHtml (dom_of s)) = Some (suggestions s)
  /\ map read_value (brandLabels (dom_of s)) = map (fun b => Some (fst b)) (brandList s)
  /\ map read_value (categoryLabels (dom_of s)) = map (fun b => Some (fst b)) (categoryList s).
Proof.
  intros Hr. destruct (reachable_markup sort0 pos0 s Hr) as (_ & _ & _ & Hsg & Hbl & Hcl). cbn.
  split; [apply suggestions_readback; exact Hsg|split; apply labels_readback; assumption].
Qed.

End Readback.

(** ** Markup in the catalog, and the ids *)

(** Without the seed's guarantee the read-back fails: a title with a [<]
    is not read back from its [<li>]. *)
Lemma markup_breaks : read_li (suggestions_html [ustr "Kit <2 pe"]) <> Some [ustr "Kit <2 pe"].
Proof. vm_compute. discriminate. Qed.

(** [\W] removes the accented letters: two different categories can get
    the same id. *)
Lemma box_id_lossy : box_id (ustr "cat_") (ustr "Óleo") = box_id (ustr "cat_") (ustr "leo").
Proof. vm_compute. reflexivity. Qed.

(** The spec's example: buying the first product twice shows a cart
    count of 2, and each click raises the alert with its title. *)
Lemma cart_display_twice :
  option_map (fun s => (cartCountText (dom_of s), length (cart s)))
    (run (fun _ => 0%Q) (init (fun _ => 0%Q) (fun _ => 0%Z) (ustr "relevance") 0) [BuyClick 0; BuyClick 0])
  = Some (ustr "2", 2%nat)
  /\ buy_alert (init (fun _ => 0%Q) (fun _ => 0%Z) (ustr "relevance") 0) 0
     = Some (ustr "Produto " ++ dq ++ ustr "Pastilha de Freio Bosch - Corolla 2016" ++ dq ++ ustr " adicionado ao carrinho!").
Proof. split; vm_compute; reflexivity. Qed.

(** ** Witness *)

Lemma dom_readback_witness :
  let r := fun _ : nat => 0%Q in
  let t := fun _ : nat => 0%Z in
  match run r (init r t [] 0) [SearchInput (ustr "fram"); DebounceFire] with
  | Some s =>
      reachable r t [] 0 s /\ suggestions s <> []
      /\ read_li (suggestionsHtml (dom_of s)) = Some (suggestions s)
      /\ map read_value (brandLabels (dom_of s)) = map (fun b => Some (fst b)) (brandList s)
      /\ map read_value (categoryLabels (dom_of s)) = map (fun b => Some (fst b)) (categoryList s)
  | None => False
  end.
Proof.
  cbn zeta.
  assert (F : option_map (fun s => Nat.eqb (length (suggestions s)) 0)
                (run (fun _ => 0%Q) (init (fun _ => 0%Q) (fun _ => 0%Z) [] 0)
                   [SearchInput (ustr "fram"); DebounceFire]) = Some false) by (vm_compute; reflexivity).
  destruct (run _ _ _) as [s|] eqn:E; [|discriminate]. injection F as F.
  assert (Hr : reachable (fun _ => 0%Q) (fun _ => 0%Z) [] 0 s)
    by (eapply run_reachable; [constructor|exact E]).
  split; [exact Hr|]. split; [destruct (suggestions s); discriminate|].
  apply (dom_readback (fun _ => 0%Q) (fun _ => 0%Z) [] 0). exact Hr.
Defined.
